(** * local_agent: the streaming tool-calling agent loop

    A shallow embedding of [examples/08_agents/local_agent.py]: the safe
    expression evaluator behind the [calculate] tool, the tool registry,
    the streaming aggregation loop of [stream_agent_turn], its tool
    dispatch loop, and [agent_turn].

    Conventions.
    - A Python [str] is a [string] whose characters are code points
      below 256.
    - A Python [dict] is an association list in insertion order with
      unique keys ([dict_get], [dict_set]).
    - A Python [float] is a binary64 value, held as a [spec_float].
    - Exceptions are explicit: a computation yields an [outcome], either
      [Returned v] or [Raised e].
    - What the program cannot decide on its own (the remote service, the
      file system, the clock, the terminal, the interpreter's recursion
      limit, and the library functions [json.loads], [json.dumps],
      [ast.parse], [repr], [operator.*], [math.*]) is collected in one
      record, [host].  Everything is stated for an arbitrary host.
    - What is written to the terminal is not recorded.  A call of
      [console.print] whose text depends on the data is in the model
      all the same, since rich reads such a text as markup and raises
      [MarkupError] on a closing tag that closes nothing.  The builtin
      [print] and the calls of [console.print] on a fixed text are left
      out. *)

From Stdlib Require Import ZArith List String Ascii Bool Arith Lia.
From Stdlib Require Import DecimalString DecimalZ.
From Stdlib Require Import Sorting.Sorted Sorting.Permutation.
From Stdlib Require Import Floats.SpecFloat.
Import ListNotations.
Open Scope string_scope.
Set Warnings "-register-all".

(* ================================================================= *)
(** ** Exceptions *)

(** The exception classes that occur in the program or in the library
    calls it makes, with Python's class hierarchy. *)
Inductive exc_class : Set :=
  | BaseException | Exception | KeyboardInterrupt | SystemExit
  | ArithmeticError | ZeroDivisionError | OverflowError
  | ValueError | JSONDecodeError | SyntaxError
  | TypeError | AttributeError
  | LookupError | IndexError | KeyError
  | RuntimeError | RecursionError | NotImplementedError
  | MemoryError | OSError | SubprocessError | TimeoutExpired
  | ConsoleError | MarkupError.

Scheme Equality for exc_class.

(** Proper ancestors of a class, nearest first. *)
Definition bases (c : exc_class) : list exc_class :=
  match c with
  | BaseException => []
  | Exception | KeyboardInterrupt | SystemExit => [BaseException]
  | ZeroDivisionError | OverflowError =>
      [ArithmeticError; Exception; BaseException]
  | JSONDecodeError => [ValueError; Exception; BaseException]
  | IndexError | KeyError => [LookupError; Exception; BaseException]
  | RecursionError | NotImplementedError =>
      [RuntimeError; Exception; BaseException]
  | TimeoutExpired => [SubprocessError; Exception; BaseException]
  | MarkupError => [ConsoleError; Exception; BaseException]
  | ArithmeticError | ValueError | SyntaxError | TypeError
  | AttributeError | LookupError | RuntimeError | MemoryError
  | OSError | SubprocessError | ConsoleError => [Exception; BaseException]
  end.

Definition issubclass (c d : exc_class) : bool :=
  exc_class_beq c d || existsb (exc_class_beq d) (bases c).

(** An exception instance: its class and [str(e)]. *)
Record exn : Set := mk_exn { exc_type : exc_class; exc_str : string }.

Definition isinstance (e : exn) (c : exc_class) : bool :=
  issubclass (exc_type e) c.

Inductive outcome (A : Type) : Type :=
  | Returned (a : A)
  | Raised (e : exn).
Arguments Returned {A} a.
Arguments Raised {A} e.

Module OutcomeMonad.
Definition ret {A} (a : A) : outcome A := Returned a.
Definition bind {A B} (m : outcome A) (f : A -> outcome B) : outcome B :=
  match m with
  | Returned a => f a
  | Raised e => Raised e
  end.
Definition raise {A} (c : exc_class) (msg : string) : outcome A :=
  Raised (mk_exn c msg).
End OutcomeMonad.

Declare Scope outcome_scope.
Delimit Scope outcome_scope with outcome.
Notation "x <- m ;; k" := (OutcomeMonad.bind m (fun x => k))
  (at level 100, m at next level, right associativity) : outcome_scope.

(* ================================================================= *)
(** ** Python values and dictionaries *)

Inductive pyval : Type :=
  | PNone
  | PEllipsis
  | PBool (b : bool)
  | PInt (z : Z)
  | PFloat (f : spec_float)
  | PComplex (re im : spec_float)
  | PStr (s : string)
  | PBytes (b : string)
  | PList (l : list pyval)
  | PDict (d : list (string * pyval)).

(** [type(v).__name__] *)
Definition type_name (v : pyval) : string :=
  match v with
  | PNone => "NoneType"
  | PEllipsis => "ellipsis"
  | PBool _ => "bool"
  | PInt _ => "int"
  | PFloat _ => "float"
  | PComplex _ _ => "complex"
  | PStr _ => "str"
  | PBytes _ => "bytes"
  | PList _ => "list"
  | PDict _ => "dict"
  end.

Section Dict.
Context {K V : Type} (eqb : K -> K -> bool).

(** [d.get(k)] *)
Fixpoint dict_get (k : K) (d : list (K * V)) : option V :=
  match d with
  | [] => None
  | (k', v) :: d' => if eqb k k' then Some v else dict_get k d'
  end.

(** [k in d] *)
Definition dict_contains (k : K) (d : list (K * V)) : bool :=
  match dict_get k d with Some _ => true | None => false end.

(** [d[k] = v]: an existing key keeps its position, a new key goes last. *)
Fixpoint dict_set (k : K) (v : V) (d : list (K * V)) : list (K * V) :=
  match d with
  | [] => [(k, v)]
  | (k', v') :: d' =>
      if eqb k k' then (k', v) :: d' else (k', v') :: dict_set k v d'
  end.

Definition dict_keys (d : list (K * V)) : list K := map fst d.
Definition dict_values (d : list (K * V)) : list V := map snd d.
End Dict.

Definition payload : Type := list (string * pyval).

Definition sget (k : string) (d : payload) : option pyval :=
  dict_get String.eqb k d.

(** [d.get(k, default)] *)
Definition dict_get_default (k : string) (default : pyval) (d : payload)
  : pyval :=
  match sget k d with Some v => v | None => default end.

(** [len(s)] *)
Definition py_len (s : string) : Z := Z.of_nat (String.length s).

(** [str(z)] *)
Definition str_int (z : Z) : string :=
  DecimalString.NilZero.string_of_int (Z.to_int z).

(** [s[:n]] for [n >= 0] *)
Fixpoint slice_to (n : nat) (s : string) : string :=
  match n, s with
  | S n', String c s' => String c (slice_to n' s')
  | _, _ => EmptyString
  end.

(** The longest integer, in decimal digits, that the interpreter turns
    into text ([sys.get_int_max_str_digits()], at its default). *)
Definition MAX_STR_DIGITS : Z := 4300.

Definition decimal_digits (z : Z) : Z := py_len (str_int (Z.abs z)).

(** Why [json.dumps] gives up on a value: an object of a type it has no
    encoding for, or an integer too long to be written out. *)
Inductive refusal : Type :=
  | bad_type (type : string)
  | long_int.

(** The first thing [json.dumps] gives up on, in traversal order. *)
Fixpoint refused (v : pyval) : option refusal :=
  match v with
  | PEllipsis | PComplex _ _ | PBytes _ => Some (bad_type (type_name v))
  | PInt z =>
      if (MAX_STR_DIGITS <? decimal_digits z)%Z then Some long_int else None
  | PList l =>
      (fix first (l : list pyval) : option refusal :=
         match l with
         | [] => None
         | x :: l' =>
             match refused x with
             | Some r => Some r
             | None => first l'
             end
         end) l
  | PDict d =>
      (fix first (d : list (string * pyval)) : option refusal :=
         match d with
         | [] => None
         | (_, x) :: d' =>
             match refused x with
             | Some r => Some r
             | None => first d'
             end
         end) d
  | _ => None
  end.

(** The type of the object [json.dumps] fails on, when it fails on the
    type of an object. *)
Definition unserializable (v : pyval) : option string :=
  match refused v with
  | Some (bad_type t) => Some t
  | _ => None
  end.

(* ================================================================= *)
(** ** Strings: [str.strip] *)

(** [c.isspace()] for a code point below 256. *)
Definition isspace (c : ascii) : bool :=
  let n := nat_of_ascii c in
  (((9 <=? n) && (n <=? 13)) || ((28 <=? n) && (n <=? 32))
   || (n =? 133) || (n =? 160))%nat.

Fixpoint lstrip (s : string) : string :=
  match s with
  | EmptyString => EmptyString
  | String c s' => if isspace c then lstrip s' else s
  end.

Fixpoint rstrip (s : string) : string :=
  match s with
  | EmptyString => EmptyString
  | String c s' =>
      match rstrip s' with
      | EmptyString => if isspace c then EmptyString else String c EmptyString
      | r => String c r
      end
  end.

Definition strip (s : string) : string := rstrip (lstrip s).

(** Truth value of a string: non-empty. *)
Definition nonempty (s : string) : bool :=
  match s with EmptyString => false | _ => true end.

(** [x or ""] for an optional string. *)
Definition or_empty (o : option string) : string :=
  match o with Some s => s | None => "" end.

(* ================================================================= *)
(** ** Syntax trees of [ast] *)

(** Operator classes of [ast], binary and unary: the keys of
    [SAFE_OPERATORS] are taken among them. *)
Inductive op_class : Set :=
  | Add | Sub | Mult | MatMult | Div | Mod | Pow
  | LShift | RShift | BitOr | BitXor | BitAnd | FloorDiv
  | Invert | Not | UAdd | USub.

Scheme Equality for op_class.

(** [op_type.__name__] *)
Definition op_name (o : op_class) : string :=
  match o with
  | Add => "Add" | Sub => "Sub" | Mult => "Mult" | MatMult => "MatMult"
  | Div => "Div" | Mod => "Mod" | Pow => "Pow"
  | LShift => "LShift" | RShift => "RShift" | BitOr => "BitOr"
  | BitXor => "BitXor" | BitAnd => "BitAnd" | FloorDiv => "FloorDiv"
  | Invert => "Invert" | Not => "Not" | UAdd => "UAdd" | USub => "USub"
  end.

(** The nodes [safe_eval_node] tells apart; every other node class is an
    [OtherNode] carrying its class name. *)
Inductive node : Type :=
  | Constant (value : pyval)
  | Name (id : string)
  | BinOp (left : node) (op : op_class) (right : node)
  | UnaryOp (op : op_class) (operand : node)
  | Call (func : node) (args : list node)
         (keywords : list (option string * node))
  | Expression (body : node)
  | OtherNode (class_name : string) (children : list node).

(** [type(node).__name__] *)
Definition node_type_name (n : node) : string :=
  match n with
  | Constant _ => "Constant"
  | Name _ => "Name"
  | BinOp _ _ _ => "BinOp"
  | UnaryOp _ _ => "UnaryOp"
  | Call _ _ _ => "Call"
  | Expression _ => "Expression"
  | OtherNode c _ => c
  end.

(** The callables stored in [SAFE_OPERATORS] and [SAFE_FUNCTIONS]. *)
Inductive builtin : Set :=
  | operator_add | operator_sub | operator_mul | operator_truediv
  | operator_pow | operator_neg | operator_pos | operator_mod
  | math_sin | math_cos | math_tan | math_asin | math_acos | math_atan
  | math_sqrt | math_log | math_log10 | math_exp
  | builtin_pow | builtin_abs | math_floor | math_ceil | builtin_round.

(* ================================================================= *)
(** ** The transcript, the fragment stream and the event trace *)

Definition message : Type := payload.

Record function_delta : Type := mk_function_delta {
  fn_name : option string;
  fn_arguments : option string
}.

(** One entry of [delta.tool_calls]. *)
Record tool_call_delta : Type := mk_tool_call_delta {
  tc_index : Z;
  tc_id : option string;
  tc_function : function_delta
}.

(** [chunk.choices[0].delta]; a field is [None] when the attribute is
    missing or holds [None]. *)
Record delta : Type := mk_delta {
  d_reasoning_content : option string;
  d_content : option string;
  d_tool_calls : option (list tool_call_delta)
}.

Record choice : Type := mk_choice { choice_delta : option delta }.
Record chunk : Type := mk_chunk { choices : list choice }.

(** What the program asks of the outside world, in order. *)
Inductive event : Type :=
  | ChatRequest (messages : list message)
  | ToolCall (name : string) (kwargs : payload).

(* ================================================================= *)
(** ** The host *)

(** Library functions and external collaborators.  An oracle of the
    outside world receives the events that happened before the call, so
    its answer may depend on everything the program did so far. *)
Record host : Type := mk_host {
  (** [json.loads(s)] *)
  json_loads : string -> outcome pyval;
  (** the text [json.dumps(v)] returns for a serialisable [v] *)
  json_encode : pyval -> string;
  (** [ast.parse(source, mode="eval")] *)
  ast_parse : pyval -> outcome node;
  (** applying a callable of [operator], [math] or the builtins *)
  call_builtin : builtin -> list pyval -> outcome pyval;
  (** [math.pi], [math.e] *)
  math_pi : spec_float;
  math_e : spec_float;
  (** [repr(v)] *)
  py_repr : pyval -> string;
  (** the number of Python frames the recursion limit of the
      interpreter leaves room for where [calculate] calls
      [safe_eval_node] *)
  recursion_budget : nat;
  (** the frames a list comprehension takes: one before Python 3.12,
      none since *)
  comprehension_frames : nat;
  (** [console.print(text)]: rich renders the markup of [text]; it
      raises [MarkupError] when a closing tag closes nothing *)
  console_print : string -> outcome unit;
  (** [client.create_chat(messages=..., stream=True, ...)], consumed to
      the end *)
  create_chat : list event -> list message -> outcome (list chunk);
  (** the [try] suites of the tools that touch the outside world *)
  os_read_file : list event -> pyval -> outcome payload;
  os_write_file : list event -> pyval -> pyval -> outcome payload;
  os_list_directory : list event -> pyval -> outcome payload;
  os_run_command : list event -> pyval -> outcome payload;
  os_get_datetime : list event -> outcome payload
}.

(** [json.dumps(v)] *)
Definition json_dumps (H : host) (v : pyval) : outcome string :=
  match refused v with
  | Some (bad_type t) =>
      OutcomeMonad.raise TypeError
        ("Object of type " ++ t ++ " is not JSON serializable")
  | Some long_int =>
      OutcomeMonad.raise ValueError
        ("Exceeds the limit (" ++ str_int MAX_STR_DIGITS
         ++ " digits) for integer string conversion; "
         ++ "use sys.set_int_max_str_digits() to increase the limit")
  | None => Returned (json_encode H v)
  end.

(* ================================================================= *)
(** ** Safe expression evaluator *)

Definition SAFE_OPERATORS : list (op_class * builtin) :=
  [ (Add, operator_add); (Sub, operator_sub);
    (Mult, operator_mul); (Div, operator_truediv);
    (Pow, operator_pow); (USub, operator_neg);
    (UAdd, operator_pos); (Mod, operator_mod) ].

Definition SAFE_FUNCTIONS : list (string * builtin) :=
  [ ("sin", math_sin); ("cos", math_cos); ("tan", math_tan);
    ("asin", math_asin); ("acos", math_acos); ("atan", math_atan);
    ("sqrt", math_sqrt); ("log", math_log); ("log10", math_log10);
    ("exp", math_exp); ("pow", builtin_pow); ("abs", builtin_abs);
    ("floor", math_floor); ("ceil", math_ceil); ("round", builtin_round) ].

Definition SAFE_CONSTANTS (H : host) : list (string * pyval) :=
  [ ("pi", PFloat (math_pi H)); ("e", PFloat (math_e H)) ].

(** [isinstance(value, (int, float))]; [bool] is a subclass of [int]. *)
Definition is_int_or_float (v : pyval) : bool :=
  match v with
  | PInt _ | PBool _ | PFloat _ => true
  | _ => false
  end.

(** The text of [type(value)] inside an f-string. *)
Definition class_repr (v : pyval) : string :=
  "<class '" ++ type_name v ++ "'>".

(** What a call raises when the recursion limit leaves no frame for
    it. *)
Definition recursion_error : exn :=
  mk_exn RecursionError "maximum recursion depth exceeded".

Section Evaluator.
Variable H : host.
Import OutcomeMonad.
Local Open Scope outcome_scope.

(** [safe_eval_node(node)], called where [frames] more frames fit under
    the recursion limit.  The call takes one of them; the list
    comprehension over the arguments of a call takes
    [comprehension_frames H] more. *)
Fixpoint safe_eval_node_at (n : node) (frames : nat) {struct n}
  : outcome pyval :=
  match frames with
  | O => Raised recursion_error
  | S inner =>
      match n with
      | Constant value =>
          if is_int_or_float value then ret value
          else raise ValueError
                 ("Unsupported constant type: " ++ class_repr value)
      | Name id =>
          match dict_get String.eqb id (SAFE_CONSTANTS H) with
          | Some v => ret v
          | None => raise ValueError ("Unknown variable: " ++ id)
          end
      | BinOp lhs op rhs =>
          match dict_get op_class_beq op SAFE_OPERATORS with
          | None => raise ValueError ("Unsupported operator: " ++ op_name op)
          | Some f =>
              l <- safe_eval_node_at lhs inner ;;
              r <- safe_eval_node_at rhs inner ;;
              call_builtin H f [l; r]
          end
      | UnaryOp op operand =>
          match dict_get op_class_beq op SAFE_OPERATORS with
          | None => raise ValueError ("Unsupported operator: " ++ op_name op)
          | Some f =>
              v <- safe_eval_node_at operand inner ;;
              call_builtin H f [v]
          end
      | Call func args _ =>
          match func with
          | Name id =>
              match dict_get String.eqb id SAFE_FUNCTIONS with
              | Some f =>
                  vs <- (if (inner <? comprehension_frames H)%nat
                         then Raised recursion_error
                         else
                           (fix eval_args (l : list node)
                              : outcome (list pyval) :=
                              match l with
                              | [] => ret []
                              | a :: l' =>
                                  v <- safe_eval_node_at
                                         a (inner - comprehension_frames H) ;;
                                  vs <- eval_args l' ;;
                                  ret (v :: vs)
                              end) args) ;;
                  call_builtin H f vs
              | None => raise ValueError ("Unsupported function: " ++ id)
              end
          | _ =>
              raise ValueError
                ("Unsupported function: " ++ node_type_name func)
          end
      | Expression body => safe_eval_node_at body inner
      | OtherNode _ _ =>
          raise ValueError
            ("Unsupported expression type: " ++ node_type_name n)
      end
  end.

(** [[safe_eval_node(arg) for arg in args]], each call made where
    [frames] more frames fit. *)
Definition eval_args_at (frames : nat) : list node -> outcome (list pyval) :=
  fix eval_args (l : list node) : outcome (list pyval) :=
    match l with
    | [] => ret []
    | a :: l' =>
        v <- safe_eval_node_at a frames ;;
        vs <- eval_args l' ;;
        ret (v :: vs)
    end.

(** The call [safe_eval_node(tree)] that [calculate] makes. *)
Definition safe_eval_node (n : node) : outcome pyval :=
  safe_eval_node_at n (recursion_budget H).

(** [try: body  except Exception as e: return handler(e)] *)
Definition except_Exception (body : outcome payload)
           (handler : exn -> payload) : outcome payload :=
  match body with
  | Returned v => Returned v
  | Raised e =>
      if isinstance e Exception then Returned (handler e) else Raised e
  end.

Definition calculate (expression : pyval) : outcome payload :=
  match (tree <- ast_parse H expression ;;
         result <- safe_eval_node tree ;;
         ret [("expression", expression); ("result", result)]) with
  | Returned v => Returned v
  | Raised e =>
      if isinstance e SyntaxError then
        Returned [("error", PStr ("Invalid syntax: " ++ exc_str e))]
      else if isinstance e ZeroDivisionError then
        Returned [("error", PStr "Division by zero")]
      else if isinstance e Exception then
        Returned [("error", PStr (exc_str e))]
      else Raised e
  end.

(* ================================================================= *)
(** ** Tool implementations *)

Definition COMMAND_TIMEOUT : Z := 30.

Definition read_file (hist : list event) (path : pyval) : outcome payload :=
  except_Exception (os_read_file H hist path)
                   (fun e => [("error", PStr (exc_str e))]).

Definition write_file (hist : list event) (path content : pyval)
  : outcome payload :=
  except_Exception (os_write_file H hist path content)
                   (fun e => [("error", PStr (exc_str e))]).

Definition list_directory (hist : list event) (path : pyval)
  : outcome payload :=
  except_Exception (os_list_directory H hist path)
                   (fun e => [("error", PStr (exc_str e))]).

Definition run_command (hist : list event) (command : pyval)
  : outcome payload :=
  match os_run_command H hist command with
  | Returned v => Returned v
  | Raised e =>
      if isinstance e TimeoutExpired then
        Returned [("error", PStr "Command timed out after 30s");
                  ("command", command)]
      else if isinstance e Exception then
        Returned [("error", PStr (exc_str e)); ("command", command)]
      else Raised e
  end.

Definition get_datetime (hist : list event) : outcome payload :=
  os_get_datetime H hist.

(* ================================================================= *)
(** ** Calling a function with unpacked keyword arguments *)

Definition quoted (s : string) : string := "'" ++ s ++ "'".

(** Text of the [TypeError] for parameters left without value; no tool
    has more than two parameters. *)
Definition missing_message (fname : string) (names : list string)
  : string :=
  match names with
  | [a] =>
      fname ++ "() missing 1 required positional argument: " ++ quoted a
  | [a; b] =>
      fname ++ "() missing 2 required positional arguments: "
      ++ quoted a ++ " and " ++ quoted b
  | _ =>
      fname ++ "() missing required positional arguments: "
      ++ String.concat ", " (map quoted names)
  end.

(** Binds [kwargs] to the parameters [params] (name and default, in
    declaration order): a keyword that names no parameter and a
    parameter left without value are a [TypeError]. *)
Definition bind_arguments (fname : string)
           (params : list (string * option pyval)) (kwargs : payload)
  : outcome (list pyval) :=
  match filter (fun kv => negb (dict_contains String.eqb (fst kv) params))
               kwargs with
  | (k, _) :: _ =>
      raise TypeError
        (fname ++ "() got an unexpected keyword argument " ++ quoted k)
  | [] =>
      let missing :=
        filter (fun p =>
                  match snd p with
                  | None => negb (dict_contains String.eqb (fst p) kwargs)
                  | Some _ => false
                  end) params in
      match missing with
      | _ :: _ => raise TypeError (missing_message fname (map fst missing))
      | [] =>
          ret (map (fun p =>
                      match sget (fst p) kwargs, snd p with
                      | Some v, _ => v
                      | None, Some d => d
                      | None, None => PNone
                      end) params)
      end
  end.

Definition handler : Type := payload -> list event -> outcome payload.

Definition call1 (fname pname : string) (default : option pyval)
           (f : list event -> pyval -> outcome payload) : handler :=
  fun kwargs hist =>
    vs <- bind_arguments fname [(pname, default)] kwargs ;;
    f hist (hd PNone vs).

Definition FUNCTION_MAP : list (string * handler) :=
  [ ("read_file", call1 "read_file" "path" None read_file);
    ("write_file",
     fun kwargs hist =>
       vs <- bind_arguments "write_file"
                            [("path", None); ("content", None)] kwargs ;;
       write_file hist (nth 0 vs PNone) (nth 1 vs PNone));
    ("list_directory",
     call1 "list_directory" "path" (Some (PStr ".")) list_directory);
    ("run_command", call1 "run_command" "command" None run_command);
    ("calculate",
     call1 "calculate" "expression" None (fun _ => calculate));
    ("get_datetime",
     fun kwargs hist =>
       _ <- bind_arguments "get_datetime" [] kwargs ;;
       get_datetime hist) ].

End Evaluator.

(* ================================================================= *)
(** ** Streaming aggregation *)

Record function_entry : Type := mk_function_entry {
  function_name : string;
  function_arguments : string
}.

(** A value of the [tool_calls] dictionary:
    [{"id": ..., "function": {"name": ..., "arguments": ...}}]. *)
Record tool_call : Type := mk_tool_call {
  tool_id : option string;
  tool_function : function_entry
}.

(** The local variables of the streaming loop. *)
Record aggregation : Type := mk_aggregation {
  reasoning : string;
  content : string;
  tool_calls : list (Z * tool_call)
}.

(** Truth value of an optional string: present and non-empty. *)
Definition truthy (o : option string) : bool :=
  match o with Some s => nonempty s | None => false end.

(** Body of [for tc in delta.tool_calls]. *)
Definition accumulate_tool_call (calls : list (Z * tool_call))
           (tc : tool_call_delta) : list (Z * tool_call) :=
  let idx := tc_index tc in
  match dict_get Z.eqb idx calls with
  | None =>
      dict_set Z.eqb idx
        {| tool_id := tc_id tc;
           tool_function :=
             {| function_name := or_empty (fn_name (tc_function tc));
                function_arguments :=
                  or_empty (fn_arguments (tc_function tc)) |} |}
        calls
  | Some entry =>
      if truthy (fn_arguments (tc_function tc)) then
        dict_set Z.eqb idx
          {| tool_id := tool_id entry;
             tool_function :=
               {| function_name := function_name (tool_function entry);
                  function_arguments :=
                    function_arguments (tool_function entry)
                    ++ or_empty (fn_arguments (tc_function tc)) |} |}
          calls
      else calls
  end.

(** Body of [for chunk in response]. *)
Definition process_chunk (a : aggregation) (c : chunk) : aggregation :=
  match choices c with
  | [] => a
  | ch :: _ =>
      match choice_delta ch with
      | None => a
      | Some d =>
          {| reasoning :=
               if truthy (d_reasoning_content d)
               then reasoning a ++ or_empty (d_reasoning_content d)
               else reasoning a;
             content :=
               if truthy (d_content d)
               then content a ++ or_empty (d_content d)
               else content a;
             tool_calls :=
               match d_tool_calls d with
               | Some tcs => fold_left accumulate_tool_call tcs (tool_calls a)
               | None => tool_calls a
               end |}
      end
  end.

Definition aggregate (response : list chunk) : aggregation :=
  fold_left process_chunk response
            {| reasoning := ""; content := ""; tool_calls := [] |}.

Definition opt_str (o : option string) : pyval :=
  match o with Some s => PStr s | None => PNone end.

(** One element of [assistant_msg["tool_calls"]]. *)
Definition tool_call_record (tc : tool_call) : pyval :=
  PDict [ ("id", opt_str (tool_id tc));
          ("type", PStr "function");
          ("function",
           PDict [ ("name", PStr (function_name (tool_function tc)));
                   ("arguments",
                    PStr (function_arguments (tool_function tc))) ]) ].

Definition sset (k : string) (v : pyval) (d : payload) : payload :=
  dict_set String.eqb k v d.

(** The assistant message built after the stream ended. *)
Definition assistant_msg (a : aggregation) : message :=
  let m := [("role", PStr "assistant")] in
  let m := if nonempty (content a) then sset "content" (PStr (content a)) m
           else m in
  let m := if nonempty (reasoning a)
           then sset "reasoning_content" (PStr (reasoning a)) m
           else m in
  match tool_calls a with
  | [] => m
  | _ :: _ =>
      let m := sset "tool_calls"
                 (PList (map tool_call_record (dict_values (tool_calls a))))
                 m in
      if dict_contains String.eqb "content" m then m
      else sset "content" PNone m
  end.

(** [sorted(l)] on integers. *)
Fixpoint insert_sorted (x : Z) (l : list Z) : list Z :=
  match l with
  | [] => [x]
  | y :: l' => if (x <=? y)%Z then x :: l else y :: insert_sorted x l'
  end.

Fixpoint sorted (l : list Z) : list Z :=
  match l with
  | [] => []
  | x :: l' => insert_sorted x (sorted l')
  end.

(* ================================================================= *)
(** ** The turn controller and the agent loop *)

(** The transcript (the [messages] list, mutated in place by the
    program) and the events so far.  The program writes to the list by
    [append] only, and the only dictionaries it writes to are those it
    creates itself before appending them (the assistant message, the
    entries of its local [tool_calls]); so the list is held as a
    value. *)
Record state : Type := mk_state {
  messages : list message;
  trace : list event
}.

(** Stateful computations that may raise; a raise keeps the state
    reached so far. *)
Definition M (A : Type) : Type := state -> outcome A * state.

Module StateMonad.
Definition ret {A} (a : A) : M A := fun s => (Returned a, s).
Definition bind {A B} (m : M A) (f : A -> M B) : M B :=
  fun s =>
    match m s with
    | (Returned a, s') => f a s'
    | (Raised e, s') => (Raised e, s')
    end.
Definition raise {A} (c : exc_class) (msg : string) : M A :=
  fun s => (Raised (mk_exn c msg), s).
Definition lift {A} (o : outcome A) : M A := fun s => (o, s).
(** [messages.append(m)] *)
Definition append (m : message) : M unit :=
  fun s => (Returned tt,
            {| messages := messages s ++ [m]; trace := trace s |}).
Definition emit (ev : event) : M unit :=
  fun s => (Returned tt,
            {| messages := messages s; trace := trace s ++ [ev] |}).
Definition get : M state := fun s => (Returned s, s).
End StateMonad.

Declare Scope state_scope.
Delimit Scope state_scope with state.
Notation "x <- m ;; k" := (StateMonad.bind m (fun x => k))
  (at level 100, m at next level, right associativity) : state_scope.
Notation "m ;;; k" := (StateMonad.bind m (fun _ => k))
  (at level 100, right associativity) : state_scope.

Section Agent.
Variable H : host.
Import StateMonad.
Local Open Scope state_scope.

Definition tool_message (tc : tool_call) (text : string) : message :=
  [ ("role", PStr "tool");
    ("tool_call_id", opt_str (tool_id tc));
    ("content", PStr text) ].

(** [json.loads(raw_args) if raw_args.strip() else {}] *)
Definition parse_arguments (raw_args : string) : outcome pyval :=
  if nonempty (strip raw_args) then json_loads H raw_args
  else Returned (PDict []).

(** The line feed. *)
Definition nl : string := String (ascii_of_nat 10) EmptyString.

(** [str(v)], as an f-string formats [v]: a string as it is, any other
    value by its [repr]. *)
Definition py_str (v : pyval) : string :=
  match v with
  | PStr s => s
  | _ => py_repr H v
  end.

(** [console.print(f"\n[cyan]> {func_name}[/cyan]", end='')] *)
Definition print_call (func_name : string) : outcome unit :=
  console_print H (nl ++ "[cyan]> " ++ func_name ++ "[/cyan]").

(** [console.print(f"  [red]JSON parse error: {e}[/red]")] *)
Definition print_parse_error (e : exn) : outcome unit :=
  console_print H ("  [red]JSON parse error: " ++ exc_str e ++ "[/red]").

(** [", ".join(f"{k}={repr(v)[:60]}" for k, v in func_args.items())] *)
Definition arg_summary (kwargs : payload) : string :=
  String.concat ", "
    (map (fun kv => fst kv ++ "=" ++ slice_to 60 (py_repr H (snd kv)))
         kwargs).

(** [if arg_summary: console.print(f"({arg_summary})", end='')] *)
Definition print_arguments (kwargs : payload) : outcome unit :=
  if nonempty (arg_summary kwargs)
  then console_print H ("(" ++ arg_summary kwargs ++ ")")
  else Returned tt.

(** [result_str[:200] + "..." if len(result_str) > 200 else result_str] *)
Definition preview (result_str : string) : string :=
  if (200 <? py_len result_str)%Z then slice_to 200 result_str ++ "..."
  else result_str.

(** The preview of the result: the error in red when the result has
    one, the start of the serialised result otherwise. *)
Definition print_result (result : payload) (result_str : string)
  : outcome unit :=
  match sget "error" result with
  | Some failure =>
      console_print H ("  [red]" ++ py_str failure ++ "[/red]")
  | None => console_print H ("  [dim]" ++ preview result_str ++ "[/dim]")
  end.

(** The end of the loop body: the result is serialised, previewed on
    the console and appended as a tool message. *)
Definition report_result (tc : tool_call) (result : payload) : M unit :=
  result_str <- lift (json_dumps H (PDict result)) ;;
  lift (print_result result result_str) ;;;
  append (tool_message tc result_str).

(** Body of [for idx in sorted(tool_calls.keys())]. *)
Definition execute_tool_call (tc : tool_call) : M unit :=
  let func_name := function_name (tool_function tc) in
  let raw_args := function_arguments (tool_function tc) in
  lift (print_call func_name) ;;;
  match parse_arguments raw_args with
  | Raised e =>
      if isinstance e JSONDecodeError then
        lift (print_parse_error e) ;;;
        text <- lift (json_dumps H
                        (PDict [("error",
                                 PStr ("Invalid arguments JSON: "
                                       ++ exc_str e))])) ;;
        append (tool_message tc text)
      else lift (Raised e)
  | Returned func_args =>
      match func_args with
      | PDict kwargs =>
          lift (print_arguments kwargs) ;;;
          result <-
            match dict_get String.eqb func_name (FUNCTION_MAP H) with
            | Some f =>
                s <- get ;;
                emit (ToolCall func_name kwargs) ;;;
                lift (f kwargs (trace s))
            | None =>
                ret [("error", PStr ("Unknown function: " ++ func_name))]
            end ;;
          report_result tc result
      | _ =>
          raise AttributeError
            ("'" ++ type_name func_args
             ++ "' object has no attribute 'items'")
      end
  end.

Fixpoint execute_tool_calls (calls : list (Z * tool_call))
         (idxs : list Z) : M unit :=
  match idxs with
  | [] => ret tt
  | idx :: rest =>
      match dict_get Z.eqb idx calls with
      | Some tc => execute_tool_call tc
      | None => raise KeyError ""
      end ;;;
      execute_tool_calls calls rest
  end.

(** Returns [Some content] for a final answer and [None] when tool
    calls were made.  The [client] argument is the host; the
    [show_thinking] argument only selects what is printed. *)
Definition stream_agent_turn : M (option string) :=
  s <- get ;;
  emit (ChatRequest (messages s)) ;;;
  response <- lift (create_chat H (trace s) (messages s)) ;;
  let a := aggregate response in
  append (assistant_msg a) ;;;
  match tool_calls a with
  | _ :: _ =>
      execute_tool_calls (tool_calls a)
                         (sorted (dict_keys (tool_calls a))) ;;;
      ret None
  | [] => ret (Some (content a))
  end.

(** [for i in range(n): result = stream_agent_turn(...);
     if result is not None: return result] *)
Fixpoint agent_rounds (n : nat) : M (option string) :=
  match n with
  | O => ret None
  | S n' =>
      result <- stream_agent_turn ;;
      match result with
      | Some r => ret (Some r)
      | None => agent_rounds n'
      end
  end.

Definition agent_turn (max_iterations : nat) : M pyval :=
  result <- agent_rounds max_iterations ;;
  match result with
  | Some r => ret (PStr r)
  | None =>
      s <- get ;;
      match rev (messages s) with
      | [] => raise IndexError "list index out of range"
      | m :: _ => ret (dict_get_default "content" (PStr "") m)
      end
  end.

End Agent.

Definition default_max_iterations : nat := 10.

Definition is_chat_request (ev : event) : bool :=
  match ev with ChatRequest _ => true | ToolCall _ _ => false end.

(** Number of requests sent to the remote service: one per call of
    [stream_agent_turn]. *)
Definition chat_requests (tr : list event) : nat :=
  List.length (filter is_chat_request tr).

(* ================================================================= *)
(** ** A scripted host

    A host to run the model on concrete inputs: the remote service
    replays a script, the outside world answers with fixed payloads, and
    the library functions are given on a fragment (a table of source
    texts for the two parsers, integers and binary64 floats with the
    four basic operations, [sqrt] and [abs] for the arithmetic, [repr]
    without complex numbers and bytes, the tags of the console markup
    without escapes).  Outside the fragment the arithmetic raises
    [NotImplementedError].  The interpreter has 990 frames left where
    [calculate] starts and inlines its comprehensions. *)

Module Scripted.
Import OutcomeMonad.

Definition dq : string := String (ascii_of_nat 34) EmptyString.

Definition prec : Z := 53.
Definition emax : Z := 1024.

Definition float_of_int (z : Z) : spec_float :=
  binary_normalize prec emax z 0 false.

Definition as_int (v : pyval) : option Z :=
  match v with
  | PInt z => Some z
  | PBool b => Some (if b then 1 else 0)%Z
  | _ => None
  end.

(** Conversion to float, exact below [2^53]. *)
Definition as_float (v : pyval) : option spec_float :=
  match v with
  | PFloat f => Some f
  | _ =>
      match as_int v with
      | Some z =>
          if (Z.abs z <=? 2 ^ 53)%Z then Some (float_of_int z) else None
      | None => None
      end
  end.

Definition is_zero (f : spec_float) : bool :=
  match f with S754_zero _ => true | _ => false end.

Definition is_negative (f : spec_float) : bool :=
  match f with
  | S754_finite true _ _ | S754_infinity true => true
  | _ => false
  end.

Definition outside {A} : outcome A :=
  raise NotImplementedError "outside the scripted fragment".

Definition arith (fint : Z -> Z -> Z)
           (ffloat : spec_float -> spec_float -> spec_float)
           (a b : pyval) : outcome pyval :=
  match as_int a, as_int b with
  | Some x, Some y => ret (PInt (fint x y))
  | _, _ =>
      match as_float a, as_float b with
      | Some x, Some y => ret (PFloat (ffloat x y))
      | _, _ => outside
      end
  end.

Definition given (n : nat) : string :=
  "(" ++ DecimalString.NilEmpty.string_of_uint (Nat.to_uint n) ++ " given)".

Definition call (f : builtin) (args : list pyval) : outcome pyval :=
  match f, args with
  | operator_add, [a; b] => arith Z.add (SFadd prec emax) a b
  | operator_sub, [a; b] => arith Z.sub (SFsub prec emax) a b
  | operator_mul, [a; b] => arith Z.mul (SFmul prec emax) a b
  | operator_truediv, [a; b] =>
      match as_float a, as_float b with
      | Some x, Some y =>
          if is_zero y then raise ZeroDivisionError "division by zero"
          else ret (PFloat (SFdiv prec emax x y))
      | _, _ => outside
      end
  | operator_mod, [a; b] =>
      match as_int a, as_int b with
      | Some x, Some y =>
          if (y =? 0)%Z
          then raise ZeroDivisionError "integer modulo by zero"
          else ret (PInt (x mod y))
      | _, _ => outside
      end
  | operator_pow, [a; b] =>
      match as_int a, as_int b with
      | Some x, Some y =>
          if (0 <=? y)%Z then ret (PInt (x ^ y)) else outside
      | _, _ => outside
      end
  | operator_neg, [a] =>
      match a with
      | PFloat x => ret (PFloat (SFopp x))
      | _ => match as_int a with
             | Some x => ret (PInt (- x))
             | None => outside
             end
      end
  | operator_pos, [a] =>
      match a with
      | PFloat x => ret (PFloat x)
      | _ => match as_int a with
             | Some x => ret (PInt x)
             | None => outside
             end
      end
  | math_sqrt, [a] =>
      match as_float a with
      | Some x =>
          if is_negative x then raise ValueError "math domain error"
          else ret (PFloat (SFsqrt prec emax x))
      | None => outside
      end
  | math_sqrt, _ =>
      raise TypeError
        ("math.sqrt() takes exactly one argument "
         ++ given (List.length args))
  | builtin_abs, [a] =>
      match a with
      | PFloat x => ret (PFloat (SFabs x))
      | _ => match as_int a with
             | Some x => ret (PInt (Z.abs x))
             | None => outside
             end
      end
  | builtin_abs, _ =>
      raise TypeError
        ("abs() takes exactly one argument " ++ given (List.length args))
  | _, _ => outside
  end.

Definition int_node (z : Z) : node := Constant (PInt z).

(** [ast.parse(source, mode="eval")] on a table of sources. *)
Definition parse (source : pyval) : outcome node :=
  match source with
  | PStr s =>
      if s =? "1/0" then
        ret (Expression (BinOp (int_node 1) Div (int_node 0)))
      else if s =? "sqrt(16) + 5 * 2" then
        ret (Expression
               (BinOp (Call (Name "sqrt") [int_node 16] []) Add
                      (BinOp (int_node 5) Mult (int_node 2))))
      else if s =? "x + 1" then
        ret (Expression (BinOp (Name "x") Add (int_node 1)))
      else if s =? "7 // 2" then
        ret (Expression (BinOp (int_node 7) FloorDiv (int_node 2)))
      else if s =? "__import__('os')" then
        ret (Expression (Call (Name "__import__") [Constant (PStr "os")] []))
      else if s =? "abs(1, 2)" then
        ret (Expression (Call (Name "abs") [int_node 1; int_node 2] []))
      else if s =? "2 * pi" then
        ret (Expression (BinOp (int_node 2) Mult (Name "pi")))
      else if s =? "-e" then
        ret (Expression (UnaryOp USub (Name "e")))
      else if s =? "[1][0]" then
        ret (Expression
               (OtherNode "Subscript"
                          [OtherNode "List" [int_node 1]; int_node 0]))
      else raise SyntaxError "invalid syntax (<unknown>, line 1)"
  | PBytes _ => outside
  | _ =>
      raise TypeError "compile() arg 1 must be a string, bytes or AST object"
  end.

Definition calculate_arguments : string :=
  "{" ++ dq ++ "expression" ++ dq ++ ": " ++ dq ++ "1/0" ++ dq ++ "}".

(** [json.loads] on a table of texts. *)
Definition loads (s : string) : outcome pyval :=
  if s =? "{}" then ret (PDict [])
  else if s =? "[1, 2]" then ret (PList [PInt 1; PInt 2])
  else if s =? calculate_arguments
       then ret (PDict [("expression", PStr "1/0")])
  else if s =? "{bad" then
    raise JSONDecodeError
      "Expecting property name enclosed in double quotes: line 1 column 2 (char 1)"
  else raise JSONDecodeError "Expecting value: line 1 column 1 (char 0)".

Definition hex_digit (n : nat) : string :=
  String (ascii_of_nat (if (n <? 10)%nat then 48 + n else 87 + n))
         EmptyString.

(** Escapes of [json.dumps] with [ensure_ascii]. *)
Definition escape_char (c : ascii) : string :=
  let n := nat_of_ascii c in
  if (n =? 34)%nat then "\" ++ dq
  else if (n =? 92)%nat then "\\"
  else if (n =? 10)%nat then "\n"
  else if (n =? 13)%nat then "\r"
  else if (n =? 9)%nat then "\t"
  else if (n =? 8)%nat then "\b"
  else if (n =? 12)%nat then "\f"
  else if ((n <? 32) || (126 <? n))%nat then
    "\u00" ++ hex_digit (n / 16) ++ hex_digit (n mod 16)
  else String c EmptyString.

Fixpoint escape (s : string) : string :=
  match s with
  | EmptyString => EmptyString
  | String c s' => escape_char c ++ escape s'
  end.

Definition decimal (z : Z) : string :=
  DecimalString.NilZero.string_of_int (Z.to_int z).

(** Text of a float that holds an integer below [2^53], of a zero, an
    infinity or a NaN; empty otherwise. *)
Definition float_text (f : spec_float) : string :=
  match f with
  | S754_zero s => if s then "-0.0" else "0.0"
  | S754_infinity s => if s then "-Infinity" else "Infinity"
  | S754_nan => "NaN"
  | S754_finite s m e =>
      if (0 <=? e)%Z && (Z.pos m * 2 ^ e <? 2 ^ 53)%Z then
        (if s then "-" else "") ++ decimal (Z.pos m * 2 ^ e) ++ ".0"
      else if (e <? 0)%Z && ((Z.pos m) mod 2 ^ (- e) =? 0)%Z then
        (if s then "-" else "") ++ decimal (Z.pos m / 2 ^ (- e)) ++ ".0"
      else ""
  end.

Fixpoint encode (v : pyval) : string :=
  match v with
  | PNone => "null"
  | PBool b => if b then "true" else "false"
  | PInt z => decimal z
  | PFloat f => float_text f
  | PStr s => dq ++ escape s ++ dq
  | PList l => "[" ++ String.concat ", " (map encode l) ++ "]"
  | PDict d =>
      "{" ++ String.concat ", "
               (map (fun kv =>
                       match kv with
                       | (k, x) => dq ++ escape k ++ dq ++ ": " ++ encode x
                       end) d)
      ++ "}"
  | PEllipsis | PComplex _ _ | PBytes _ => ""
  end.

(** [repr] of a character of a string quoted by [quote]. *)
Definition repr_char (quote c : ascii) : string :=
  let n := nat_of_ascii c in
  if (n =? 92)%nat then "\\"
  else if Ascii.eqb c quote then "\" ++ String c EmptyString
  else if (n =? 10)%nat then "\n"
  else if (n =? 13)%nat then "\r"
  else if (n =? 9)%nat then "\t"
  else if ((n <? 32) || ((126 <? n) && (n <? 161)) || (n =? 173))%nat then
    "\x" ++ hex_digit (n / 16) ++ hex_digit (n mod 16)
  else String c EmptyString.

Fixpoint contains_char (c : ascii) (s : string) : bool :=
  match s with
  | EmptyString => false
  | String c' s' => Ascii.eqb c c' || contains_char c s'
  end.

Definition repr_str (s : string) : string :=
  let quote :=
    if contains_char "'"%char s && negb (contains_char (ascii_of_nat 34) s)
    then ascii_of_nat 34 else "'"%char in
  String quote
    ((fix chars (s : string) : string :=
        match s with
        | EmptyString => String quote EmptyString
        | String c s' => repr_char quote c ++ chars s'
        end) s).

(** [repr] of a float: the text of [float_text], with Python's names
    for the infinities and for NaN. *)
Definition repr_float (f : spec_float) : string :=
  match f with
  | S754_infinity s => if s then "-inf" else "inf"
  | S754_nan => "nan"
  | _ => float_text f
  end.

(** [repr(v)]; empty on a complex number and on bytes. *)
Fixpoint repr (v : pyval) : string :=
  match v with
  | PNone => "None"
  | PEllipsis => "Ellipsis"
  | PBool b => if b then "True" else "False"
  | PInt z => decimal z
  | PFloat f => repr_float f
  | PStr s => repr_str s
  | PList l => "[" ++ String.concat ", " (map repr l) ++ "]"
  | PDict d =>
      "{" ++ String.concat ", "
               (map (fun kv =>
                       match kv with
                       | (k, x) => repr_str k ++ ": " ++ repr x
                       end) d)
      ++ "}"
  | PComplex _ _ | PBytes _ => ""
  end.

(** *** Console markup

    The tags of rich's markup, without escapes and with style names
    compared as written: [[name]] opens a tag, [[/name]] closes the
    nearest open tag of that name, [[/]] closes the last open tag. *)

(** The text of the tag that starts right after an opening bracket:
    a first character among [a-z # / @], then everything up to the
    first closing bracket, no opening bracket in between. *)
Fixpoint until_close (s : string) : option string :=
  match s with
  | EmptyString => None
  | String c s' =>
      if Ascii.eqb c "]"%char then Some EmptyString
      else if Ascii.eqb c "["%char then None
      else option_map (String c) (until_close s')
  end.

Definition tag_start (c : ascii) : bool :=
  let n := nat_of_ascii c in
  (((97 <=? n) && (n <=? 122)) || (n =? 35) || (n =? 47) || (n =? 64))%nat.

Definition tag_text (s : string) : option string :=
  match s with
  | String c _ => if tag_start c then until_close s else None
  | EmptyString => None
  end.

(** [text.partition("=")[0]] *)
Fixpoint before_equals (s : string) : string :=
  match s with
  | EmptyString => EmptyString
  | String c s' =>
      if Ascii.eqb c "="%char then EmptyString
      else String c (before_equals s')
  end.

(** Removes the nearest open tag called [name], if there is one; the
    stack has the last opened tag first. *)
Fixpoint pop_style (name : string) (stack : list string)
  : option (list string) :=
  match stack with
  | [] => None
  | t :: stack' =>
      if t =? name then Some stack'
      else option_map (cons t) (pop_style name stack')
  end.

Fixpoint render (s : string) (position : nat) (slashes : nat)
         (stack : list string) : outcome unit :=
  match s with
  | EmptyString => ret tt
  | String c s' =>
      if Ascii.eqb c "["%char && Nat.even slashes then
        match tag_text s' with
        | Some text =>
            match before_equals text with
            | String "/" closed =>
                match strip closed with
                | EmptyString =>
                    match stack with
                    | _ :: stack' => render s' (S position) 0 stack'
                    | [] =>
                        raise MarkupError
                          ("closing tag '[/]' at position "
                           ++ decimal (Z.of_nat position)
                           ++ " has nothing to close")
                    end
                | name =>
                    match pop_style name stack with
                    | Some stack' => render s' (S position) 0 stack'
                    | None =>
                        raise MarkupError
                          ("closing tag '[" ++ text ++ "]' at position "
                           ++ decimal (Z.of_nat position)
                           ++ " doesn't match any open tag")
                    end
                end
            | name => render s' (S position) 0 (strip name :: stack)
            end
        | None => render s' (S position) 0 stack
        end
      else
        render s' (S position)
               (if Ascii.eqb c "\"%char then S slashes else 0) stack
  end.

(** The host that answers the k-th request with the k-th response of
    [script], and with an empty stream after the script's end. *)
Definition scripted_host (script : list (list chunk)) : host :=
  {| json_loads := loads;
     json_encode := encode;
     ast_parse := parse;
     call_builtin := call;
     math_pi := S754_finite false 7074237752028440 (-51);
     math_e := S754_finite false 6121026514868073 (-51);
     py_repr := repr;
     recursion_budget := 990;
     comprehension_frames := 0;
     console_print := fun text => render text 0 0 [];
     create_chat := fun hist _ => ret (nth (chat_requests hist) script []);
     os_read_file := fun _ path =>
       ret [("path", path); ("content", PStr ""); ("size", PInt 0)];
     os_write_file := fun _ path _ =>
       ret [("path", path); ("status", PStr "created"); ("size", PInt 0)];
     os_list_directory := fun _ path =>
       ret [("path", path); ("count", PInt 0); ("entries", PList [])];
     os_run_command := fun _ command =>
       ret [("command", command); ("returncode", PInt 0);
            ("stdout", PStr "")];
     os_get_datetime := fun _ =>
       ret [("datetime", PStr "2026-01-01T00:00:00");
            ("date", PStr "2026-01-01"); ("time", PStr "00:00:00");
            ("day_of_week", PStr "Thursday"); ("week_number", PInt 1);
            ("timezone", PStr "UTC")] |}.

(** A streamed fragment that carries one tool-call delta. *)
Definition tool_chunk (idx : Z) (id name args : option string) : chunk :=
  {| choices :=
       [ {| choice_delta :=
              Some {| d_reasoning_content := None;
                      d_content := None;
                      d_tool_calls :=
                        Some [ {| tc_index := idx;
                                  tc_id := id;
                                  tc_function :=
                                    {| fn_name := name;
                                       fn_arguments := args |} |} ] |} |} ] |}.

Definition text_chunk (reason answer : option string) : chunk :=
  {| choices :=
       [ {| choice_delta :=
              Some {| d_reasoning_content := reason;
                      d_content := answer;
                      d_tool_calls := None |} |} ] |}.

(** The transcript [single_query] starts from (system instructions
    shortened). *)
Definition initial (query : string) : state :=
  {| messages :=
       [ [("role", PStr "system");
          ("content", PStr "You are a local AI assistant.")];
         [("role", PStr "user"); ("content", PStr query)] ];
     trace := [] |}.
End Scripted.

(** Inputs for the scripted host. *)
Module Examples.
Import Scripted.

(** A response whose tool-call indices first arrive in the order
    2, 0, 1. *)
Definition out_of_order : list chunk :=
  [ tool_chunk 2 (Some "call_c") (Some "get_datetime") None;
    tool_chunk 0 (Some "call_a") (Some "list_directory") None;
    tool_chunk 1 (Some "call_b") (Some "get_datetime") None ].

(** A response that asks for [read_file] without arguments. *)
Definition missing_path : list chunk :=
  [ tool_chunk 0 (Some "call_a") (Some "read_file") None ].

(** A response that asks for [calculate] with blank arguments, then
    for [get_datetime]. *)
Definition missing_expression : list chunk :=
  [ tool_chunk 0 (Some "call_a") (Some "calculate") (Some "  ");
    tool_chunk 1 (Some "call_b") (Some "get_datetime") None ].

(** A response with reasoning and an answer in two slices. *)
Definition final_answer : list chunk :=
  [ text_chunk (Some "hm") None;
    text_chunk None (Some "Done");
    text_chunk None (Some ".") ].

(** A response that asks for [list_directory] with blank arguments,
    then for [get_datetime]. *)
Definition list_then_time : list chunk :=
  [ tool_chunk 0 (Some "call_d") (Some "list_directory") (Some "  ");
    tool_chunk 1 (Some "call_e") (Some "get_datetime") None ].

Definition bad_arguments : tool_call :=
  {| tool_id := Some "call_b";
     tool_function := {| function_name := "read_file";
                         function_arguments := "{bad" |} |}.

Definition blank_arguments : tool_call :=
  {| tool_id := Some "call_a";
     tool_function := {| function_name := "list_directory";
                         function_arguments := "  " |} |}.

(** An invocation whose argument text is a tab, a line feed, a unit
    separator, a no-break space and a space. *)
Definition mixed_blank_arguments : tool_call :=
  {| tool_id := Some "call_a";
     tool_function :=
       {| function_name := "get_datetime";
          function_arguments :=
            String (ascii_of_nat 9)
              (String (ascii_of_nat 10)
                 (String (ascii_of_nat 31)
                    (String (ascii_of_nat 160) " "))) |} |}.

Definition blank_calculate : tool_call :=
  {| tool_id := Some "call_a";
     tool_function := {| function_name := "calculate";
                         function_arguments := "  " |} |}.

Definition missing_expression_error : exn :=
  mk_exn TypeError
         "calculate() missing 1 required positional argument: 'expression'".

Definition missing_path_error : exn :=
  mk_exn TypeError
         "read_file() missing 1 required positional argument: 'path'".

(** A response that asks for [read_file] with a JSON list as
    arguments, then for [get_datetime]. *)
Definition list_as_arguments : list chunk :=
  [ tool_chunk 0 (Some "call_a") (Some "read_file") (Some "[1, 2]");
    tool_chunk 1 (Some "call_b") (Some "get_datetime") None ].

Definition no_items_error : exn :=
  mk_exn AttributeError "'list' object has no attribute 'items'".

Definition start : state := initial "hi".
End Examples.

(* ================================================================= *)
(** ** Vocabulary of the statements *)

Fixpoint concat_all (l : list string) : string :=
  match l with
  | [] => ""
  | s :: l' => s ++ concat_all l'
  end.

(** The delta the streaming loop reads from a fragment. *)
Definition chunk_delta (c : chunk) : option delta :=
  match choices c with
  | [] => None
  | ch :: _ => choice_delta ch
  end.

Definition reasoning_slice (c : chunk) : string :=
  match chunk_delta c with
  | Some d => or_empty (d_reasoning_content d)
  | None => ""
  end.

Definition answer_slice (c : chunk) : string :=
  match chunk_delta c with
  | Some d => or_empty (d_content d)
  | None => ""
  end.

Definition chunk_tool_deltas (c : chunk) : list tool_call_delta :=
  match chunk_delta c with
  | Some d => match d_tool_calls d with Some l => l | None => [] end
  | None => []
  end.

(** All tool-call deltas of a response, in arrival order. *)
Definition tool_deltas (response : list chunk) : list tool_call_delta :=
  flat_map chunk_tool_deltas response.

Definition with_index (idx : Z) (ds : list tool_call_delta)
  : list tool_call_delta :=
  filter (fun tc => Z.eqb idx (tc_index tc)) ds.

Definition arguments_slice (tc : tool_call_delta) : string :=
  or_empty (fn_arguments (tc_function tc)).

(** The invocation the deltas [ds] describe for index [idx]: identifier
    and name of the first delta, argument slices of all of them. *)
Definition assembled (idx : Z) (ds : list tool_call_delta)
  : option tool_call :=
  match with_index idx ds with
  | [] => None
  | d :: rest =>
      Some {| tool_id := tc_id d;
              tool_function :=
                {| function_name := or_empty (fn_name (tc_function d));
                   function_arguments :=
                     concat_all (map arguments_slice (d :: rest)) |} |}
  end.

(** The invariant of the loop over the tool-call deltas: the dictionary
    holds what the deltas seen so far assemble to. *)
Definition assembles (calls : list (Z * tool_call))
           (ds : list tool_call_delta) : Prop :=
  forall idx, dict_get Z.eqb idx calls = assembled idx ds.

(** The invocations met by the dispatch loop over [idxs]. *)
Definition lookup_calls (calls : list (Z * tool_call)) (idxs : list Z)
  : list (Z * tool_call) :=
  flat_map (fun idx =>
              match dict_get Z.eqb idx calls with
              | Some tc => [(idx, tc)]
              | None => []
              end) idxs.

(** The invocations in the order of the dispatch loop. *)
Definition ordered_calls (calls : list (Z * tool_call))
  : list (Z * tool_call) :=
  lookup_calls calls (sorted (dict_keys calls)).

(** [m] is a tool message that answers the invocation [p]: its role
    is ["tool"], it carries the identifier of the invocation, and its
    content is a text. *)
Definition answers (p : Z * tool_call) (m : message) : Prop :=
  exists text,
    m = [ ("role", PStr "tool");
          ("tool_call_id", opt_str (tool_id (snd p)));
          ("content", PStr text) ].

(** The tool the dispatch loop calls for an invocation, if any, once
    it gets to the call. *)
Definition dispatch_event (H : host) (tc : tool_call) : list event :=
  match parse_arguments H (function_arguments (tool_function tc)) with
  | Returned (PDict kwargs) =>
      if dict_contains String.eqb (function_name (tool_function tc))
                       (FUNCTION_MAP H)
      then [ToolCall (function_name (tool_function tc)) kwargs]
      else []
  | _ => []
  end.

(** The lines printed about an invocation before its tool is called:
    its name, and its arguments when it has any. *)
Definition announce (H : host) (func_name : string) (kwargs : payload)
  : outcome unit :=
  OutcomeMonad.bind (print_call H func_name)
                    (fun _ => print_arguments H kwargs).

(** The state in which the dispatch loop of a turn starts: the request
    was sent and the assistant message appended. *)
Definition dispatching (st : state) (a : aggregation) : state :=
  {| messages := messages st ++ [assistant_msg a];
     trace := trace st ++ [ChatRequest (messages st)] |}.

(** The state after [k] rounds of [stream_agent_turn]. *)
Fixpoint after_rounds (H : host) (k : nat) (s : state) : state :=
  match k with
  | O => s
  | S k' => after_rounds H k' (snd (stream_agent_turn H s))
  end.

(** [messages[-1].get("content", "")] *)
Definition last_content (s : state) : pyval :=
  dict_get_default "content" (PStr "") (last (messages s) []).

(** *** Expressions

    The expressions the evaluator is meant for, after the words of the
    specification: numeric literals (integer or floating point), the
    named constants [pi] and [e], the binary operators [+ - * / ** %],
    unary [+] and [-], and calls of the functions [sin cos tan asin
    acos atan sqrt log log10 exp pow abs floor ceil round].  These
    tables are written out from the specification, not read from
    [SAFE_OPERATORS], [SAFE_FUNCTIONS] and [SAFE_CONSTANTS].
    [evaluates H n v] says that [n] is made of these only and that its
    arithmetic yields [v]. *)









(** The frames the evaluation of a tree needs under the recursion
    limit: one for each level of nesting, and those of the list
    comprehension at each call. *)
Fixpoint frames_needed (H : host) (n : node) : nat :=
  match n with
  | BinOp lhs _ rhs => S (Nat.max (frames_needed H lhs) (frames_needed H rhs))
  | UnaryOp _ operand => S (frames_needed H operand)
  | Call _ args _ =>
      S (comprehension_frames H
         + fold_right (fun a m => Nat.max (frames_needed H a) m) 0 args)
  | Expression body => S (frames_needed H body)
  | Constant _ | Name _ | OtherNode _ _ => 1
  end.





(** A call target on the allow-list of the code. *)
Definition allowed_target (func : node) : bool :=
  match func with
  | Name id => dict_contains String.eqb id SAFE_FUNCTIONS
  | _ => false
  end.

(* ================================================================= *)
(** ** The allow-list, as a check on a tree *)

(** [permitted H n]: every node that [safe_eval_node] visits in [n] is
    on the allow-list.  Keyword arguments of a call and the target of a
    call are not visited. *)
Fixpoint permitted (H : host) (n : node) : bool :=
  match n with
  | Constant value => is_int_or_float value
  | Name id => dict_contains String.eqb id (SAFE_CONSTANTS H)
  | BinOp lhs op rhs =>
      dict_contains op_class_beq op SAFE_OPERATORS
      && permitted H lhs && permitted H rhs
  | UnaryOp op operand =>
      dict_contains op_class_beq op SAFE_OPERATORS && permitted H operand
  | Call func args _ =>
      allowed_target func && forallb (permitted H) args
  | Expression body => permitted H body
  | OtherNode _ _ => false
  end.

(* ================================================================= *)
(** ** Tool definitions (the schemas sent to the remote service) *)

Definition string_property (description : string) : pyval :=
  PDict [("type", PStr "string"); ("description", PStr description)].

Definition TOOLS : list pyval :=
  [ PDict
      [ ("type", PStr "function");
        ("function",
         PDict
           [ ("name", PStr "read_file");
             ("description",
              PStr "Read a file from the local filesystem. Returns file content as text.");
             ("parameters",
              PDict
                [ ("type", PStr "object");
                  ("properties",
                   PDict [ ("path",
                            string_property "Absolute or relative file path") ]);
                  ("required", PList [PStr "path"]) ]) ]) ];
    PDict
      [ ("type", PStr "function");
        ("function",
         PDict
           [ ("name", PStr "write_file");
             ("description",
              PStr "Write content to a file. Creates parent directories if needed.");
             ("parameters",
              PDict
                [ ("type", PStr "object");
                  ("properties",
                   PDict [ ("path", string_property "File path to write to");
                           ("content", string_property "Content to write") ]);
                  ("required", PList [PStr "path"; PStr "content"]) ]) ]) ];
    PDict
      [ ("type", PStr "function");
        ("function",
         PDict
           [ ("name", PStr "list_directory");
             ("description",
              PStr "List files and subdirectories in a directory with sizes.");
             ("parameters",
              PDict
                [ ("type", PStr "object");
                  ("properties",
                   PDict [ ("path",
                            string_property
                              "Directory path (default: current directory)") ])
                ]) ]) ];
    PDict
      [ ("type", PStr "function");
        ("function",
         PDict
           [ ("name", PStr "run_command");
             ("description",
              PStr "Run a shell command and return stdout/stderr. 30s timeout, 10KB output limit.");
             ("parameters",
              PDict
                [ ("type", PStr "object");
                  ("properties",
                   PDict [ ("command",
                            string_property "Shell command to execute") ]);
                  ("required", PList [PStr "command"]) ]) ]) ];
    PDict
      [ ("type", PStr "function");
        ("function",
         PDict
           [ ("name", PStr "calculate");
             ("description",
              PStr "Evaluate a math expression. Supports +, -, *, /, **, % and functions: sin, cos, tan, sqrt, log, exp, abs, floor, ceil, round. Constants: pi, e.");
             ("parameters",
              PDict
                [ ("type", PStr "object");
                  ("properties",
                   PDict [ ("expression",
                            string_property
                              "Math expression, e.g. 'sqrt(16) + 5 * 2'") ]);
                  ("required", PList [PStr "expression"]) ]) ]) ];
    PDict
      [ ("type", PStr "function");
        ("function",
         PDict
           [ ("name", PStr "get_datetime");
             ("description",
              PStr "Get current date, time, day of week, and week number.");
             ("parameters",
              PDict [ ("type", PStr "object"); ("properties", PDict []) ]) ]) ]
  ].

(** [v[k]] when [v] is a dictionary that has the key. *)
Definition pget (k : string) (v : pyval) : option pyval :=
  match v with
  | PDict d => sget k d
  | _ => None
  end.

Definition schema_parameters (tool : pyval) : option pyval :=
  match pget "function" tool with
  | Some f => pget "parameters" f
  | None => None
  end.

(** [tool["function"]["name"]] *)
Definition schema_name (tool : pyval) : option string :=
  match pget "function" tool with
  | Some f => match pget "name" f with
              | Some (PStr s) => Some s
              | _ => None
              end
  | None => None
  end.

(** The names declared under ["properties"]. *)
Definition schema_properties (tool : pyval) : list string :=
  match schema_parameters tool with
  | Some p => match pget "properties" p with
              | Some (PDict d) => dict_keys d
              | _ => []
              end
  | None => []
  end.

(** The names listed under ["required"]; none when the key is missing. *)
Definition schema_required (tool : pyval) : list string :=
  match schema_parameters tool with
  | Some p =>
      match pget "required" p with
      | Some (PList l) =>
          flat_map (fun v => match v with PStr s => [s] | _ => [] end) l
      | _ => []
      end
  | None => []
  end.

(** [kwargs] fits the schema as far as names go: every key is a
    declared property and every required property is present.  (The
    declared types are not looked at.) *)
Definition schema_accepts (tool : pyval) (kwargs : payload) : bool :=
  forallb (fun kv => existsb (String.eqb (fst kv)) (schema_properties tool))
          kwargs
  && forallb (fun r => dict_contains String.eqb r kwargs)
             (schema_required tool).

(** [bind_arguments] succeeds on [kwargs]: no keyword outside [params],
    no parameter without default left out. *)
Definition binds (params : list (string * option pyval)) (kwargs : payload)
  : bool :=
  forallb (fun kv => dict_contains String.eqb (fst kv) params) kwargs
  && forallb (fun p => match snd p with
                       | None => dict_contains String.eqb (fst p) kwargs
                       | Some _ => true
                       end) params.

(* ================================================================= *)
(** ** Tool bodies over the operating system

    The [try] suites of [run_command], [read_file] and [list_directory]
    written out over the calls they make to [subprocess] and [pathlib]
    ([os_ops]); [with_os] plugs them into a host.  Paths are compared as
    on POSIX, by code point. *)

Definition MAX_FILE_SIZE : Z := 100 * 1024.
Definition MAX_OUTPUT_SIZE : Z := 10 * 1024.

(** What [subprocess.run(..., capture_output=True, text=True)]
    returns. *)
Record completed_process : Type := mk_completed_process {
  cp_returncode : Z;
  cp_stdout : option string;
  cp_stderr : option string
}.

(** What [p.read_text(encoding="utf-8")] does: it returns the text,
    raises [UnicodeDecodeError], or raises something else. *)
Inductive read_result : Type :=
  | Decoded (content : string)
  | NotUtf8
  | ReadRaised (e : exn).

(** An entry yielded by [p.iterdir()], with what [is_dir()],
    [is_file()] and [stat().st_size] answer for it. *)
Record dir_item : Type := mk_dir_item {
  item_name : string;
  item_is_dir : outcome bool;
  item_is_file : outcome bool;
  item_size : outcome Z
}.

Record os_ops : Type := mk_os_ops {
  (** [str(Path(path).expanduser().resolve())] *)
  resolve : list event -> pyval -> outcome string;
  path_exists : list event -> string -> outcome bool;
  path_is_file : list event -> string -> outcome bool;
  path_is_dir : list event -> string -> outcome bool;
  st_size : list event -> string -> outcome Z;
  read_text : list event -> string -> read_result;
  iterdir : list event -> string -> outcome (list dir_item);
  subprocess_run : list event -> pyval -> outcome completed_process
}.

Section Suites.
Variable O : os_ops.
Import OutcomeMonad.
Local Open Scope outcome_scope.

Definition error_payload (msg : string) : payload := [("error", PStr msg)].

(** The [try] suite of [read_file]. *)
Definition read_file_suite (hist : list event) (path : pyval)
  : outcome payload :=
  p <- resolve O hist path ;;
  found <- path_exists O hist p ;;
  if negb found then ret (error_payload ("File not found: " ++ p)) else
  regular <- path_is_file O hist p ;;
  if negb regular then ret (error_payload ("Not a file: " ++ p)) else
  size <- st_size O hist p ;;
  if (MAX_FILE_SIZE <? size)%Z then
    size' <- st_size O hist p ;;
    ret (error_payload
           ("File too large (" ++ str_int size' ++ " bytes, max "
            ++ str_int MAX_FILE_SIZE ++ ")"))
  else
    match read_text O hist p with
    | Decoded content =>
        ret [("path", PStr p); ("content", PStr content);
             ("size", PInt (py_len content))]
    | NotUtf8 =>
        ret (error_payload ("Binary file, cannot read as text: " ++ p))
    | ReadRaised e => Raised e
    end.

(** [sorted(p.iterdir())]: siblings are ordered by name. *)
Fixpoint insert_item (x : dir_item) (l : list dir_item) : list dir_item :=
  match l with
  | [] => [x]
  | y :: l' =>
      if String.leb (item_name x) (item_name y) then x :: l
      else y :: insert_item x l'
  end.

Fixpoint sorted_items (l : list dir_item) : list dir_item :=
  match l with
  | [] => []
  | x :: l' => insert_item x (sorted_items l')
  end.

(** Body of [for item in sorted(p.iterdir())]. *)
Definition directory_entry (item : dir_item) : outcome pyval :=
  is_dir <- item_is_dir item ;;
  let entry := [("name", PStr (item_name item));
                ("type", PStr (if is_dir : bool then "dir" else "file"))] in
  is_file <- item_is_file item ;;
  if is_file : bool then
    size <- item_size item ;;
    ret (PDict (sset "size" (PInt size) entry))
  else ret (PDict entry).

Fixpoint directory_entries (items : list dir_item) : outcome (list pyval) :=
  match items with
  | [] => ret []
  | item :: rest =>
      entry <- directory_entry item ;;
      entries <- directory_entries rest ;;
      ret (entry :: entries)
  end.

(** The [try] suite of [list_directory]. *)
Definition list_directory_suite (hist : list event) (path : pyval)
  : outcome payload :=
  p <- resolve O hist path ;;
  found <- path_exists O hist p ;;
  if negb found then ret (error_payload ("Directory not found: " ++ p)) else
  is_dir <- path_is_dir O hist p ;;
  if negb is_dir then ret (error_payload ("Not a directory: " ++ p)) else
  items <- iterdir O hist p ;;
  entries <- directory_entries (sorted_items items) ;;
  ret [("path", PStr p);
       ("count", PInt (Z.of_nat (List.length entries)));
       ("entries", PList entries)].

(** [stream[:MAX_OUTPUT_SIZE] if stream else ""] *)
Definition captured (stream : option string) : string :=
  if truthy stream then slice_to (Z.to_nat MAX_OUTPUT_SIZE) (or_empty stream)
  else "".

(** The [try] suite of [run_command]. *)
Definition run_command_suite (hist : list event) (command : pyval)
  : outcome payload :=
  result <- subprocess_run O hist command ;;
  let stdout := captured (cp_stdout result) in
  let stderr := captured (cp_stderr result) in
  let truncated :=
    (MAX_OUTPUT_SIZE <? py_len (or_empty (cp_stdout result)))%Z
    || (MAX_OUTPUT_SIZE <? py_len (or_empty (cp_stderr result)))%Z in
  let resp := [("command", command);
               ("returncode", PInt (cp_returncode result));
               ("stdout", PStr stdout)] in
  let resp := if nonempty stderr then sset "stderr" (PStr stderr) resp
              else resp in
  let resp := if truncated then sset "truncated" (PBool true) resp
              else resp in
  ret resp.

(** The host [H] with these three suites as its tool bodies. *)
Definition with_os (H : host) : host :=
  {| json_loads := json_loads H;
     json_encode := json_encode H;
     ast_parse := ast_parse H;
     call_builtin := call_builtin H;
     math_pi := math_pi H;
     math_e := math_e H;
     py_repr := py_repr H;
     recursion_budget := recursion_budget H;
     comprehension_frames := comprehension_frames H;
     console_print := console_print H;
     create_chat := create_chat H;
     os_read_file := read_file_suite;
     os_write_file := os_write_file H;
     os_list_directory := list_directory_suite;
     os_run_command := run_command_suite;
     os_get_datetime := os_get_datetime H |}.

End Suites.

(* ================================================================= *)
(** ** More vocabulary for the streaming loop *)

(** The distinct elements of [l] in the order of their first
    occurrence. *)
Definition see (seen : list Z) (x : Z) : list Z :=
  if existsb (Z.eqb x) seen then seen else (seen ++ [x])%list.

Definition first_seen (l : list Z) : list Z := fold_left see l [].

(** A fragment that carries nothing: no choice, no delta, or a delta
    without text and without tool-call delta. *)
Definition silent (c : chunk) : bool :=
  negb (nonempty (reasoning_slice c))
  && negb (nonempty (answer_slice c))
  && match chunk_tool_deltas c with [] => true | _ :: _ => false end.

(** The names registered in [FUNCTION_MAP]. *)
Definition registered : list string :=
  ["read_file"; "write_file"; "list_directory"; "run_command";
   "calculate"; "get_datetime"].

(* ================================================================= *)
(** ** REPL and CLI

    [get_client] and [print_error] come from [utils.client], which is
    not among the sources: they are parameters.  The client that
    [get_client] returns is the host of the session.  The banners and
    the prompt are fixed texts; the queries of [demo] are fixed texts
    without a bracket.  The lines typed at the
    prompt of [repl] are a list; its end is the end of input
    ([EOFError] or an interrupt at the prompt).  [SYSTEM_PROMPT] holds a
    character outside the code points of [string] and is a parameter
    too. *)

(** [c.lower()] for a code point below 256. *)
Definition lower_char (c : ascii) : ascii :=
  let n := nat_of_ascii c in
  if (((65 <=? n) && (n <=? 90))
      || ((192 <=? n) && (n <=? 222) && negb (n =? 215)))%nat
  then ascii_of_nat (n + 32)
  else c.

Fixpoint lower (s : string) : string :=
  match s with
  | EmptyString => EmptyString
  | String c s' => String (lower_char c) (lower s')
  end.

(** [messages = l] for the list the caller works on. *)
Definition reset_messages (l : list message) : M unit :=
  fun s => (Returned tt, {| messages := l; trace := trace s |}).

Definition user_message (text : string) : message :=
  [("role", PStr "user"); ("content", PStr text)].

Definition demo_queries : list string :=
  [ "What files are in the current directory? Summarize the project structure.";
    "Read the config.py file and tell me which models are configured.";
    "What's the current date and time? Calculate how many days until the end of the year." ].

Section Callers.
Variable SYSTEM_PROMPT : string.
Variable get_client : outcome host.
Variable print_error : exn -> string -> outcome unit.
Import StateMonad.
Local Open Scope state_scope.

Definition system_message : message :=
  [("role", PStr "system"); ("content", PStr SYSTEM_PROMPT)].

(** [try: body  except Exception as e: print_error(e, context)] *)
Definition reporting {A} (context : string) (body : M A) : M unit :=
  fun s =>
    match body s with
    | (Returned _, s') => (Returned tt, s')
    | (Raised e, s') =>
        if isinstance e Exception then (print_error e context, s')
        else (Raised e, s')
    end.

(** [try: client = get_client()  except Exception as e: print_error(...);
    return], followed by [body client]. *)
Definition with_client (body : host -> M unit) : M unit :=
  fun s =>
    match get_client with
    | Returned client => body client s
    | Raised e =>
        if isinstance e Exception
        then (print_error e "Failed to initialize client", s)
        else (Raised e, s)
    end.

(** [console.print(f"[bold green]Query:[/bold green] {query}\n")] *)
Definition print_query (client : host) (query : string) : outcome unit :=
  console_print client
    ("[bold green]Query:[/bold green] " ++ query ++ nl).

Definition single_query (query : string) : M unit :=
  with_client (fun client =>
    reset_messages [system_message; user_message query] ;;;
    lift (print_query client query) ;;;
    reporting "Agent error" (agent_turn client default_max_iterations)).

(** Body of [for i, query in enumerate(queries, 1)]. *)
Fixpoint demo_loop (client : host) (i : nat) (queries : list string)
  : M unit :=
  match queries with
  | [] => ret tt
  | query :: rest =>
      reset_messages [system_message; user_message query] ;;;
      reporting ("Demo " ++ str_int (Z.of_nat i) ++ " failed")
                (agent_turn client default_max_iterations) ;;;
      demo_loop client (S i) rest
  end.

Definition demo : M unit :=
  with_client (fun client => demo_loop client 1 demo_queries).

Definition is_quit (user_input : string) : bool :=
  (lower user_input =? "quit") || (lower user_input =? "exit").

Definition is_clear (user_input : string) : bool :=
  lower user_input =? "clear".

(** [try: agent_turn(...)  except KeyboardInterrupt: ...
    except Exception as e: print_error(e, "Agent error")] *)
Definition repl_turn (client : host) : M unit :=
  fun s =>
    match agent_turn client default_max_iterations s with
    | (Returned _, s') => (Returned tt, s')
    | (Raised e, s') =>
        if isinstance e KeyboardInterrupt then (Returned tt, s')
        else if isinstance e Exception
             then (print_error e "Agent error", s')
        else (Raised e, s')
    end.

(** The [while True] loop of [repl] over the lines typed. *)
Fixpoint repl_loop (client : host) (lines : list string) : M unit :=
  match lines with
  | [] => ret tt
  | line :: rest =>
      let user_input := strip line in
      if negb (nonempty user_input) then repl_loop client rest
      else if is_quit user_input then ret tt
      else if is_clear user_input then
        reset_messages [system_message] ;;;
        repl_loop client rest
      else
        append (user_message user_input) ;;;
        repl_turn client ;;;
        repl_loop client rest
  end.

Definition repl (lines : list string) : M unit :=
  with_client (fun client =>
    reset_messages [system_message] ;;;
    repl_loop client lines).

End Callers.

(* ================================================================= *)
(** ** Vocabulary for the directory listing *)

(** [entry] is the listing entry of [item]: its name, ["dir"] when it
    is a directory and ["file"] otherwise, and its size when (and only
    when) it is a regular file. *)
Definition describes (item : dir_item) (entry : pyval) : Prop :=
  exists is_dir is_file : bool,
    item_is_dir item = Returned is_dir
    /\ item_is_file item = Returned is_file
    /\ pget "name" entry = Some (PStr (item_name item))
    /\ pget "type" entry = Some (PStr (if is_dir then "dir" else "file"))
    /\ if is_file
       then exists size, item_size item = Returned size
                         /\ pget "size" entry = Some (PInt size)
       else pget "size" entry = None.

Definition name_le (a b : dir_item) : Prop :=
  String.leb (item_name a) (item_name b) = true.

(* ================================================================= *)
(** ** More inputs for the scripted host *)

Module MoreExamples.
Import Scripted Examples.

Definition sqrt_expression : node :=
  BinOp (Call (Name "sqrt") [int_node 16] []) Add
        (BinOp (int_node 5) Mult (int_node 2)).

Definition fourteen : pyval :=
  PFloat (S754_finite false 7881299347898368 (-49)).

(** A small file system: a directory [/tmp] with a text file, a large
    binary file and a sub-directory; and two commands. *)
Fixpoint many (n : nat) (c : ascii) : string :=
  match n with
  | O => EmptyString
  | S n' => String c (many n' c)
  end.

Definition long_output : string := many (Z.to_nat 10241) "a"%char.

Definition tmp_items : list dir_item :=
  [ {| item_name := "notes.txt"; item_is_dir := Returned false;
       item_is_file := Returned true; item_size := Returned 5%Z |};
    {| item_name := "cache"; item_is_dir := Returned true;
       item_is_file := Returned false;
       item_size := Returned 4096%Z |};
    {| item_name := "big.bin"; item_is_dir := Returned false;
       item_is_file := Returned true; item_size := Returned 200000%Z |} ].

Definition disk : os_ops :=
  {| resolve := fun _ path =>
       match path with
       | PStr s => Returned s
       | _ => OutcomeMonad.raise TypeError
                "expected str, bytes or os.PathLike object"
       end;
     path_exists := fun _ p =>
       Returned ((p =? "/tmp") || (p =? "/tmp/notes.txt")
                 || (p =? "/tmp/big.bin") || (p =? "/tmp/cache"));
     path_is_file := fun _ p =>
       Returned ((p =? "/tmp/notes.txt") || (p =? "/tmp/big.bin"));
     path_is_dir := fun _ p => Returned ((p =? "/tmp") || (p =? "/tmp/cache"));
     st_size := fun _ p =>
       Returned (if p =? "/tmp/notes.txt" then 5%Z
                 else if p =? "/tmp/big.bin" then 200000%Z else 4096%Z);
     read_text := fun _ p =>
       if p =? "/tmp/notes.txt" then Decoded "hello" else NotUtf8;
     iterdir := fun _ p =>
       if p =? "/tmp" then Returned tmp_items else Returned [];
     subprocess_run := fun _ command =>
       match command with
       | PStr "yes" =>
           Returned {| cp_returncode := 0; cp_stdout := Some long_output;
                       cp_stderr := Some "" |}
       | _ =>
           Returned {| cp_returncode := 0; cp_stdout := Some "hi";
                       cp_stderr := Some "" |}
       end |}.

Definition yes_payload : payload :=
  [ ("command", PStr "yes"); ("returncode", PInt 0);
    ("stdout", PStr (many (Z.to_nat 10240) "a"%char));
    ("truncated", PBool true) ].

Definition notes_payload : payload :=
  [ ("path", PStr "/tmp/notes.txt"); ("content", PStr "hello");
    ("size", PInt 5) ].

Definition tmp_entries : list pyval :=
  [ PDict [("name", PStr "big.bin"); ("type", PStr "file");
           ("size", PInt 200000)];
    PDict [("name", PStr "cache"); ("type", PStr "dir")];
    PDict [("name", PStr "notes.txt"); ("type", PStr "file");
           ("size", PInt 5)] ].

Definition tmp_payload : payload :=
  [ ("path", PStr "/tmp"); ("count", PInt 3); ("entries", PList tmp_entries) ].

Definition unknown_call : tool_call :=
  {| tool_id := Some "call_a";
     tool_function := {| function_name := "delete_file";
                         function_arguments := "{}" |} |}.

(** An invocation whose name holds a closing tag of the console
    markup. *)
Definition closing_tag_call : tool_call :=
  {| tool_id := Some "call_a";
     tool_function := {| function_name := "[/]";
                         function_arguments := "{}" |} |}.

Definition closing_tag_error : exn :=
  mk_exn MarkupError
         "closing tag '[/cyan]' at position 12 doesn't match any open tag".

Definition closing_tag_in_query : exn :=
  mk_exn MarkupError
         "closing tag '[/etc]' at position 32 doesn't match any open tag".

Definition list_arguments : tool_call :=
  {| tool_id := Some "call_a";
     tool_function := {| function_name := "read_file";
                         function_arguments := "[1, 2]" |} |}.

(** [(-1) ** 0.5] is a complex number. *)
Definition half : spec_float := S754_finite false 4503599627370496 (-53).

Definition root_of_minus_one : pyval :=
  PComplex (S754_finite false 4967757600021511 (-106))
           (S754_finite false 4503599627370496 (-52)).

Definition complex_arguments : string :=
  "{" ++ dq ++ "expression" ++ dq ++ ": " ++ dq ++ "(-1) ** 0.5" ++ dq ++ "}".

Definition complex_host : host :=
  let h := scripted_host [] in
  {| json_loads := fun s =>
       if s =? complex_arguments
       then Returned (PDict [("expression", PStr "(-1) ** 0.5")])
       else json_loads h s;
     json_encode := json_encode h;
     ast_parse := fun source =>
       match source with
       | PStr "(-1) ** 0.5" =>
           Returned (Expression
                       (BinOp (UnaryOp USub (int_node 1)) Pow
                              (Constant (PFloat half))))
       | _ => ast_parse h source
       end;
     call_builtin := fun f args =>
       match f, args with
       | operator_pow, [PInt (-1); PFloat (S754_finite false
                                             4503599627370496 (-53))] =>
           Returned root_of_minus_one
       | _, _ => call_builtin h f args
       end;
     math_pi := math_pi h;
     math_e := math_e h;
     py_repr := py_repr h;
     recursion_budget := recursion_budget h;
     comprehension_frames := comprehension_frames h;
     console_print := console_print h;
     create_chat := create_chat h;
     os_read_file := os_read_file h;
     os_write_file := os_write_file h;
     os_list_directory := os_list_directory h;
     os_run_command := os_run_command h;
     os_get_datetime := os_get_datetime h |}.

(** [10 ** 4300] has 4301 digits. *)
Definition power_arguments : string :=
  "{" ++ dq ++ "expression" ++ dq ++ ": " ++ dq ++ "10 ** 4300" ++ dq ++ "}".

Definition power_host : host :=
  let h := scripted_host [] in
  {| json_loads := fun s =>
       if s =? power_arguments
       then Returned (PDict [("expression", PStr "10 ** 4300")])
       else json_loads h s;
     json_encode := json_encode h;
     ast_parse := fun source =>
       match source with
       | PStr "10 ** 4300" =>
           Returned (Expression (BinOp (int_node 10) Pow (int_node 4300)))
       | _ => ast_parse h source
       end;
     call_builtin := call_builtin h;
     math_pi := math_pi h;
     math_e := math_e h;
     py_repr := py_repr h;
     recursion_budget := recursion_budget h;
     comprehension_frames := comprehension_frames h;
     console_print := console_print h;
     create_chat := create_chat h;
     os_read_file := os_read_file h;
     os_write_file := os_write_file h;
     os_list_directory := os_list_directory h;
     os_run_command := os_run_command h;
     os_get_datetime := os_get_datetime h |}.

Definition power_call : tool_call :=
  {| tool_id := Some "call_a";
     tool_function := {| function_name := "calculate";
                         function_arguments := power_arguments |} |}.

Definition too_long : exn :=
  mk_exn ValueError
         "Exceeds the limit (4300 digits) for integer string conversion; use sys.set_int_max_str_digits() to increase the limit".

(** An interpreter that is three frames short of its recursion limit
    where [calculate] starts. *)
Definition shallow_host : host :=
  let h := scripted_host [] in
  {| json_loads := json_loads h;
     json_encode := json_encode h;
     ast_parse := ast_parse h;
     call_builtin := call_builtin h;
     math_pi := math_pi h;
     math_e := math_e h;
     py_repr := py_repr h;
     recursion_budget := 3;
     comprehension_frames := 1;
     console_print := console_print h;
     create_chat := create_chat h;
     os_read_file := os_read_file h;
     os_write_file := os_write_file h;
     os_list_directory := os_list_directory h;
     os_run_command := os_run_command h;
     os_get_datetime := os_get_datetime h |}.

Definition complex_call : tool_call :=
  {| tool_id := Some "call_a";
     tool_function := {| function_name := "calculate";
                         function_arguments := complex_arguments |} |}.

Definition complex_result : payload :=
  [("expression", PStr "(-1) ** 0.5"); ("result", root_of_minus_one)].

(** A remote service that cannot be reached. *)
Definition unreachable : exn := mk_exn OSError "Connection refused".

Definition offline_host : host :=
  let h := scripted_host [] in
  {| json_loads := json_loads h;
     json_encode := json_encode h;
     ast_parse := ast_parse h;
     call_builtin := call_builtin h;
     math_pi := math_pi h;
     math_e := math_e h;
     py_repr := py_repr h;
     recursion_budget := recursion_budget h;
     comprehension_frames := comprehension_frames h;
     console_print := console_print h;
     create_chat := fun _ _ => Raised unreachable;
     os_read_file := os_read_file h;
     os_write_file := os_write_file h;
     os_list_directory := os_list_directory h;
     os_run_command := os_run_command h;
     os_get_datetime := os_get_datetime h |}.

Definition prompt : string := "You are a local AI assistant.".

Definition quiet (e : exn) (context : string) : outcome unit := Returned tt.

Definition no_key : exn := mk_exn ValueError "API key is not set".

End MoreExamples.

(* ================================================================= *)
(** ** Strings and dictionaries *)

Open Scope list_scope.

Lemma append_empty_r (s : string) : (s ++ "")%string = s.
Proof. induction s as [|c s IH]; simpl; [reflexivity | now rewrite IH]. Qed.

Lemma append_assoc (a b c : string) :
  ((a ++ b) ++ c)%string = (a ++ (b ++ c))%string.
Proof. induction a as [|x a IH]; simpl; [reflexivity | now rewrite IH]. Qed.

Lemma concat_all_app (l1 l2 : list string) :
  concat_all (l1 ++ l2) = (concat_all l1 ++ concat_all l2)%string.
Proof.
  induction l1 as [|s l1 IH]; simpl; [reflexivity|].
  now rewrite IH, append_assoc.
Qed.

Lemma truthy_false_or_empty (o : option string) :
  truthy o = false -> or_empty o = "".
Proof. destruct o as [[|c s]|]; simpl; intros; congruence. Qed.

Section DictFacts.
Context {V : Type}.
Implicit Types (d : list (Z * V)) (k : Z) (v : V).

Lemma dict_get_set_same d k v :
  dict_get Z.eqb k (dict_set Z.eqb k v d) = Some v.
Proof.
  induction d as [|[k' v'] d IH]; simpl.
  - now rewrite Z.eqb_refl.
  - destruct (Z.eqb_spec k k') as [->|Hne]; simpl.
    + now rewrite Z.eqb_refl.
    + destruct (Z.eqb_spec k k'); [contradiction | exact IH].
Qed.

Lemma dict_get_set_other d k k' v :
  k' <> k ->
  dict_get Z.eqb k' (dict_set Z.eqb k v d) = dict_get Z.eqb k' d.
Proof.
  intros Hne. induction d as [|[k0 v0] d IH]; simpl.
  - destruct (Z.eqb_spec k' k); [contradiction | reflexivity].
  - destruct (Z.eqb_spec k k0) as [->|Hk]; simpl.
    + destruct (Z.eqb_spec k' k0); [contradiction | reflexivity].
    + now rewrite IH.
Qed.

Lemma dict_get_In d k v :
  dict_get Z.eqb k d = Some v -> In (k, v) d.
Proof.
  induction d as [|[k' v'] d IH]; simpl; [discriminate|].
  destruct (Z.eqb_spec k k') as [->|Hne].
  - intros [= ->]. now left.
  - intros Hg. right. now apply IH.
Qed.

Lemma dict_get_None d k :
  dict_get Z.eqb k d = None <-> ~ In k (dict_keys d).
Proof.
  induction d as [|[k' v'] d IH]; simpl.
  - tauto.
  - destruct (Z.eqb_spec k k') as [->|Hne].
    + split; [discriminate | intros Hn; exfalso; apply Hn; now left].
    + rewrite IH. unfold dict_keys. simpl. intuition congruence.
Qed.

Lemma dict_keys_set d k v :
  dict_keys (dict_set Z.eqb k v d)
  = if dict_contains Z.eqb k d then dict_keys d else dict_keys d ++ [k].
Proof.
  unfold dict_contains, dict_keys.
  induction d as [|[k' v'] d IH]; simpl; [reflexivity|].
  destruct (Z.eqb_spec k k') as [->|Hne]; simpl; [reflexivity|].
  rewrite IH. now destruct (dict_get Z.eqb k d).
Qed.
End DictFacts.

(* ================================================================= *)
(** ** The streaming loop *)

Section Aggregation.

Lemma with_index_app idx ds1 ds2 :
  with_index idx (ds1 ++ ds2) = with_index idx ds1 ++ with_index idx ds2.
Proof. unfold with_index. apply filter_app. Qed.

Lemma accumulate_tool_call_assembles calls ds tc :
  assembles calls ds ->
  assembles (accumulate_tool_call calls tc) (ds ++ [tc]).
Proof.
  intros Hinv idx. unfold accumulate_tool_call, assembled.
  rewrite with_index_app. simpl.
  destruct (Z.eqb_spec idx (tc_index tc)) as [->|Hne].
  - pose proof (Hinv (tc_index tc)) as Hidx. unfold assembled in Hidx.
    destruct (dict_get Z.eqb (tc_index tc) calls) as [entry|] eqn:Hget.
    + destruct (with_index (tc_index tc) ds) as [|d rest] eqn:Hw;
        [discriminate|].
      injection Hidx as ->. simpl.
      destruct (truthy (fn_arguments (tc_function tc))) eqn:Ht.
      * rewrite dict_get_set_same. simpl.
        rewrite map_app, concat_all_app. simpl.
        now rewrite append_empty_r, append_assoc.
      * rewrite Hget. simpl. rewrite map_app, concat_all_app. simpl.
        assert (Hs : arguments_slice tc = "")
          by now apply truthy_false_or_empty.
        now rewrite Hs, !append_empty_r.
    + destruct (with_index (tc_index tc) ds); [|discriminate].
      rewrite dict_get_set_same. simpl. unfold arguments_slice.
      now rewrite append_empty_r.
  - rewrite app_nil_r.
    assert (Hsame : dict_get Z.eqb idx (accumulate_tool_call calls tc)
                    = dict_get Z.eqb idx calls).
    { unfold accumulate_tool_call.
      destruct (dict_get Z.eqb (tc_index tc) calls).
      - destruct (truthy _); [|reflexivity].
        now apply dict_get_set_other.
      - now apply dict_get_set_other. }
    unfold accumulate_tool_call in Hsame. rewrite Hsame.
    apply Hinv.
Qed.

Lemma fold_accumulate_assembles tcs : forall calls ds,
  assembles calls ds ->
  assembles (fold_left accumulate_tool_call tcs calls) (ds ++ tcs).
Proof.
  induction tcs as [|tc tcs IH]; intros calls ds Hinv; simpl.
  - now rewrite app_nil_r.
  - replace (ds ++ tc :: tcs) with ((ds ++ [tc]) ++ tcs)
      by now rewrite <- app_assoc.
    apply IH. now apply accumulate_tool_call_assembles.
Qed.

Lemma process_chunk_reasoning a c :
  reasoning (process_chunk a c)
  = (reasoning a ++ reasoning_slice c)%string.
Proof.
  unfold process_chunk, reasoning_slice, chunk_delta.
  destruct (choices c) as [|ch chs]; simpl;
    [now rewrite append_empty_r|].
  destruct (choice_delta ch) as [d|]; simpl;
    [|now rewrite append_empty_r].
  destruct (truthy (d_reasoning_content d)) eqn:Ht; [reflexivity|].
  now rewrite (truthy_false_or_empty _ Ht), append_empty_r.
Qed.

Lemma process_chunk_content a c :
  content (process_chunk a c) = (content a ++ answer_slice c)%string.
Proof.
  unfold process_chunk, answer_slice, chunk_delta.
  destruct (choices c) as [|ch chs]; simpl;
    [now rewrite append_empty_r|].
  destruct (choice_delta ch) as [d|]; simpl;
    [|now rewrite append_empty_r].
  destruct (truthy (d_content d)) eqn:Ht; [reflexivity|].
  now rewrite (truthy_false_or_empty _ Ht), append_empty_r.
Qed.

Lemma process_chunk_assembles a c ds :
  assembles (tool_calls a) ds ->
  assembles (tool_calls (process_chunk a c)) (ds ++ chunk_tool_deltas c).
Proof.
  intros Hinv. unfold process_chunk, chunk_tool_deltas, chunk_delta.
  destruct (choices c) as [|ch chs]; simpl;
    [now rewrite app_nil_r|].
  destruct (choice_delta ch) as [d|]; simpl; [|now rewrite app_nil_r].
  destruct (d_tool_calls d) as [tcs|]; [|now rewrite app_nil_r].
  now apply fold_accumulate_assembles.
Qed.

Lemma fold_process_chunk response : forall a ds,
  assembles (tool_calls a) ds ->
  let a' := fold_left process_chunk response a in
  reasoning a'
  = (reasoning a ++ concat_all (map reasoning_slice response))%string
  /\ content a'
     = (content a ++ concat_all (map answer_slice response))%string
  /\ assembles (tool_calls a') (ds ++ tool_deltas response).
Proof.
  induction response as [|c response IH]; intros a ds Hinv; simpl.
  - rewrite !append_empty_r, app_nil_r. auto.
  - destruct (IH (process_chunk a c) (ds ++ chunk_tool_deltas c))
      as (Hr & Hc & Ht); [now apply process_chunk_assembles|].
    rewrite Hr, Hc, process_chunk_reasoning, process_chunk_content.
    rewrite !append_assoc, <- app_assoc in *. auto.
Qed.

(** C3. For every fragment sequence, the aggregated reasoning text is
    the concatenation of the reasoning slices in arrival order, the
    aggregated answer text is the concatenation of the answer slices
    in arrival order, and for every index the aggregated invocation
    is the one assembled from the deltas bearing that index:
    identifier and name of the first of them, and as argument text
    the concatenation, in arrival order, of the argument slices of
    all of them (no entry when no delta bears the index). *)
Theorem aggregate_concatenates (response : list chunk) :
  reasoning (aggregate response)
  = concat_all (map reasoning_slice response)
  /\ content (aggregate response)
     = concat_all (map answer_slice response)
  /\ forall idx,
       dict_get Z.eqb idx (tool_calls (aggregate response))
       = assembled idx (tool_deltas response).
Proof.
  unfold aggregate.
  destruct (fold_process_chunk response
              {| reasoning := ""; content := ""; tool_calls := [] |} [])
    as (Hr & Hc & Ht).
  - intros idx. reflexivity.
  - simpl in *. auto.
Qed.

End Aggregation.

(* ================================================================= *)
(** ** Order of the invocations *)

Section Ordering.

Lemma insert_sorted_perm x l : Permutation (insert_sorted x l) (x :: l).
Proof.
  induction l as [|y l IH]; simpl; [reflexivity|].
  destruct (x <=? y)%Z; [reflexivity|].
  rewrite IH. apply perm_swap.
Qed.

Lemma sorted_perm l : Permutation (sorted l) l.
Proof.
  induction l as [|x l IH]; simpl; [reflexivity|].
  rewrite insert_sorted_perm. now constructor.
Qed.

Lemma insert_sorted_ascending x l :
  ~ In x l ->
  StronglySorted Z.lt l -> StronglySorted Z.lt (insert_sorted x l).
Proof.
  intros Hnin Hs. induction Hs as [|y l Hs IH Hall]; simpl.
  - repeat constructor.
  - destruct (Z.leb_spec x y) as [Hle|Hgt].
    + assert (Hlt : (x < y)%Z).
      { destruct (Z.eq_dec x y) as [->|]; [|lia].
        exfalso. apply Hnin. now left. }
      constructor; [now constructor|].
      constructor; [exact Hlt|].
      eapply Forall_impl; [|exact Hall]. simpl. intros; lia.
    + constructor.
      * apply IH. intros Hin. apply Hnin. now right.
      * eapply Permutation_Forall.
        -- symmetry. apply insert_sorted_perm.
        -- constructor; [lia | exact Hall].
Qed.

Lemma sorted_ascending l :
  NoDup l -> StronglySorted Z.lt (sorted l).
Proof.
  induction 1 as [|x l Hnin Hnd IH]; simpl; [constructor|].
  apply insert_sorted_ascending; [|exact IH].
  intros Hin. apply Hnin.
  eapply Permutation_in; [apply sorted_perm | exact Hin].
Qed.

Lemma accumulate_tool_call_keys calls tc :
  dict_keys (accumulate_tool_call calls tc)
  = if dict_contains Z.eqb (tc_index tc) calls then dict_keys calls
    else dict_keys calls ++ [tc_index tc].
Proof.
  unfold accumulate_tool_call, dict_contains.
  destruct (dict_get Z.eqb (tc_index tc) calls) as [entry|] eqn:Hget.
  - destruct (truthy _); [|reflexivity].
    rewrite dict_keys_set. unfold dict_contains. now rewrite Hget.
  - rewrite dict_keys_set. unfold dict_contains. now rewrite Hget.
Qed.

Lemma accumulate_tool_call_NoDup calls tc :
  NoDup (dict_keys calls) ->
  NoDup (dict_keys (accumulate_tool_call calls tc)).
Proof.
  intros Hnd. rewrite accumulate_tool_call_keys. unfold dict_contains.
  destruct (dict_get Z.eqb (tc_index tc) calls) eqn:Hget; [exact Hnd|].
  apply dict_get_None in Hget.
  apply NoDup_rev in Hnd.
  rewrite <- (rev_involutive (dict_keys calls ++ [tc_index tc])).
  apply NoDup_rev. rewrite rev_app_distr. simpl.
  constructor; [|exact Hnd].
  now rewrite <- in_rev.
Qed.

Lemma process_chunk_NoDup a c :
  NoDup (dict_keys (tool_calls a)) ->
  NoDup (dict_keys (tool_calls (process_chunk a c))).
Proof.
  intros Hnd. unfold process_chunk.
  destruct (choices c) as [|ch chs]; [exact Hnd|].
  destruct (choice_delta ch) as [d|]; [|exact Hnd]. simpl.
  destruct (d_tool_calls d) as [tcs|]; [|exact Hnd].
  revert Hnd. generalize (tool_calls a).
  induction tcs as [|tc tcs IH]; intros calls Hnd; simpl; [exact Hnd|].
  apply IH. now apply accumulate_tool_call_NoDup.
Qed.

Lemma aggregate_NoDup response :
  NoDup (dict_keys (tool_calls (aggregate response))).
Proof.
  unfold aggregate.
  assert (Hnd : NoDup (dict_keys (tool_calls
            {| reasoning := ""; content := ""; tool_calls := [] |})))
    by constructor.
  revert Hnd. generalize {| reasoning := ""; content := "";
                            tool_calls := [] |}.
  induction response as [|c response IH]; intros a Hnd; simpl;
    [exact Hnd|].
  apply IH. now apply process_chunk_NoDup.
Qed.

(** The dispatch loop meets every invocation once. *)
Lemma ordered_calls_indices calls :
  map fst (ordered_calls calls) = sorted (dict_keys calls).
Proof.
  unfold ordered_calls, lookup_calls.
  assert (Hin : forall idx, In idx (sorted (dict_keys calls)) ->
                            In idx (dict_keys calls)).
  { intros idx. apply Permutation_in, sorted_perm. }
  induction (sorted (dict_keys calls)) as [|idx idxs IH]; simpl;
    [reflexivity|].
  destruct (dict_get Z.eqb idx calls) as [tc|] eqn:Hget.
  - simpl. f_equal. apply IH. intros i Hi. apply Hin. now right.
  - apply dict_get_None in Hget. exfalso. apply Hget, Hin. now left.
Qed.

Lemma ordered_calls_lookup calls idx tc :
  In (idx, tc) (ordered_calls calls) ->
  dict_get Z.eqb idx calls = Some tc.
Proof.
  unfold ordered_calls, lookup_calls. rewrite in_flat_map.
  intros (i & _ & Hin).
  destruct (dict_get Z.eqb i calls) as [tc'|] eqn:Hget; [|contradiction].
  destruct Hin as [[= <- <-]|[]]. exact Hget.
Qed.

Lemma ordered_calls_length calls :
  List.length (ordered_calls calls) = List.length calls.
Proof.
  rewrite <- (length_map fst (ordered_calls calls)), ordered_calls_indices.
  rewrite (Permutation_length (sorted_perm _)).
  unfold dict_keys. apply length_map.
Qed.

End Ordering.

(* ================================================================= *)
(** ** The dispatch loop *)

Ltac unfold_monad :=
  unfold StateMonad.bind, StateMonad.ret, StateMonad.raise, StateMonad.lift,
    StateMonad.append, StateMonad.emit, StateMonad.get in *.

Ltac pair_eq H :=
  injection H; clear H; intros; subst.

Section Dispatch.
Variable H : host.

Lemma json_dumps_error (msg : string) :
  json_dumps H (PDict [("error", PStr msg)])
  = Returned (json_encode H (PDict [("error", PStr msg)])).
Proof. reflexivity. Qed.

(** The end of the loop body, outcome by outcome. *)
Lemma report_result_unfold tc result st :
  report_result H tc result st
  = match json_dumps H (PDict result) with
    | Raised e => (Raised e, st)
    | Returned text =>
        match print_result H result text with
        | Raised e => (Raised e, st)
        | Returned _ =>
            (Returned tt,
             {| messages := messages st ++ [tool_message tc text];
                trace := trace st |})
        end
    end.
Proof.
  unfold report_result. unfold_monad.
  destruct (json_dumps H (PDict result)) as [text|e]; [|reflexivity].
  now destruct (print_result H result text) as [[]|e].
Qed.

(** The loop body, outcome by outcome. *)
Lemma execute_tool_call_unfold tc st :
  execute_tool_call H tc st
  = let func_name := function_name (tool_function tc) in
    match print_call H func_name with
    | Raised e => (Raised e, st)
    | Returned _ =>
        match parse_arguments H (function_arguments (tool_function tc)) with
        | Raised e =>
            if isinstance e JSONDecodeError then
              match print_parse_error H e with
              | Raised e' => (Raised e', st)
              | Returned _ =>
                  (Returned tt,
                   {| messages :=
                        messages st
                        ++ [tool_message tc
                              (json_encode H
                                 (PDict [("error",
                                          PStr ("Invalid arguments JSON: "
                                                ++ exc_str e))]))];
                      trace := trace st |})
              end
            else (Raised e, st)
        | Returned (PDict kwargs) =>
            match print_arguments H kwargs with
            | Raised e => (Raised e, st)
            | Returned _ =>
                match dict_get String.eqb func_name (FUNCTION_MAP H) with
                | Some f =>
                    let called :=
                      {| messages := messages st;
                         trace := trace st ++ [ToolCall func_name kwargs] |} in
                    match f kwargs (trace st) with
                    | Raised e => (Raised e, called)
                    | Returned result => report_result H tc result called
                    end
                | None =>
                    report_result H tc
                      [("error", PStr ("Unknown function: " ++ func_name))] st
                end
            end
        | Returned v =>
            (Raised (mk_exn AttributeError
                            ("'" ++ type_name v
                             ++ "' object has no attribute 'items'")), st)
        end
    end.
Proof.
  unfold execute_tool_call. cbv zeta.
  unfold StateMonad.bind at 1. unfold StateMonad.lift at 1.
  destruct (print_call H _) as [[]|e]; [|reflexivity].
  destruct (parse_arguments H _) as [func_args|e].
  - destruct func_args as [| | | | | | | | |kwargs]; try reflexivity.
    unfold StateMonad.bind at 1. unfold StateMonad.lift at 1.
    destruct (print_arguments H kwargs) as [[]|e]; [|reflexivity].
    destruct (dict_get String.eqb _ (FUNCTION_MAP H)) as [f|].
    + unfold_monad. cbn [messages trace].
      now destruct (f kwargs (trace st)) as [result|e].
    + reflexivity.
  - destruct (isinstance e JSONDecodeError); [|reflexivity].
    rewrite json_dumps_error. unfold_monad.
    now destruct (print_parse_error H e) as [[]|e'].
Qed.

Lemma report_result_effect tc result st r st' :
  report_result H tc result st = (r, st') ->
  trace st' = trace st
  /\ match r with
     | Returned _ =>
         exists text, messages st' = messages st ++ [tool_message tc text]
     | Raised _ => messages st' = messages st
     end.
Proof.
  rewrite report_result_unfold.
  destruct (json_dumps H (PDict result)) as [text|e].
  - destruct (print_result H result text) as [[]|e];
      intros Heq; pair_eq Heq; cbn [messages trace]; eauto.
  - intros Heq; pair_eq Heq. auto.
Qed.

(** What one pass through the body of the dispatch loop does to the
    transcript and to the trace. *)
Lemma execute_tool_call_effect tc st r st' :
  execute_tool_call H tc st = (r, st') ->
  match r with
  | Returned _ =>
      trace st' = trace st ++ dispatch_event H tc
      /\ exists text, messages st' = messages st ++ [tool_message tc text]
  | Raised _ =>
      messages st' = messages st
      /\ (trace st' = trace st
          \/ trace st' = trace st ++ dispatch_event H tc)
  end.
Proof.
  rewrite execute_tool_call_unfold. cbv zeta. unfold dispatch_event.
  destruct (print_call H _) as [[]|e0];
    [|intros Heq; pair_eq Heq; auto].
  destruct (parse_arguments H (function_arguments (tool_function tc)))
    as [func_args|e].
  - destruct func_args as [| | | | | | | | |kwargs];
      try (intros Heq; pair_eq Heq; now auto).
    destruct (print_arguments H kwargs) as [[]|e1];
      [|intros Heq; pair_eq Heq; auto].
    unfold dict_contains.
    destruct (dict_get String.eqb (function_name (tool_function tc))
                       (FUNCTION_MAP H)) as [f|].
    + destruct (f kwargs (trace st)) as [result|e].
      * intros Hrep. apply report_result_effect in Hrep as (Ht & Hm).
        cbn [messages trace] in Ht, Hm. destruct r as [[]|e]; auto.
      * intros Heq; pair_eq Heq; cbn [messages trace]. auto.
    + intros Hrep. apply report_result_effect in Hrep as (Ht & Hm).
      rewrite app_nil_r. destruct r as [[]|e]; auto.
  - destruct (isinstance e JSONDecodeError).
    + destruct (print_parse_error H e) as [[]|e'];
        intros Heq; pair_eq Heq; cbn [messages trace];
        rewrite ?app_nil_r; eauto.
    + intros Heq; pair_eq Heq. auto.
Qed.

Lemma dispatch_event_no_chat tc :
  filter is_chat_request (dispatch_event H tc) = [].
Proof.
  unfold dispatch_event.
  destruct (parse_arguments H _) as [[| | | | | | | | |kwargs]|e];
    try reflexivity.
  now destruct (dict_contains _ _ _).
Qed.

Lemma tool_message_answers idx tc text :
  answers (idx, tc) (tool_message tc text).
Proof. now exists text. Qed.

Lemma execute_tool_calls_effect calls idxs : forall st r st',
  execute_tool_calls H calls idxs st = (r, st') ->
  exists msgs evs,
    messages st' = messages st ++ msgs
    /\ trace st' = trace st ++ evs
    /\ filter is_chat_request evs = []
    /\ match r with
       | Returned _ =>
           Forall2 answers (lookup_calls calls idxs) msgs
           /\ evs = flat_map (fun p => dispatch_event H (snd p))
                             (lookup_calls calls idxs)
       | Raised _ => True
       end.
Proof.
  induction idxs as [|idx idxs IH]; intros st r st' Hrun; simpl in Hrun.
  - unfold_monad. pair_eq Hrun. exists [], [].
    rewrite !app_nil_r. simpl. auto.
  - unfold StateMonad.bind in Hrun at 1.
    destruct (dict_get Z.eqb idx calls) as [tc|] eqn:Hget.
    + destruct (execute_tool_call H tc st) as [r1 st1] eqn:Hone.
      apply execute_tool_call_effect in Hone.
      destruct r1 as [[]|e].
      * destruct Hone as (Htr & text & Hmsg).
        apply IH in Hrun as (msgs & evs & Hm & Ht & Hf & Hr).
        exists (tool_message tc text :: msgs), (dispatch_event H tc ++ evs).
        rewrite Hm, Ht, Hmsg, Htr, <- !app_assoc. simpl.
        repeat split.
        -- rewrite filter_app, Hf, dispatch_event_no_chat. reflexivity.
        -- destruct r as [[]|]; [|exact I].
           destruct Hr as (Hall & ->). unfold lookup_calls. simpl.
           rewrite Hget. simpl. split; [|reflexivity].
           constructor; [apply tool_message_answers | exact Hall].
      * pair_eq Hrun. destruct Hone as (Hmsg & [Htr|Htr]).
        -- exists [], []. rewrite Hmsg, Htr, !app_nil_r. auto.
        -- exists [], (dispatch_event H tc).
           rewrite Hmsg, Htr, app_nil_r.
           repeat split. apply dispatch_event_no_chat.
    + unfold_monad. pair_eq Hrun. exists [], [].
      rewrite !app_nil_r. simpl. auto.
Qed.

End Dispatch.

(* ================================================================= *)
(** ** One turn *)

Section Turn.
Variable H : host.

Lemma stream_agent_turn_unfold st :
  stream_agent_turn H st
  = match create_chat H (trace st) (messages st) with
    | Raised e =>
        (Raised e, {| messages := messages st;
                      trace := trace st ++ [ChatRequest (messages st)] |})
    | Returned response =>
        let a := aggregate response in
        match tool_calls a with
        | [] => (Returned (Some (content a)), dispatching st a)
        | _ :: _ =>
            match execute_tool_calls H (tool_calls a)
                    (sorted (dict_keys (tool_calls a)))
                    (dispatching st a) with
            | (Returned _, st') => (Returned None, st')
            | (Raised e, st') => (Raised e, st')
            end
        end
    end.
Proof.
  unfold stream_agent_turn, dispatching. unfold_monad. cbn [messages trace].
  destruct (create_chat H (trace st) (messages st)) as [response|e];
    [|reflexivity].
  cbv zeta. destruct (tool_calls (aggregate response)); reflexivity.
Qed.

(** What a turn does to the transcript and to the trace, whatever its
    outcome. *)
Lemma stream_agent_turn_effect st r st' :
  stream_agent_turn H st = (r, st') ->
  exists msgs evs,
    messages st' = messages st ++ msgs
    /\ trace st' = trace st ++ ChatRequest (messages st) :: evs
    /\ filter is_chat_request evs = []
    /\ match create_chat H (trace st) (messages st) with
       | Raised e => r = Raised e /\ msgs = []
       | Returned response =>
           let a := aggregate response in
           exists tool_msgs,
             msgs = assistant_msg a :: tool_msgs
             /\ match r with
                | Returned (Some answer) =>
                    tool_calls a = [] /\ answer = content a
                    /\ tool_msgs = [] /\ evs = []
                | Returned None =>
                    tool_calls a <> []
                    /\ Forall2 answers (ordered_calls (tool_calls a))
                               tool_msgs
                    /\ evs = flat_map (fun p => dispatch_event H (snd p))
                                      (ordered_calls (tool_calls a))
                | Raised _ => tool_calls a <> []
                end
       end.
Proof.
  rewrite stream_agent_turn_unfold.
  destruct (create_chat H (trace st) (messages st)) as [response|e].
  - cbv zeta. destruct (tool_calls (aggregate response)) as [|p calls] eqn:Hc.
    + intros Heq; pair_eq Heq. exists [assistant_msg (aggregate response)], [].
      unfold dispatching; cbn [messages trace]. repeat split.
      exists []. auto.
    + rewrite <- Hc.
      destruct (execute_tool_calls H _ _ _) as [r1 st1] eqn:Hrun.
      apply execute_tool_calls_effect in Hrun
        as (msgs & evs & Hm & Ht & Hf & Hr).
      unfold dispatching in Hm, Ht; cbn [messages trace] in Hm, Ht.
      rewrite <- app_assoc in Hm, Ht. simpl in Hm, Ht.
      assert (Hne : tool_calls (aggregate response) <> [])
        by (rewrite Hc; discriminate).
      destruct r1 as [[]|e]; intros Heq; pair_eq Heq;
        exists (assistant_msg (aggregate response) :: msgs), evs;
        repeat split; auto; exists msgs; split; auto.
  - intros Heq; pair_eq Heq. exists [], []. cbn [messages trace].
    rewrite app_nil_r. auto.
Qed.

Lemma stream_agent_turn_chat_requests st :
  chat_requests (trace (snd (stream_agent_turn H st)))
  = S (chat_requests (trace st)).
Proof.
  destruct (stream_agent_turn H st) as [r st'] eqn:Hturn.
  apply stream_agent_turn_effect in Hturn as (msgs & evs & _ & Ht & Hf & _).
  unfold chat_requests. simpl. rewrite Ht, filter_app. simpl.
  rewrite Hf, length_app. simpl. lia.
Qed.

Lemma stream_agent_turn_appends st :
  exists msgs,
    messages (snd (stream_agent_turn H st)) = messages st ++ msgs.
Proof.
  destruct (stream_agent_turn H st) as [r st'] eqn:Hturn.
  apply stream_agent_turn_effect in Hturn as (msgs & _ & Hm & _).
  now exists msgs.
Qed.

End Turn.

(* ================================================================= *)
(** ** The agent loop *)

Section Loop.
Variable H : host.

Lemma agent_rounds_effect n : forall st,
  (exists msgs,
     messages (snd (agent_rounds H n st)) = messages st ++ msgs)
  /\ chat_requests (trace (snd (agent_rounds H n st)))
     <= chat_requests (trace st) + n.
Proof.
  induction n as [|n IH]; intros st; simpl.
  - split; [exists []; now rewrite app_nil_r | lia].
  - unfold StateMonad.bind.
    pose proof (stream_agent_turn_appends H st) as (msgs & Hm).
    pose proof (stream_agent_turn_chat_requests H st) as Hc.
    destruct (stream_agent_turn H st) as [[[answer|]|e] st1]; simpl in *.
    + split; [now exists msgs | lia].
    + destruct (IH st1) as ((msgs' & Hm') & Hc'). split.
      * exists (msgs ++ msgs'). now rewrite Hm', Hm, app_assoc.
      * lia.
    + split; [now exists msgs | lia].
Qed.

Lemma agent_turn_state n st :
  snd (agent_turn H n st) = snd (agent_rounds H n st).
Proof.
  unfold agent_turn, StateMonad.bind.
  destruct (agent_rounds H n st) as [[[answer|]|e] st1]; try reflexivity.
  unfold StateMonad.get. simpl. now destruct (rev (messages st1)).
Qed.

Lemma after_rounds_chat_requests k : forall st,
  chat_requests (trace (after_rounds H k st)) = chat_requests (trace st) + k.
Proof.
  induction k as [|k IH]; intros st; simpl; [lia|].
  rewrite IH, stream_agent_turn_chat_requests. lia.
Qed.

Lemma agent_rounds_answer k : forall n st answer,
  k < n ->
  (forall j, j < k ->
     fst (stream_agent_turn H (after_rounds H j st)) = Returned None) ->
  fst (stream_agent_turn H (after_rounds H k st)) = Returned (Some answer) ->
  agent_rounds H n st = (Returned (Some answer), after_rounds H (S k) st).
Proof.
  induction k as [|k IH]; intros n st answer Hlt Hnone Hsome;
    (destruct n as [|n]; [lia|]); simpl in *; unfold StateMonad.bind.
  - destruct (stream_agent_turn H st) as [r st1]; simpl in *. now subst r.
  - pose proof (Hnone 0 ltac:(lia)) as H0. simpl in H0.
    destruct (stream_agent_turn H st) as [r st1] eqn:Hturn; simpl in *.
    subst r. apply IH; [lia| |exact Hsome].
    intros j Hj. specialize (Hnone (S j) ltac:(lia)). simpl in Hnone.
    now rewrite Hturn in Hnone.
Qed.

Lemma agent_rounds_exhausted n : forall st,
  (forall j, j < n ->
     fst (stream_agent_turn H (after_rounds H j st)) = Returned None) ->
  agent_rounds H n st = (Returned None, after_rounds H n st).
Proof.
  induction n as [|n IH]; intros st Hnone; simpl; [reflexivity|].
  unfold StateMonad.bind.
  pose proof (Hnone 0 ltac:(lia)) as H0. simpl in H0.
  destruct (stream_agent_turn H st) as [r st1] eqn:Hturn; simpl in *.
  subst r. apply IH. intros j Hj.
  specialize (Hnone (S j) ltac:(lia)). simpl in Hnone.
  now rewrite Hturn in Hnone.
Qed.

(** After an incomplete round the transcript ends with a message. *)
Lemma incomplete_round_nonempty st :
  fst (stream_agent_turn H st) = Returned None ->
  messages (snd (stream_agent_turn H st)) <> [].
Proof.
  destruct (stream_agent_turn H st) as [r st1] eqn:Hturn. simpl.
  intros ->.
  apply stream_agent_turn_effect in Hturn as (msgs & evs & Hm & _ & _ & Hr).
  destruct (create_chat H (trace st) (messages st)) as [response|e].
  - destruct Hr as (tool_msgs & -> & _). rewrite Hm.
    now destruct (messages st).
  - destruct Hr as [Hr _]. discriminate.
Qed.

(** After an incomplete round the transcript ends with a tool message. *)
Lemma incomplete_round_last st :
  fst (stream_agent_turn H st) = Returned None ->
  exists tc text,
    last (messages (snd (stream_agent_turn H st))) []
    = tool_message tc text.
Proof.
  destruct (stream_agent_turn H st) as [r st1] eqn:Hturn. simpl.
  intros ->.
  apply stream_agent_turn_effect in Hturn as (msgs & evs & Hm & _ & _ & Hr).
  destruct (create_chat H (trace st) (messages st)) as [response|e];
    [|destruct Hr as [Hr _]; discriminate].
  destruct Hr as (tool_msgs & -> & Hcalls & Hall & _).
  assert (Hlen : List.length tool_msgs <> 0).
  { rewrite <- (Forall2_length Hall), ordered_calls_length.
    destruct (tool_calls (aggregate response)); [contradiction|].
    discriminate. }
  destruct (exists_last (l := tool_msgs)) as (l & m & ->);
    [now destruct tool_msgs|].
  apply Forall2_app_inv_r in Hall as (l1 & l2 & _ & Hm' & _).
  inversion Hm' as [|p m' l1' l2' (text & ->) _]; subst.
  exists (snd p), text. rewrite Hm. unfold tool_message.
  rewrite app_comm_cons, app_assoc. apply last_last.
Qed.

Lemma after_rounds_S k : forall st,
  after_rounds H (S k) st
  = snd (stream_agent_turn H (after_rounds H k st)).
Proof.
  induction k as [|k IH]; intros st; [reflexivity|].
  change (after_rounds H (S (S k)) st)
    with (after_rounds H (S k) (snd (stream_agent_turn H st))).
  now rewrite IH.
Qed.

Lemma rev_head_last (l : list message) m l' :
  rev l = m :: l' -> last l [] = m.
Proof.
  intros Hrev. rewrite <- (rev_involutive l), Hrev. simpl.
  apply last_last.
Qed.

End Loop.

(* ================================================================= *)
(** ** Properties of the agent loop and of the transcript *)

(** C9. The transcript is only appended to: after [stream_agent_turn]
    and after [agent_turn], whatever their outcome, the transcript is
    the transcript at the call followed by new messages, so every entry
    present at the call, the first one included, is still there,
    unchanged and at its position. *)
Theorem transcript_append_only (H : host) (n : nat) (st : state) :
  (exists msgs,
     messages (snd (stream_agent_turn H st)) = messages st ++ msgs)
  /\ (exists msgs,
        messages (snd (agent_turn H n st)) = messages st ++ msgs).
Proof.
  split.
  - apply stream_agent_turn_appends.
  - rewrite agent_turn_state. apply agent_rounds_effect.
Qed.

(** C7. [agent_turn] with [max_iterations = n] (10 by default) sends at
    most [n] requests, one per round of [stream_agent_turn].  If the
    rounds before round [k < n] are incomplete and round [k] yields a
    final answer, [agent_turn] returns that answer in the state right
    after that round, [k + 1] rounds having run.  If all [n] rounds are
    incomplete (and the transcript is not empty when [n = 0]),
    [agent_turn] returns, without raising, the content of the last
    message of the transcript, exactly [n] rounds having run; when
    [n > 0] that message is a tool message and the value returned is
    its text. *)
Theorem agent_turn_rounds (H : host) (n : nat) (st : state) :
  default_max_iterations = 10
  /\ chat_requests (trace (snd (agent_turn H n st)))
     <= chat_requests (trace st) + n
  /\ (forall k answer,
        k < n ->
        (forall j, j < k ->
           fst (stream_agent_turn H (after_rounds H j st)) = Returned None) ->
        fst (stream_agent_turn H (after_rounds H k st))
        = Returned (Some answer) ->
        agent_turn H n st = (Returned (PStr answer), after_rounds H (S k) st)
        /\ chat_requests (trace (after_rounds H (S k) st))
           = chat_requests (trace st) + S k)
  /\ ((forall j, j < n ->
         fst (stream_agent_turn H (after_rounds H j st)) = Returned None) ->
      (n = 0 -> messages st <> []) ->
      agent_turn H n st
      = (Returned (last_content (after_rounds H n st)), after_rounds H n st)
      /\ chat_requests (trace (after_rounds H n st))
         = chat_requests (trace st) + n
      /\ (0 < n ->
          exists tc text,
            last (messages (after_rounds H n st)) [] = tool_message tc text
            /\ last_content (after_rounds H n st) = PStr text)).
Proof.
  split; [reflexivity|]. split; [|split].
  - rewrite agent_turn_state. apply agent_rounds_effect.
  - intros k answer Hlt Hnone Hsome. split.
    + unfold agent_turn, StateMonad.bind.
      now rewrite (agent_rounds_answer H k n st answer Hlt Hnone Hsome).
    + apply after_rounds_chat_requests.
  - intros Hnone Hne. split; [|split; [apply after_rounds_chat_requests|]].
    2:{ intros Hpos. destruct n as [|k]; [lia|].
        destruct (incomplete_round_last H (after_rounds H k st))
          as (tc & text & Hlast); [apply Hnone; lia|].
        rewrite <- after_rounds_S in Hlast.
        exists tc, text. split; [exact Hlast|].
        unfold last_content. now rewrite Hlast. }
    unfold agent_turn, StateMonad.bind.
    rewrite (agent_rounds_exhausted H n st Hnone).
    unfold StateMonad.get, StateMonad.ret, StateMonad.raise.
    assert (Hlast : messages (after_rounds H n st) <> []).
    { destruct n as [|k]; [now apply Hne|].
      rewrite after_rounds_S. apply incomplete_round_nonempty.
      apply Hnone. lia. }
    destruct (rev (messages (after_rounds H n st))) as [|m l] eqn:Hrev.
    + exfalso. apply Hlast.
      rewrite <- (rev_involutive (messages _)), Hrev. reflexivity.
    + unfold last_content. now rewrite (rev_head_last _ _ _ Hrev).
Qed.

(** X22. A turn whose aggregated state holds at least one tool
    invocation and that does not end by raising returns the incomplete
    signal [None]; it appends the assistant message and then exactly
    one tool message per invocation, in ascending index order, each
    with the role ["tool"], the identifier of its invocation and a text
    as content; and the tools it calls are called in that same order,
    after the one request to the remote service. *)
Theorem tool_turn_incomplete (H : host) (st : state)
        (response : list chunk) :
  create_chat H (trace st) (messages st) = Returned response ->
  tool_calls (aggregate response) <> [] ->
  (forall e, fst (stream_agent_turn H st) <> Raised e) ->
  let a := aggregate response in
  let calls := ordered_calls (tool_calls a) in
  exists tool_msgs,
    fst (stream_agent_turn H st) = Returned None
    /\ messages (snd (stream_agent_turn H st))
       = messages st ++ assistant_msg a :: tool_msgs
    /\ Forall2 answers calls tool_msgs
    /\ List.length tool_msgs = List.length (tool_calls a)
    /\ StronglySorted Z.lt (map fst calls)
    /\ (forall idx tc,
          In (idx, tc) calls -> dict_get Z.eqb idx (tool_calls a) = Some tc)
    /\ trace (snd (stream_agent_turn H st))
       = trace st ++ ChatRequest (messages st)
                     :: flat_map (fun p => dispatch_event H (snd p)) calls.
Proof.
  intros Hchat Hcalls Hreturns a calls.
  destruct (stream_agent_turn H st) as [r st'] eqn:Hturn.
  apply stream_agent_turn_effect in Hturn
    as (msgs & evs & Hm & Ht & _ & Hr).
  rewrite Hchat in Hr. destruct Hr as (tool_msgs & -> & Hr).
  simpl in *. exists tool_msgs.
  destruct r as [[answer|]|e].
  - destruct Hr as (Hnil & _). contradiction.
  - destruct Hr as (_ & Hall & ->).
    repeat split; auto.
    + rewrite <- (Forall2_length Hall). apply ordered_calls_length.
    + unfold calls. rewrite ordered_calls_indices.
      apply sorted_ascending, aggregate_NoDup.
    + apply ordered_calls_lookup.
  - exfalso. now apply (Hreturns e).
Qed.

(* ================================================================= *)
(** ** The assistant message *)

Lemma assistant_msg_absent_content (a : aggregation) :
  tool_calls a <> [] -> content a = "" ->
  sget "content" (assistant_msg a) = Some PNone.
Proof.
  intros Hcalls Hcontent. unfold assistant_msg. rewrite Hcontent.
  destruct (tool_calls a) as [|p calls]; [contradiction|].
  now destruct (reasoning a).
Qed.

Lemma assistant_msg_verbatim_content (a : aggregation) :
  content a <> "" ->
  sget "content" (assistant_msg a) = Some (PStr (content a)).
Proof.
  intros Hcontent. unfold assistant_msg.
  destruct (content a) as [|c s]; [contradiction|].
  destruct (reasoning a), (tool_calls a); reflexivity.
Qed.

Lemma stream_agent_turn_assistant_msg (H : host) st response :
  create_chat H (trace st) (messages st) = Returned response ->
  nth_error (messages (snd (stream_agent_turn H st)))
            (List.length (messages st))
  = Some (assistant_msg (aggregate response)).
Proof.
  intros Hchat.
  destruct (stream_agent_turn H st) as [r st'] eqn:Hturn.
  apply stream_agent_turn_effect in Hturn as (msgs & evs & Hm & _ & _ & Hr).
  rewrite Hchat in Hr. destruct Hr as (tool_msgs & -> & _).
  simpl. rewrite Hm, nth_error_app2, Nat.sub_diag; [reflexivity | lia].
Qed.

(** C6. The message a turn appends right after the transcript it was
    called with is the assistant message of the aggregated state; when
    that state holds a tool invocation and no answer text, the message
    has a ["content"] field holding [None] (not the empty string); when
    the answer text is not empty, the field holds that text. *)
Theorem assistant_msg_content (H : host) (st : state)
        (response : list chunk) :
  create_chat H (trace st) (messages st) = Returned response ->
  let a := aggregate response in
  nth_error (messages (snd (stream_agent_turn H st)))
            (List.length (messages st))
  = Some (assistant_msg a)
  /\ (tool_calls a <> [] -> content a = "" ->
      sget "content" (assistant_msg a) = Some PNone)
  /\ (content a <> "" ->
      sget "content" (assistant_msg a) = Some (PStr (content a))).
Proof.
  intros Hchat a. split; [|split].
  - now apply stream_agent_turn_assistant_msg.
  - apply assistant_msg_absent_content.
  - apply assistant_msg_verbatim_content.
Qed.

(* ================================================================= *)
(** ** Argument text of an invocation *)

Lemma lstrip_blank (s : string) :
  Forall (fun c => isspace c = true) (list_ascii_of_string s) ->
  lstrip s = "".
Proof.
  induction s as [|c s IH]; simpl; [reflexivity|].
  intros Hall. inversion Hall as [|? ? Hc Hs]; subst.
  rewrite Hc. now apply IH.
Qed.

Lemma strip_blank (s : string) :
  Forall (fun c => isspace c = true) (list_ascii_of_string s) ->
  strip s = "".
Proof. intros Hall. unfold strip. now rewrite lstrip_blank. Qed.

(** X23. When [json.loads] raises a [JSONDecodeError] on the argument
    text of an invocation, no tool is called.  If the two lines the
    loop prints about it (the name, the parse error) print, the loop
    body returns and appends one tool message with the role ["tool"],
    the identifier of the invocation, and as content the serialised
    payload [{"error": "Invalid arguments JSON: ..."}] carrying the
    text of the parse failure, and the loop goes on with the remaining
    invocations.  If printing raises, that exception leaves the loop
    body and nothing is appended. *)
Theorem invalid_arguments_reported (H : host) (tc : tool_call)
        (st : state) (e : exn) :
  parse_arguments H (function_arguments (tool_function tc)) = Raised e ->
  isinstance e JSONDecodeError = true ->
  let report :=
    PDict [("error", PStr ("Invalid arguments JSON: " ++ exc_str e))] in
  let st' := {| messages :=
                  messages st
                  ++ [[ ("role", PStr "tool");
                        ("tool_call_id", opt_str (tool_id tc));
                        ("content", PStr (json_encode H report)) ]];
                trace := trace st |} in
  let printed :=
    OutcomeMonad.bind (print_call H (function_name (tool_function tc)))
                      (fun _ => print_parse_error H e) in
  json_dumps H report = Returned (json_encode H report)
  /\ execute_tool_call H tc st
     = match printed with
       | Returned _ => (Returned tt, st')
       | Raised e' => (Raised e', st)
       end
  /\ dispatch_event H tc = []
  /\ (printed = Returned tt ->
      forall calls idx rest,
        dict_get Z.eqb idx calls = Some tc ->
        execute_tool_calls H calls (idx :: rest) st
        = execute_tool_calls H calls rest st').
Proof.
  intros Hparse Hjson report st' printed.
  assert (Hexec : execute_tool_call H tc st
                  = match printed with
                    | Returned _ => (Returned tt, st')
                    | Raised e' => (Raised e', st)
                    end).
  { rewrite execute_tool_call_unfold. cbv zeta. unfold printed.
    destruct (print_call H _) as [[]|e0]; cbn [OutcomeMonad.bind];
      [|reflexivity].
    rewrite Hparse, Hjson.
    now destruct (print_parse_error H e) as [[]|e1]. }
  repeat split.
  - exact Hexec.
  - unfold dispatch_event. now rewrite Hparse.
  - intros Hprinted calls idx rest Hget. simpl. unfold StateMonad.bind at 1.
    now rewrite Hget, Hexec, Hprinted.
Qed.

(** C10. When the argument text of an invocation is empty or holds
    only whitespace, the arguments are the empty mapping, whatever
    [json.loads] would say, and a registered tool is called with no
    argument, once its name is printed: the outcome of the loop body is
    the outcome of that call, serialised, previewed on the console and
    appended as a tool message when the call returns. *)
Theorem blank_arguments_call_tool (H : host) (tc : tool_call)
        (st : state) (f : handler) :
  let func_name := function_name (tool_function tc) in
  let raw_args := function_arguments (tool_function tc) in
  Forall (fun c => isspace c = true) (list_ascii_of_string raw_args) ->
  dict_get String.eqb func_name (FUNCTION_MAP H) = Some f ->
  let called := {| messages := messages st;
                   trace := trace st ++ [ToolCall func_name []] |} in
  parse_arguments H raw_args = Returned (PDict [])
  /\ dispatch_event H tc = [ToolCall func_name []]
  /\ execute_tool_call H tc st
     = match print_call H func_name with
       | Raised e => (Raised e, st)
       | Returned _ =>
           match f [] (trace st) with
           | Returned result =>
               match json_dumps H (PDict result) with
               | Returned text =>
                   match print_result H result text with
                   | Returned _ =>
                       (Returned tt,
                        {| messages := messages st ++ [tool_message tc text];
                           trace := trace called |})
                   | Raised e => (Raised e, called)
                   end
               | Raised e => (Raised e, called)
               end
           | Raised e => (Raised e, called)
           end
       end.
Proof.
  intros func_name raw_args Hblank Hget called.
  assert (Hparse : parse_arguments H raw_args = Returned (PDict [])).
  { unfold parse_arguments. now rewrite (strip_blank _ Hblank). }
  repeat split.
  - exact Hparse.
  - unfold dispatch_event, dict_contains. fold raw_args func_name.
    now rewrite Hparse, Hget.
  - rewrite execute_tool_call_unfold. cbv zeta. fold raw_args func_name.
    rewrite Hparse, Hget.
    destruct (print_call H func_name) as [[]|e]; [|reflexivity].
    cbn [print_arguments arg_summary map String.concat nonempty].
    destruct (f [] (trace st)) as [result|e]; [|reflexivity].
    now rewrite report_result_unfold.
Qed.

(* ================================================================= *)
(** ** Failures of a tool *)

Section ToolFailures.
Variable H : host.

Lemma except_Exception_raises body handle e :
  except_Exception body handle = Raised e -> isinstance e Exception = false.
Proof.
  unfold except_Exception. destruct body as [v|e']; [discriminate|].
  destruct (isinstance e' Exception) eqn:He; [discriminate|].
  now intros [= <-].
Qed.

Lemma run_command_raises hist command e :
  run_command H hist command = Raised e -> isinstance e Exception = false.
Proof.
  unfold run_command. destruct (os_run_command H hist command) as [v|e'];
    [discriminate|].
  destruct (isinstance e' TimeoutExpired); [discriminate|].
  destruct (isinstance e' Exception) eqn:He; [discriminate|].
  now intros [= <-].
Qed.

Lemma calculate_raises expression e :
  calculate H expression = Raised e -> isinstance e Exception = false.
Proof.
  unfold calculate.
  destruct (OutcomeMonad.bind _ _) as [v|e']; [discriminate|].
  destruct (isinstance e' SyntaxError); [discriminate|].
  destruct (isinstance e' ZeroDivisionError); [discriminate|].
  destruct (isinstance e' Exception) eqn:He; [discriminate|].
  now intros [= <-].
Qed.

Lemma bind_arguments_raises fname params kwargs e :
  bind_arguments fname params kwargs = Raised e -> exc_type e = TypeError.
Proof.
  unfold bind_arguments.
  destruct (filter _ kwargs) as [|[k v] l]; [|now intros [= <-]].
  destruct (filter _ params) as [|p l]; [discriminate | now intros [= <-]].
Qed.

Lemma call1_raises fname pname default body kwargs hist e :
  (forall v e', body hist v = Raised e' -> isinstance e' Exception = false) ->
  call1 fname pname default body kwargs hist = Raised e ->
  isinstance e Exception = true ->
  exc_type e = TypeError.
Proof.
  intros Hbody. unfold call1, OutcomeMonad.bind.
  destruct (bind_arguments fname [(pname, default)] kwargs) as [vs|e']
    eqn:Hbind.
  - intros Hcall Hexc. apply Hbody in Hcall. congruence.
  - intros [= <-] _. now apply bind_arguments_raises in Hbind.
Qed.

(** An [Exception] that leaves a registered tool other than
    [get_datetime] is the [TypeError] of the call itself. *)
Lemma FUNCTION_MAP_raises name f kwargs hist e :
  dict_get String.eqb name (FUNCTION_MAP H) = Some f ->
  name <> "get_datetime" ->
  f kwargs hist = Raised e ->
  isinstance e Exception = true ->
  exc_type e = TypeError.
Proof.
  unfold FUNCTION_MAP. cbn [dict_get].
  repeat match goal with
         | |- context [String.eqb name ?k] =>
             destruct (String.eqb_spec name k) as [->|?]
         end; try discriminate; intros [= <-] Hname.
  - apply call1_raises. intros v e'. apply except_Exception_raises.
  - unfold OutcomeMonad.bind.
    destruct (bind_arguments _ _ kwargs) as [vs|e'] eqn:Hbind.
    + intros Hcall Hexc. apply except_Exception_raises in Hcall. congruence.
    + intros [= <-] _. now apply bind_arguments_raises in Hbind.
  - apply call1_raises. intros v e'. apply except_Exception_raises.
  - apply call1_raises. intros v e'. apply run_command_raises.
  - apply call1_raises. intros v e'. apply calculate_raises.
  - contradiction.
Qed.

(** The loop body up to the call of a registered tool. *)
Lemma execute_tool_call_registered tc st kwargs f :
  parse_arguments H (function_arguments (tool_function tc))
  = Returned (PDict kwargs) ->
  dict_get String.eqb (function_name (tool_function tc)) (FUNCTION_MAP H)
  = Some f ->
  let func_name := function_name (tool_function tc) in
  let called := {| messages := messages st;
                   trace := trace st ++ [ToolCall func_name kwargs] |} in
  execute_tool_call H tc st
  = match announce H func_name kwargs with
    | Raised e => (Raised e, st)
    | Returned _ =>
        match f kwargs (trace st) with
        | Raised e => (Raised e, called)
        | Returned result => report_result H tc result called
        end
    end.
Proof.
  intros Hparse Hget. cbv zeta.
  rewrite execute_tool_call_unfold. cbv zeta.
  rewrite Hparse, Hget. unfold announce.
  destruct (print_call H _) as [[]|e]; cbn [OutcomeMonad.bind];
    [|reflexivity].
  now destruct (print_arguments H kwargs) as [[]|e].
Qed.

Lemma execute_tool_call_raises tc st kwargs f e :
  parse_arguments H (function_arguments (tool_function tc))
  = Returned (PDict kwargs) ->
  dict_get String.eqb (function_name (tool_function tc)) (FUNCTION_MAP H)
  = Some f ->
  f kwargs (trace st) = Raised e ->
  execute_tool_call H tc st
  = match announce H (function_name (tool_function tc)) kwargs with
    | Raised e' => (Raised e', st)
    | Returned _ =>
        (Raised e,
         {| messages := messages st;
            trace := trace st
                     ++ [ToolCall (function_name (tool_function tc))
                                  kwargs] |})
    end.
Proof.
  intros Hparse Hget Hcall.
  rewrite (execute_tool_call_registered tc st kwargs f Hparse Hget).
  cbv zeta. now rewrite Hcall.
Qed.

Lemma execute_tool_calls_raises calls idx rest tc st e st' :
  dict_get Z.eqb idx calls = Some tc ->
  execute_tool_call H tc st = (Raised e, st') ->
  execute_tool_calls H calls (idx :: rest) st = (Raised e, st').
Proof.
  intros Hget Hexec. simpl. unfold StateMonad.bind at 1.
  now rewrite Hget, Hexec.
Qed.

Lemma stream_agent_turn_raises st response e st' :
  create_chat H (trace st) (messages st) = Returned response ->
  execute_tool_calls H (tool_calls (aggregate response))
    (sorted (dict_keys (tool_calls (aggregate response))))
    (dispatching st (aggregate response)) = (Raised e, st') ->
  stream_agent_turn H st = (Raised e, st').
Proof.
  intros Hchat Hloop. rewrite stream_agent_turn_unfold, Hchat. cbv zeta.
  destruct (tool_calls (aggregate response)) as [|p calls] eqn:Hcalls.
  - simpl in Hloop. discriminate.
  - now rewrite Hloop.
Qed.

(** A round that raises ends the agent loop. *)
Lemma agent_rounds_raises k : forall n st e,
  k < n ->
  (forall j, j < k ->
     fst (stream_agent_turn H (after_rounds H j st)) = Returned None) ->
  fst (stream_agent_turn H (after_rounds H k st)) = Raised e ->
  agent_rounds H n st = (Raised e, after_rounds H (S k) st).
Proof.
  induction k as [|k IH]; intros n st e Hlt Hnone Hraise;
    (destruct n as [|n]; [lia|]); simpl in *; unfold StateMonad.bind.
  - destruct (stream_agent_turn H st) as [r st1]; simpl in *. now subst r.
  - pose proof (Hnone 0 ltac:(lia)) as H0. simpl in H0.
    destruct (stream_agent_turn H st) as [r st1] eqn:Hturn; simpl in *.
    subst r. apply IH; [lia| |exact Hraise].
    intros j Hj. specialize (Hnone (S j) ltac:(lia)). simpl in Hnone.
    now rewrite Hturn in Hnone.
Qed.

Lemma agent_turn_raises k n st e :
  k < n ->
  (forall j, j < k ->
     fst (stream_agent_turn H (after_rounds H j st)) = Returned None) ->
  fst (stream_agent_turn H (after_rounds H k st)) = Raised e ->
  agent_turn H n st = (Raised e, after_rounds H (S k) st).
Proof.
  intros Hlt Hnone Hraise. unfold agent_turn, StateMonad.bind.
  now rewrite (agent_rounds_raises k n st e Hlt Hnone Hraise).
Qed.

End ToolFailures.

(** X21. [stream_agent_turn] has no handler around the call of a
    tool.  When the call of a registered tool raises, the loop body
    raises the same exception right after the call, without appending a
    tool message (unless printing the name or the arguments of the
    invocation raised before the call); the dispatch loop stops there,
    the remaining invocations are not processed; the exception leaves
    [stream_agent_turn]; and it leaves [agent_turn], in whichever round
    it is raised.  The tools other than [get_datetime] turn every
    [Exception] raised inside their own body into an error payload, so
    the only [Exception] their call can raise is the [TypeError] of
    binding the arguments to their parameters. *)
Theorem tool_failure_propagates (H : host) :
  (forall tc st kwargs f e,
     parse_arguments H (function_arguments (tool_function tc))
     = Returned (PDict kwargs) ->
     dict_get String.eqb (function_name (tool_function tc)) (FUNCTION_MAP H)
     = Some f ->
     f kwargs (trace st) = Raised e ->
     execute_tool_call H tc st
     = match announce H (function_name (tool_function tc)) kwargs with
       | Raised e' => (Raised e', st)
       | Returned _ =>
           (Raised e,
            {| messages := messages st;
               trace := trace st
                        ++ [ToolCall (function_name (tool_function tc))
                                     kwargs] |})
       end)
  /\ (forall calls idx rest tc st e st',
        dict_get Z.eqb idx calls = Some tc ->
        execute_tool_call H tc st = (Raised e, st') ->
        execute_tool_calls H calls (idx :: rest) st = (Raised e, st'))
  /\ (forall st response e st',
        create_chat H (trace st) (messages st) = Returned response ->
        execute_tool_calls H (tool_calls (aggregate response))
          (sorted (dict_keys (tool_calls (aggregate response))))
          (dispatching st (aggregate response)) = (Raised e, st') ->
        stream_agent_turn H st = (Raised e, st'))
  /\ (forall k n st e,
        k < n ->
        (forall j, j < k ->
           fst (stream_agent_turn H (after_rounds H j st)) = Returned None) ->
        fst (stream_agent_turn H (after_rounds H k st)) = Raised e ->
        agent_turn H n st = (Raised e, after_rounds H (S k) st))
  /\ (forall name f kwargs hist e,
        dict_get String.eqb name (FUNCTION_MAP H) = Some f ->
        name <> "get_datetime" ->
        f kwargs hist = Raised e ->
        isinstance e Exception = true ->
        exc_type e = TypeError).
Proof.
  repeat split.
  - apply execute_tool_call_raises.
  - apply execute_tool_calls_raises.
  - apply stream_agent_turn_raises.
  - apply agent_turn_raises.
  - apply FUNCTION_MAP_raises.
Qed.

(* ================================================================= *)
(** ** The expression evaluator *)

Section Calculate.
Variable H : host.

Lemma safe_eval_node_at_Call id args keywords inner :
  safe_eval_node_at H (Call (Name id) args keywords) (S inner)
  = match dict_get String.eqb id SAFE_FUNCTIONS with
    | Some f =>
        OutcomeMonad.bind
          (if (inner <? comprehension_frames H)%nat
           then Raised recursion_error
           else eval_args_at H (inner - comprehension_frames H) args)
          (call_builtin H f)
    | None => OutcomeMonad.raise ValueError ("Unsupported function: " ++ id)
    end.
Proof. reflexivity. Qed.

Lemma eval_args_at_cons frames a l :
  eval_args_at H frames (a :: l)
  = OutcomeMonad.bind (safe_eval_node_at H a frames)
      (fun v => OutcomeMonad.bind (eval_args_at H frames l)
                  (fun vs => OutcomeMonad.ret (v :: vs))).
Proof. reflexivity. Qed.















End Calculate.


(* ================================================================= *)
(** ** The model on concrete inputs *)

Section Runs.
Import Scripted Examples.

(** C2.  For a response whose tool-call indices first arrive in the
    order 2, 0, 1, the list placed on the assistant message follows the
    order of arrival (the invocations of indices 2, 0, 1), whereas the
    dispatch loop of the same turn takes them in ascending order
    0, 1, 2. *)
Theorem assistant_msg_arrival_order :
  map tc_index (tool_deltas out_of_order) = [2; 0; 1]%Z
  /\ sget "tool_calls" (assistant_msg (aggregate out_of_order))
     = Some (PList
               [ tool_call_record
                   (mk_tool_call (Some "call_c")
                                 (mk_function_entry "get_datetime" ""));
                 tool_call_record
                   (mk_tool_call (Some "call_a")
                                 (mk_function_entry "list_directory" ""));
                 tool_call_record
                   (mk_tool_call (Some "call_b")
                                 (mk_function_entry "get_datetime" "")) ])
  /\ map fst (ordered_calls (tool_calls (aggregate out_of_order)))
     = [0; 1; 2]%Z.
Proof. repeat split. Qed.

(** C1.  A response that asks for [calculate] with blank argument text
    and then for [get_datetime]: the call of [calculate] with no
    argument raises a [TypeError], which nothing catches at the tool
    boundary.  It leaves [stream_agent_turn] and [agent_turn]; the
    transcript gains the assistant message only, no tool message; and
    [get_datetime] is never called. *)
Theorem tool_failure_escapes :
  option_map (fun f : handler => f [] [ChatRequest (messages start)])
             (dict_get String.eqb "calculate"
                       (FUNCTION_MAP (scripted_host [missing_expression])))
  = Some (Raised missing_expression_error)
  /\ fst (stream_agent_turn (scripted_host [missing_expression]) start)
     = Raised missing_expression_error
  /\ messages (snd (stream_agent_turn (scripted_host [missing_expression])
                                      start))
     = messages start ++ [assistant_msg (aggregate missing_expression)]
  /\ trace (snd (stream_agent_turn (scripted_host [missing_expression])
                                   start))
     = [ChatRequest (messages start); ToolCall "calculate" []]
  /\ fst (agent_turn (scripted_host [missing_expression])
                     default_max_iterations start)
     = Raised missing_expression_error.
Proof. vm_compute. repeat split. Qed.

(** C4.  A turn with one tool invocation, [read_file] without
    arguments: the call raises a [TypeError], so the turn does not
    return the incomplete signal, and the transcript gains the
    assistant message but no tool message for the invocation. *)
Theorem tool_turn_raises :
  create_chat (scripted_host [missing_path]) (trace start) (messages start)
  = Returned missing_path
  /\ List.length (tool_calls (aggregate missing_path)) = 1
  /\ fst (stream_agent_turn (scripted_host [missing_path]) start)
     = Raised missing_path_error
  /\ fst (stream_agent_turn (scripted_host [missing_path]) start)
     <> Returned None
  /\ messages (snd (stream_agent_turn (scripted_host [missing_path]) start))
     = messages start ++ [assistant_msg (aggregate missing_path)].
Proof. vm_compute. repeat split; discriminate. Qed.

(** C5.  A response that asks for [read_file] with the argument text
    [[1, 2]] and then for [get_datetime]: the text is valid JSON but no
    key/value payload, and it is not reported as a parse error.
    [func_args.items()] raises an [AttributeError] that leaves
    [stream_agent_turn] and [agent_turn]; the transcript gains the
    assistant message only, no tool message; and the second invocation
    is not processed. *)
Theorem non_object_arguments_escape :
  json_loads (scripted_host [list_as_arguments]) "[1, 2]"
  = Returned (PList [PInt 1; PInt 2])
  /\ fst (stream_agent_turn (scripted_host [list_as_arguments]) start)
     = Raised no_items_error
  /\ messages (snd (stream_agent_turn (scripted_host [list_as_arguments])
                                      start))
     = messages start ++ [assistant_msg (aggregate list_as_arguments)]
  /\ trace (snd (stream_agent_turn (scripted_host [list_as_arguments])
                                   start))
     = [ChatRequest (messages start)]
  /\ fst (agent_turn (scripted_host [list_as_arguments])
                     default_max_iterations start)
     = Raised no_items_error.
Proof. vm_compute. repeat split. Qed.

(** X21 on a call of [calculate] without argument: the [TypeError] of
    the call goes from the loop body through the dispatch loop and the
    turn out of [agent_turn]. *)
Lemma tool_failure_propagates_witness :
  execute_tool_call (scripted_host [missing_expression]) blank_calculate
                    (dispatching start (aggregate missing_expression))
  = (Raised missing_expression_error,
     {| messages :=
          messages start ++ [assistant_msg (aggregate missing_expression)];
        trace := [ChatRequest (messages start); ToolCall "calculate" []] |})
  /\ agent_turn (scripted_host [missing_expression]) default_max_iterations
                start
     = (Raised missing_expression_error,
        after_rounds (scripted_host [missing_expression]) 1 start).
Proof.
  destruct (tool_failure_propagates (scripted_host [missing_expression]))
    as (Hbody & _ & _ & Hagent & _).
  split.
  - apply (Hbody blank_calculate
                 (dispatching start (aggregate missing_expression)) []
                 (call1 "calculate" "expression" None
                        (fun _ => calculate
                                    (scripted_host [missing_expression]))));
      reflexivity.
  - apply (Hagent 0).
    + unfold default_max_iterations. lia.
    + intros j Hj. lia.
    + reflexivity.
Defined.

(** X22 on a turn with three invocations that all return. *)
Lemma tool_turn_incomplete_witness :
  exists tool_msgs,
    fst (stream_agent_turn (scripted_host [out_of_order]) start)
    = Returned None
    /\ messages (snd (stream_agent_turn (scripted_host [out_of_order])
                                        start))
       = messages start ++ assistant_msg (aggregate out_of_order) :: tool_msgs
    /\ Forall2 answers (ordered_calls (tool_calls (aggregate out_of_order)))
               tool_msgs
    /\ List.length tool_msgs = 3.
Proof.
  destruct (tool_turn_incomplete (scripted_host [out_of_order]) start
                                 out_of_order)
    as (tool_msgs & Hr & Hm & Hall & Hlen & _).
  - reflexivity.
  - vm_compute. discriminate.
  - intros e. vm_compute. discriminate.
  - exists tool_msgs. auto.
Defined.

(** X23 on an invocation of [read_file] whose argument text is cut
    short. *)
Lemma invalid_arguments_reported_witness :
  execute_tool_call (scripted_host []) bad_arguments start
  = (Returned tt,
     {| messages :=
          messages start
          ++ [[ ("role", PStr "tool");
                ("tool_call_id", PStr "call_b");
                ("content",
                 PStr (Scripted.encode
                         (PDict [("error",
                                  PStr "Invalid arguments JSON: Expecting property name enclosed in double quotes: line 1 column 2 (char 1)")]))) ]];
        trace := trace start |})
  /\ dispatch_event (scripted_host []) bad_arguments = [].
Proof.
  destruct (invalid_arguments_reported (scripted_host []) bad_arguments start
              (mk_exn JSONDecodeError
                 "Expecting property name enclosed in double quotes: line 1 column 2 (char 1)"))
    as (_ & Hexec & Hnone & _).
  - reflexivity.
  - reflexivity.
  - split; [exact Hexec | exact Hnone].
Defined.

(** C10 on an invocation of [list_directory] whose argument text is two
    spaces: the tool is called with no argument and lists the default
    directory. *)
Lemma blank_arguments_call_tool_witness :
  (parse_arguments (scripted_host []) "  " = Returned (PDict [])
   /\ dispatch_event (scripted_host []) blank_arguments
      = [ToolCall "list_directory" []]
   /\ execute_tool_call (scripted_host []) blank_arguments start
      = (Returned tt,
         {| messages :=
              messages start
              ++ [tool_message blank_arguments
                    (Scripted.encode
                       (PDict [("path", PStr "."); ("count", PInt 0);
                               ("entries", PList [])]))];
            trace := trace start ++ [ToolCall "list_directory" []] |}))
  /\ dispatch_event (scripted_host []) mixed_blank_arguments
     = [ToolCall "get_datetime" []].
Proof.
  split.
  - apply (blank_arguments_call_tool (scripted_host []) blank_arguments start
             (call1 "list_directory" "path" (Some (PStr "."))
                    (list_directory (scripted_host [])))).
    + repeat constructor.
    + reflexivity.
  - destruct (blank_arguments_call_tool
                (scripted_host []) mixed_blank_arguments start
                (fun kwargs hist =>
                   OutcomeMonad.bind
                     (bind_arguments "get_datetime" [] kwargs)
                     (fun _ => get_datetime (scripted_host []) hist)))
      as (_ & Hcall & _).
    + repeat constructor.
    + reflexivity.
    + exact Hcall.
Defined.

(** C6 on a turn with tool invocations and no answer text, and on a
    turn with an answer. *)
Lemma assistant_msg_content_witness :
  sget "content" (assistant_msg (aggregate out_of_order)) = Some PNone
  /\ sget "content" (assistant_msg (aggregate final_answer))
     = Some (PStr "Done.")
  /\ nth_error (messages (snd (stream_agent_turn
                                 (scripted_host [out_of_order]) start))) 2
     = Some (assistant_msg (aggregate out_of_order)).
Proof.
  destruct (assistant_msg_content (scripted_host [out_of_order]) start
                                  out_of_order eq_refl)
    as (Hnth & Habsent & _).
  destruct (assistant_msg_content (scripted_host [final_answer]) start
                                  final_answer eq_refl)
    as (_ & _ & Hverbatim).
  split; [|split].
  - apply Habsent; [vm_compute; discriminate | reflexivity].
  - apply Hverbatim. vm_compute. discriminate.
  - exact Hnth.
Defined.

(** C7 on a run that answers in its second round, and on a run of two
    rounds that are both incomplete. *)
Lemma agent_turn_rounds_witness :
  (agent_turn (scripted_host [out_of_order; final_answer])
              default_max_iterations start
   = (Returned (PStr "Done."),
      after_rounds (scripted_host [out_of_order; final_answer]) 2 start)
   /\ chat_requests
        (trace (after_rounds (scripted_host [out_of_order; final_answer])
                             2 start)) = 2)
  /\ (agent_turn (scripted_host [out_of_order; list_then_time]) 2
                 start
      = (Returned
           (last_content
              (after_rounds
                 (scripted_host [out_of_order; list_then_time])
                 2 start)),
         after_rounds (scripted_host [out_of_order; list_then_time])
                      2 start)
      /\ chat_requests
           (trace (after_rounds
                     (scripted_host [out_of_order; list_then_time])
                     2 start)) = 2
      /\ (0 < 2 ->
          exists tc text,
            last (messages
                    (after_rounds
                       (scripted_host [out_of_order; list_then_time])
                       2 start)) []
            = tool_message tc text
            /\ last_content
                 (after_rounds
                    (scripted_host [out_of_order; list_then_time])
                    2 start)
               = PStr text)).
Proof.
  split.
  - destruct (agent_turn_rounds (scripted_host [out_of_order; final_answer])
                                default_max_iterations start)
      as (_ & _ & Hanswer & _).
    apply (Hanswer 1 "Done.").
    + unfold default_max_iterations. lia.
    + intros j Hj. assert (j = 0) as -> by lia. reflexivity.
    + reflexivity.
  - destruct (agent_turn_rounds
                (scripted_host [out_of_order; list_then_time])
                2 start)
      as (_ & _ & _ & Hexhausted).
    apply Hexhausted.
    + intros j Hj.
      destruct j as [|[|j]]; [reflexivity | reflexivity | lia].
    + discriminate.
Defined.


End Runs.

(* ================================================================= *)
(** ** More on the expression evaluator *)

Ltac eval_cbn :=
  cbn [safe_eval_node_at permitted
       OutcomeMonad.bind OutcomeMonad.ret OutcomeMonad.raise] in *.

Section NodeInduction.
Variable P : node -> Prop.
Hypothesis HConstant : forall value, P (Constant value).
Hypothesis HName : forall id, P (Name id).
Hypothesis HBinOp : forall lhs op rhs, P lhs -> P rhs -> P (BinOp lhs op rhs).
Hypothesis HUnaryOp : forall op operand, P operand -> P (UnaryOp op operand).
Hypothesis HCall : forall func args keywords,
  Forall P args -> P (Call func args keywords).
Hypothesis HExpression : forall body, P body -> P (Expression body).
Hypothesis HOther : forall class_name children,
  P (OtherNode class_name children).

Lemma node_induction : forall n, P n.
Proof.
  fix IH 1. intros [value|id|lhs op rhs|op operand|func args keywords
                   |body|class_name children].
  - apply HConstant.
  - apply HName.
  - apply HBinOp; apply IH.
  - apply HUnaryOp; apply IH.
  - apply HCall. revert args. fix IHargs 1. intros [|a args].
    + constructor.
    + constructor; [apply IH | apply IHargs].
  - apply HExpression, IH.
  - apply HOther.
Qed.
End NodeInduction.

Section AllowList.
Variable H : host.

Lemma eval_args_permitted frames args :
  Forall (fun n => forall v, safe_eval_node_at H n frames = Returned v ->
                             permitted H n = true) args ->
  forall vs, eval_args_at H frames args = Returned vs ->
             forallb (permitted H) args = true.
Proof.
  induction 1 as [|a args Ha _ IH]; intros vs Hvs; [reflexivity|].
  rewrite eval_args_at_cons in Hvs. cbn [forallb].
  destruct (safe_eval_node_at H a frames) as [v|e] eqn:Hev; eval_cbn;
    [|discriminate].
  destruct (eval_args_at H frames args) as [vs'|e] eqn:Hevs; eval_cbn;
    [|discriminate].
  now rewrite (Ha v eq_refl), (IH vs' eq_refl).
Qed.

Lemma permitted_when_evaluated n : forall frames v,
  safe_eval_node_at H n frames = Returned v -> permitted H n = true.
Proof.
  induction n as [value|id|lhs op rhs IHl IHr|op operand IHo
                 |func args keywords IHargs|body IHb|class_name children]
    using node_induction; intros [|d] v Hev;
    try (destruct func; discriminate); try discriminate.
  - eval_cbn. now destruct (is_int_or_float value).
  - eval_cbn. unfold dict_contains.
    now destruct (dict_get String.eqb id (SAFE_CONSTANTS H)).
  - eval_cbn. unfold dict_contains.
    destruct (dict_get op_class_beq op SAFE_OPERATORS); [|discriminate].
    destruct (safe_eval_node_at H lhs d) as [x|e] eqn:Hl; eval_cbn;
      [|discriminate].
    destruct (safe_eval_node_at H rhs d) as [y|e'] eqn:Hr; eval_cbn;
      [|discriminate].
    now rewrite (IHl d x Hl), (IHr d y Hr).
  - eval_cbn. unfold dict_contains.
    destruct (dict_get op_class_beq op SAFE_OPERATORS); [|discriminate].
    destruct (safe_eval_node_at H operand d) as [a|e] eqn:Ho; eval_cbn;
      [|discriminate].
    now rewrite (IHo d a Ho).
  - destruct func as [|id| | | | |]; try discriminate.
    rewrite safe_eval_node_at_Call in Hev. cbn [permitted allowed_target].
    unfold dict_contains.
    destruct (dict_get String.eqb id SAFE_FUNCTIONS); [|discriminate].
    destruct (d <? comprehension_frames H)%nat; [discriminate|].
    destruct (eval_args_at H (d - comprehension_frames H) args)
      as [vs|e] eqn:Hvs; eval_cbn; [|discriminate].
    cbn [andb].
    apply (eval_args_permitted (d - comprehension_frames H) args) with vs;
      [|exact Hvs].
    eapply Forall_impl; [|exact IHargs]. intros a Ha. apply Ha.
  - eval_cbn. now apply (IHb d v).
Qed.

Lemma eval_args_within_frames frames args :
  Forall (fun n => forall v, safe_eval_node_at H n frames = Returned v ->
                             frames_needed H n <= frames) args ->
  forall vs, eval_args_at H frames args = Returned vs ->
             fold_right (fun a m => Nat.max (frames_needed H a) m) 0 args
             <= frames.
Proof.
  induction 1 as [|a args Ha _ IH]; intros vs Hvs; cbn [fold_right];
    [lia|].
  rewrite eval_args_at_cons in Hvs.
  destruct (safe_eval_node_at H a frames) as [v|e] eqn:Hev; eval_cbn;
    [|discriminate].
  destruct (eval_args_at H frames args) as [vs'|e] eqn:Hevs; eval_cbn;
    [|discriminate].
  specialize (Ha v eq_refl). specialize (IH vs' eq_refl). lia.
Qed.

(** A value comes out only where the frames of every visited node
    fit. *)
Lemma returned_within_frames n : forall frames v,
  safe_eval_node_at H n frames = Returned v -> frames_needed H n <= frames.
Proof.
  induction n as [value|id|lhs op rhs IHl IHr|op operand IHo
                 |func args keywords IHargs|body IHb|class_name children]
    using node_induction; intros [|d] v Hev;
    try (destruct func; discriminate); try discriminate;
    cbn [frames_needed]; try lia.
  - eval_cbn.
    destruct (dict_get op_class_beq op SAFE_OPERATORS); [|discriminate].
    destruct (safe_eval_node_at H lhs d) as [x|e] eqn:Hl; eval_cbn;
      [|discriminate].
    destruct (safe_eval_node_at H rhs d) as [y|e'] eqn:Hr; eval_cbn;
      [|discriminate].
    specialize (IHl d x Hl). specialize (IHr d y Hr). lia.
  - eval_cbn.
    destruct (dict_get op_class_beq op SAFE_OPERATORS); [|discriminate].
    destruct (safe_eval_node_at H operand d) as [a|e] eqn:Ho; eval_cbn;
      [|discriminate].
    specialize (IHo d a Ho). lia.
  - destruct func as [|id| | | | |]; try discriminate.
    rewrite safe_eval_node_at_Call in Hev.
    destruct (dict_get String.eqb id SAFE_FUNCTIONS); [|discriminate].
    destruct (Nat.ltb_spec d (comprehension_frames H)) as [Hlt|Hge];
      [discriminate|].
    destruct (eval_args_at H (d - comprehension_frames H) args)
      as [vs|e] eqn:Hvs; eval_cbn; [|discriminate].
    assert (Hargs : fold_right (fun a m => Nat.max (frames_needed H a) m)
                               0 args
                    <= d - comprehension_frames H).
    { apply (eval_args_within_frames (d - comprehension_frames H) args)
        with vs; [|exact Hvs].
      eapply Forall_impl; [|exact IHargs]. intros a Ha. apply Ha. }
    lia.
  - eval_cbn. specialize (IHb d v Hev). lia.
Qed.

Lemma calculate_shape expression p :
  calculate H expression = Returned p ->
  (exists tree v,
     ast_parse H expression = Returned tree
     /\ safe_eval_node H tree = Returned v
     /\ permitted H tree = true
     /\ p = [("expression", expression); ("result", v)])
  \/ (exists msg, p = [("error", PStr msg)]).
Proof.
  unfold calculate.
  destruct (ast_parse H expression) as [tree|e] eqn:Hparse;
    cbn [OutcomeMonad.bind].
  - destruct (safe_eval_node H tree) as [v|e] eqn:Hev;
      cbn [OutcomeMonad.bind OutcomeMonad.ret].
    + intros [= <-]. left. exists tree, v.
      repeat split; auto.
      now apply permitted_when_evaluated with (recursion_budget H) v.
    + destruct (isinstance e SyntaxError); [intros [= <-]; right; eauto|].
      destruct (isinstance e ZeroDivisionError);
        [intros [= <-]; right; eauto|].
      destruct (isinstance e Exception); [intros [= <-]; right; eauto|].
      discriminate.
  - destruct (isinstance e SyntaxError); [intros [= <-]; right; eauto|].
    destruct (isinstance e ZeroDivisionError);
      [intros [= <-]; right; eauto|].
    destruct (isinstance e Exception); [intros [= <-]; right; eauto|].
    discriminate.
Qed.

End AllowList.

(** X1. The allow-list is sound: when [safe_eval_node] returns a value
    for a tree, every node it visited is on the allow-list (an integer,
    float or boolean literal, [pi] or [e], an operator of
    [SAFE_OPERATORS], a call of a function of [SAFE_FUNCTIONS]).  A tree
    with anything else in a visited position never yields a value. *)
Theorem safe_eval_node_permitted (H : host) (n : node) (v : pyval) :
  safe_eval_node H n = Returned v -> permitted H n = true.
Proof. unfold safe_eval_node. apply permitted_when_evaluated. Qed.

(** X2. A payload returned by [calculate] has one of two shapes: the
    success payload, which echoes the expression and holds the value of
    a tree that passes the allow-list, or a payload whose only key is
    ["error"].  So ["error"] is present exactly on failure and a result
    is never mixed with an error. *)
Theorem calculate_result_or_error (H : host) (expression : pyval)
        (p : payload) :
  calculate H expression = Returned p ->
  (exists tree v,
     ast_parse H expression = Returned tree
     /\ safe_eval_node H tree = Returned v
     /\ permitted H tree = true
     /\ p = [("expression", expression); ("result", v)]
     /\ sget "error" p = None)
  \/ (exists msg,
        p = [("error", PStr msg)] /\ sget "result" p = None).
Proof.
  intros Hcalc. destruct (calculate_shape H expression p Hcalc)
    as [(tree & v & Hp & Hv & Hperm & ->)|(msg & ->)].
  - left. exists tree, v. repeat split; auto.
  - right. exists msg. split; reflexivity.
Qed.

(** X25. [calculate] returns a result only for a tree that nests no
    deeper than the recursion limit of the interpreter allows: a tree
    whose evaluation needs more frames than are left yields an error
    payload (the [RecursionError] is caught like any other failure),
    never a result. *)
Theorem result_within_recursion_limit (H : host) (expression : pyval)
        (tree : node) (p : payload) :
  ast_parse H expression = Returned tree ->
  calculate H expression = Returned p ->
  (forall v, sget "result" p = Some v ->
             frames_needed H tree <= recursion_budget H)
  /\ (recursion_budget H < frames_needed H tree ->
      exists msg, p = [("error", PStr msg)]).
Proof.
  intros Hparse Hcalc.
  destruct (calculate_shape H expression p Hcalc)
    as [(tree' & v & Hp & Hv & _ & ->)|(msg & ->)].
  - assert (tree' = tree) as -> by congruence.
    apply returned_within_frames in Hv. split; [auto | lia].
  - split; [discriminate | eauto].
Qed.

(* ================================================================= *)
(** ** Tool schemas and tool signatures *)

Section Binding.

Lemma forallb_filter {A} (g h : A -> bool) (l : list A) :
  (forall x, h x = negb (g x)) ->
  forallb g l = match filter h l with [] => true | _ :: _ => false end.
Proof.
  intros Hgh. induction l as [|x l IH]; [reflexivity|].
  cbn [forallb filter]. rewrite Hgh.
  destruct (g x); cbn [negb andb]; [exact IH | reflexivity].
Qed.

(** [bind_arguments] returns exactly when [binds] holds, and raises a
    [TypeError] otherwise. *)
Lemma bind_arguments_outcome fname params kwargs :
  (binds params kwargs = true
   /\ exists vs, bind_arguments fname params kwargs = Returned vs)
  \/ (binds params kwargs = false
      /\ exists msg,
           bind_arguments fname params kwargs = Raised (mk_exn TypeError msg)).
Proof.
  unfold binds, bind_arguments.
  rewrite (forallb_filter
             (fun kv => dict_contains String.eqb (fst kv) params)
             (fun kv => negb (dict_contains String.eqb (fst kv) params)))
    by reflexivity.
  destruct (filter _ kwargs) as [|[k v] l].
  - rewrite (forallb_filter
               (fun p => match snd p with
                         | None => dict_contains String.eqb (fst p) kwargs
                         | Some _ => true
                         end)
               (fun p => match snd p with
                         | None =>
                             negb (dict_contains String.eqb (fst p) kwargs)
                         | Some _ => false
                         end))
      by (intros [n [d|]]; reflexivity).
    destruct (filter _ params) as [|p l].
    + left. split; [reflexivity | eauto].
    + right. split; [reflexivity | unfold OutcomeMonad.raise; eauto].
  - right. split; [reflexivity | unfold OutcomeMonad.raise; eauto].
Qed.

Lemma existsb_dict_contains {V} k (params : list (string * V)) :
  existsb (String.eqb k) (map fst params)
  = dict_contains String.eqb k params.
Proof.
  unfold dict_contains.
  induction params as [|[n d] params IH]; [reflexivity|].
  cbn [map fst existsb dict_get].
  destruct (String.eqb k n); [reflexivity | exact IH].
Qed.

(** The parameters without default. *)
Lemma schema_accepts_binds tool params kwargs :
  schema_properties tool = map fst params ->
  schema_required tool
  = map fst (filter (fun p => match snd p with
                              | None => true
                              | Some _ => false
                              end) params) ->
  schema_accepts tool kwargs = binds params kwargs.
Proof.
  intros Hprops Hreq. unfold schema_accepts, binds.
  rewrite Hprops, Hreq. f_equal.
  - induction kwargs as [|[k v] kwargs IH]; [reflexivity|].
    cbn [forallb fst]. now rewrite existsb_dict_contains, IH.
  - clear. induction params as [|[n [d|]] params IH]; [reflexivity| |];
      cbn [filter snd fst map forallb]; now rewrite IH.
Qed.

End Binding.

Section Schemas.
Variable H : host.

Lemma call1_accepts tool fname pname default body kwargs hist :
  schema_accepts tool kwargs = binds [(pname, default)] kwargs ->
  (forall v e, body hist v = Raised e -> isinstance e Exception = false) ->
  (schema_accepts tool kwargs = false ->
   exists msg,
     call1 fname pname default body kwargs hist
     = Raised (mk_exn TypeError msg))
  /\ (schema_accepts tool kwargs = true ->
      forall e, call1 fname pname default body kwargs hist = Raised e ->
                isinstance e Exception = false).
Proof.
  intros -> Hbody. unfold call1.
  destruct (bind_arguments_outcome fname [(pname, default)] kwargs)
    as [(-> & vs & ->)|(-> & msg & ->)]; cbn [OutcomeMonad.bind]; split.
  - discriminate.
  - intros _ e. apply Hbody.
  - intros _. now exists msg.
  - discriminate.
Qed.

Lemma tool_schema_signature tool kwargs hist :
  In tool TOOLS ->
  exists name f,
    schema_name tool = Some name
    /\ dict_get String.eqb name (FUNCTION_MAP H) = Some f
    /\ (schema_accepts tool kwargs = false ->
        exists msg, f kwargs hist = Raised (mk_exn TypeError msg))
    /\ (schema_accepts tool kwargs = true ->
        name <> "get_datetime" ->
        forall e, f kwargs hist = Raised e -> isinstance e Exception = false).
Proof.
  intros Hin. unfold TOOLS in Hin. cbn [In] in Hin.
  destruct Hin as [Ht|[Ht|[Ht|[Ht|[Ht|[Ht|[]]]]]]].
  - exists "read_file", (call1 "read_file" "path" None (read_file H)).
    split; [now rewrite <- Ht|]. split; [reflexivity|].
    destruct (call1_accepts tool "read_file" "path" None (read_file H)
                            kwargs hist) as [Hno Hyes].
    + apply schema_accepts_binds; now rewrite <- Ht.
    + intros v e. apply except_Exception_raises.
    + split; [exact Hno | intros Hacc _; now apply Hyes].
  - eexists "write_file", _.
    split; [now rewrite <- Ht|]. split; [reflexivity|].
    rewrite (schema_accepts_binds tool [("path", None); ("content", None)]
                                  kwargs)
      by now rewrite <- Ht.
    destruct (bind_arguments_outcome "write_file"
                [("path", None); ("content", None)] kwargs)
      as [(-> & vs & ->)|(-> & msg & ->)]; cbn [OutcomeMonad.bind]; split.
    + discriminate.
    + intros _ _ e. apply except_Exception_raises.
    + intros _. now exists msg.
    + discriminate.
  - exists "list_directory",
      (call1 "list_directory" "path" (Some (PStr ".")) (list_directory H)).
    split; [now rewrite <- Ht|]. split; [reflexivity|].
    destruct (call1_accepts tool "list_directory" "path" (Some (PStr "."))
                            (list_directory H) kwargs hist) as [Hno Hyes].
    + apply schema_accepts_binds; now rewrite <- Ht.
    + intros v e. apply except_Exception_raises.
    + split; [exact Hno | intros Hacc _; now apply Hyes].
  - exists "run_command",
      (call1 "run_command" "command" None (run_command H)).
    split; [now rewrite <- Ht|]. split; [reflexivity|].
    destruct (call1_accepts tool "run_command" "command" None
                            (run_command H) kwargs hist) as [Hno Hyes].
    + apply schema_accepts_binds; now rewrite <- Ht.
    + intros v e. apply run_command_raises.
    + split; [exact Hno | intros Hacc _; now apply Hyes].
  - exists "calculate",
      (call1 "calculate" "expression" None (fun _ => calculate H)).
    split; [now rewrite <- Ht|]. split; [reflexivity|].
    destruct (call1_accepts tool "calculate" "expression" None
                            (fun _ => calculate H) kwargs hist)
      as [Hno Hyes].
    + apply schema_accepts_binds; now rewrite <- Ht.
    + intros v e. apply calculate_raises.
    + split; [exact Hno | intros Hacc _; now apply Hyes].
  - eexists "get_datetime", _.
    split; [now rewrite <- Ht|]. split; [reflexivity|].
    rewrite (schema_accepts_binds tool [] kwargs) by now rewrite <- Ht.
    destruct (bind_arguments_outcome "get_datetime" [] kwargs)
      as [(-> & vs & ->)|(-> & msg & ->)]; cbn [OutcomeMonad.bind]; split.
    + discriminate.
    + intros _ Hname. now contradiction Hname.
    + intros _. now exists msg.
    + discriminate.
Qed.

End Schemas.

(** X3. The schemas of [TOOLS] and the functions of [FUNCTION_MAP]
    agree.  They name the same tools in the same order; a call whose
    keyword arguments do not fit the tool's schema (an undeclared key,
    or a required property left out) raises a [TypeError]; and a call
    whose arguments fit it raises no [Exception] (for every tool other
    than [get_datetime], whose body has no [try]). *)
Theorem schema_matches_signature (H : host) (tool : pyval)
        (kwargs : payload) (hist : list event) :
  In tool TOOLS ->
  map schema_name TOOLS = map (fun p => Some (fst p)) (FUNCTION_MAP H)
  /\ exists name f,
       schema_name tool = Some name
       /\ dict_get String.eqb name (FUNCTION_MAP H) = Some f
       /\ (schema_accepts tool kwargs = false ->
           exists msg, f kwargs hist = Raised (mk_exn TypeError msg))
       /\ (schema_accepts tool kwargs = true ->
           name <> "get_datetime" ->
           forall e, f kwargs hist = Raised e ->
                     isinstance e Exception = false).
Proof.
  intros Hin. split; [reflexivity|]. now apply tool_schema_signature.
Qed.

(* ================================================================= *)
(** ** Tool bodies over the operating system *)

Section OsTools.
Variable O : os_ops.
Variable H : host.

Lemma slice_to_length n : forall s,
  String.length (slice_to n s) = Nat.min n (String.length s).
Proof.
  induction n as [|n IH]; intros [|c s]; cbn [slice_to String.length Nat.min];
    try reflexivity.
  now rewrite IH.
Qed.

Lemma slice_to_all n : forall s,
  String.length s <= n -> slice_to n s = s.
Proof.
  induction n as [|n IH]; intros [|c s] Hlen; cbn [slice_to String.length] in *;
    try reflexivity; [lia|].
  rewrite IH; [reflexivity | lia].
Qed.

Lemma MAX_OUTPUT_SIZE_nonneg : (0 <= MAX_OUTPUT_SIZE)%Z.
Proof. unfold MAX_OUTPUT_SIZE. lia. Qed.

Lemma captured_bound stream :
  (py_len (captured stream) <= MAX_OUTPUT_SIZE)%Z.
Proof.
  pose proof MAX_OUTPUT_SIZE_nonneg as Hmax.
  unfold captured, py_len. destruct (truthy stream).
  - rewrite slice_to_length. lia.
  - cbn [String.length]. lia.
Qed.

Lemma captured_full stream :
  (py_len (or_empty stream) <= MAX_OUTPUT_SIZE)%Z ->
  captured stream = or_empty stream.
Proof.
  pose proof MAX_OUTPUT_SIZE_nonneg as Hmax.
  unfold captured, py_len. intros Hlen.
  destruct (truthy stream) eqn:Ht.
  - apply slice_to_all. lia.
  - symmetry. now apply truthy_false_or_empty.
Qed.

Lemma nonempty_py_len s : nonempty s = true -> (0 < py_len s)%Z.
Proof. destruct s; [discriminate|]. unfold py_len. cbn [String.length]. lia. Qed.

(** The payload of a run that completed. *)
Lemma run_command_completed hist command result :
  subprocess_run O hist command = Returned result ->
  let stdout := captured (cp_stdout result) in
  let stderr := captured (cp_stderr result) in
  let truncated :=
    ((MAX_OUTPUT_SIZE <? py_len (or_empty (cp_stdout result)))
     || (MAX_OUTPUT_SIZE <? py_len (or_empty (cp_stderr result))))%Z in
  exists p,
    run_command (with_os O H) hist command = Returned p
    /\ sget "stdout" p = Some (PStr stdout)
    /\ sget "stderr" p
       = (if nonempty stderr then Some (PStr stderr) else None)
    /\ sget "truncated" p
       = (if truncated then Some (PBool true) else None).
Proof.
  intros Hrun stdout stderr truncated.
  unfold run_command. cbn [os_run_command with_os].
  unfold run_command_suite. rewrite Hrun.
  cbn [OutcomeMonad.bind OutcomeMonad.ret].
  fold stdout stderr truncated.
  eexists. split; [reflexivity|].
  destruct (nonempty stderr), truncated; repeat split.
Qed.

Lemma run_command_not_completed hist command e p :
  subprocess_run O hist command = Raised e ->
  run_command (with_os O H) hist command = Returned p ->
  sget "stdout" p = None /\ sget "stderr" p = None
  /\ sget "truncated" p = None.
Proof.
  intros Hrun. unfold run_command. cbn [os_run_command with_os].
  unfold run_command_suite. rewrite Hrun. cbn [OutcomeMonad.bind].
  destruct (isinstance e TimeoutExpired); [intros [= <-]; repeat split|].
  destruct (isinstance e Exception); [intros [= <-]; repeat split|].
  discriminate.
Qed.

Lemma run_command_bounds hist command p :
  run_command (with_os O H) hist command = Returned p ->
  (forall s, sget "stdout" p = Some (PStr s) ->
             (py_len s <= MAX_OUTPUT_SIZE)%Z)
  /\ (forall s, sget "stderr" p = Some (PStr s) ->
                (0 < py_len s <= MAX_OUTPUT_SIZE)%Z)
  /\ (forall result,
        subprocess_run O hist command = Returned result ->
        (sget "truncated" p = Some (PBool true) <->
         (MAX_OUTPUT_SIZE < py_len (or_empty (cp_stdout result))
          \/ MAX_OUTPUT_SIZE < py_len (or_empty (cp_stderr result)))%Z)
        /\ (sget "truncated" p = None ->
            sget "stdout" p = Some (PStr (or_empty (cp_stdout result)))
            /\ sget "stderr" p
               = (if nonempty (or_empty (cp_stderr result))
                  then Some (PStr (or_empty (cp_stderr result)))
                  else None))).
Proof.
  intros Hp.
  destruct (subprocess_run O hist command) as [result|e] eqn:Hrun.
  - destruct (run_command_completed hist command result Hrun)
      as (p' & Hp' & Hout & Herr & Htr).
    rewrite Hp in Hp'. injection Hp' as <-.
    split; [|split].
    + intros s Hs. rewrite Hout in Hs. injection Hs as <-.
      apply captured_bound.
    + intros s Hs. rewrite Herr in Hs.
      destruct (nonempty (captured (cp_stderr result))) eqn:Hne;
        [|discriminate].
      injection Hs as <-. split; [now apply nonempty_py_len|].
      apply captured_bound.
    + intros result' [= <-]. rewrite Htr.
      destruct (Z.ltb_spec MAX_OUTPUT_SIZE
                           (py_len (or_empty (cp_stdout result))))
        as [Ho|Ho];
        destruct (Z.ltb_spec MAX_OUTPUT_SIZE
                             (py_len (or_empty (cp_stderr result))))
        as [He|He]; cbn [orb].
      1-3: split; [split; [intros _; lia | reflexivity] | discriminate].
      split; [split; [discriminate | intros [?|?]; lia]|].
      intros _. rewrite Hout, Herr.
      now rewrite !captured_full by lia.
  - destruct (run_command_not_completed hist command e p Hrun Hp)
      as (Hout & Herr & _).
    split; [|split].
    + intros s Hs. rewrite Hout in Hs. discriminate.
    + intros s Hs. rewrite Herr in Hs. discriminate.
    + discriminate.
Qed.

End OsTools.

(** X4. [run_command] bounds what it returns: the ["stdout"] and
    ["stderr"] texts of a payload are at most [MAX_OUTPUT_SIZE] (10240)
    characters long, and ["stderr"] is present only when not empty.
    For a command that completed, ["truncated"] is [True] exactly when
    one of the two streams was longer than that; when the key is
    absent both streams are returned in full. *)
Theorem run_command_output_bounded (O : os_ops) (H : host)
        (hist : list event) (command : pyval) (p : payload) :
  run_command (with_os O H) hist command = Returned p ->
  (forall s, sget "stdout" p = Some (PStr s) ->
             (py_len s <= MAX_OUTPUT_SIZE)%Z)
  /\ (forall s, sget "stderr" p = Some (PStr s) ->
                (0 < py_len s <= MAX_OUTPUT_SIZE)%Z)
  /\ (forall result,
        subprocess_run O hist command = Returned result ->
        (sget "truncated" p = Some (PBool true) <->
         (MAX_OUTPUT_SIZE < py_len (or_empty (cp_stdout result))
          \/ MAX_OUTPUT_SIZE < py_len (or_empty (cp_stderr result)))%Z)
        /\ (sget "truncated" p = None ->
            sget "stdout" p = Some (PStr (or_empty (cp_stdout result)))
            /\ sget "stderr" p
               = (if nonempty (or_empty (cp_stderr result))
                  then Some (PStr (or_empty (cp_stderr result)))
                  else None))).
Proof. apply run_command_bounds. Qed.

Section OsFiles.
Variable O : os_ops.
Variable H : host.

Lemma read_file_content hist path p c :
  read_file (with_os O H) hist path = Returned p ->
  sget "content" p = Some c ->
  exists fp size content,
    resolve O hist path = Returned fp
    /\ path_exists O hist fp = Returned true
    /\ path_is_file O hist fp = Returned true
    /\ st_size O hist fp = Returned size
    /\ (size <= MAX_FILE_SIZE)%Z
    /\ read_text O hist fp = Decoded content
    /\ c = PStr content
    /\ p = [("path", PStr fp); ("content", PStr content);
            ("size", PInt (py_len content))].
Proof.
  unfold read_file, except_Exception. cbn [os_read_file with_os].
  unfold read_file_suite.
  destruct (resolve O hist path) as [fp|e] eqn:Hres;
    cbn [OutcomeMonad.bind];
    [|destruct (isinstance e Exception); [intros [= <-]|]; discriminate].
  destruct (path_exists O hist fp) as [[|]|e] eqn:Hex;
    cbn [OutcomeMonad.bind OutcomeMonad.ret negb];
    [ | intros [= <-]; discriminate
      | destruct (isinstance e Exception); [intros [= <-]|]; discriminate].
  destruct (path_is_file O hist fp) as [[|]|e] eqn:Hfile;
    cbn [OutcomeMonad.bind OutcomeMonad.ret negb];
    [ | intros [= <-]; discriminate
      | destruct (isinstance e Exception); [intros [= <-]|]; discriminate].
  destruct (st_size O hist fp) as [size|e] eqn:Hsize;
    cbn [OutcomeMonad.bind OutcomeMonad.ret];
    [|destruct (isinstance e Exception); [intros [= <-]|]; discriminate].
  destruct (Z.ltb_spec MAX_FILE_SIZE size) as [Hbig|Hsmall].
  - cbn [OutcomeMonad.bind OutcomeMonad.ret]. intros [= <-]. discriminate.
  - destruct (read_text O hist fp) as [content| |e] eqn:Hread.
    + intros [= <-] [= <-]. exists fp, size, content. repeat split; auto.
    + intros [= <-]. discriminate.
    + destruct (isinstance e Exception); [intros [= <-]|]; discriminate.
Qed.

Lemma insert_item_perm x l : Permutation (insert_item x l) (x :: l).
Proof.
  induction l as [|y l IH]; cbn [insert_item]; [reflexivity|].
  destruct (String.leb (item_name x) (item_name y)); [reflexivity|].
  rewrite IH. apply perm_swap.
Qed.

Lemma sorted_items_perm l : Permutation (sorted_items l) l.
Proof.
  induction l as [|x l IH]; cbn [sorted_items]; [reflexivity|].
  rewrite insert_item_perm. now constructor.
Qed.

Lemma insert_item_sorted x l :
  Sorted name_le l -> Sorted name_le (insert_item x l).
Proof.
  induction 1 as [|y l Hs IH Hhd]; cbn [insert_item].
  - repeat constructor.
  - destruct (String.leb (item_name x) (item_name y)) eqn:Hle.
    + constructor; [now constructor|]. now constructor.
    + constructor; [exact IH|].
      assert (Hyx : name_le y x).
      { unfold name_le.
        destruct (String.leb_total (item_name x) (item_name y)); congruence. }
      destruct l as [|z l]; cbn [insert_item]; [now constructor|].
      destruct (String.leb (item_name x) (item_name z));
        constructor; [exact Hyx|]. now inversion Hhd.
Qed.

Lemma sorted_items_sorted l : Sorted name_le (sorted_items l).
Proof.
  induction l as [|x l IH]; cbn [sorted_items]; [constructor|].
  now apply insert_item_sorted.
Qed.

Lemma directory_entry_describes item entry :
  directory_entry item = Returned entry -> describes item entry.
Proof.
  unfold directory_entry, describes.
  destruct (item_is_dir item) as [is_dir|e]; cbn [OutcomeMonad.bind];
    [|discriminate].
  destruct (item_is_file item) as [[|]|e];
    cbn [OutcomeMonad.bind OutcomeMonad.ret]; [| |discriminate].
  - destruct (item_size item) as [size|e];
      cbn [OutcomeMonad.bind OutcomeMonad.ret]; [|discriminate].
    intros [= <-]. exists is_dir, true. repeat split. now exists size.
  - intros [= <-]. exists is_dir, false. repeat split.
Qed.

Lemma directory_entries_describe items : forall entries,
  directory_entries items = Returned entries ->
  Forall2 describes items entries.
Proof.
  induction items as [|item items IH]; intros entries;
    cbn [directory_entries OutcomeMonad.bind OutcomeMonad.ret].
  - intros [= <-]. constructor.
  - destruct (directory_entry item) as [entry|e] eqn:Hentry;
      cbn [OutcomeMonad.bind]; [|discriminate].
    destruct (directory_entries items) as [rest|e];
      cbn [OutcomeMonad.bind OutcomeMonad.ret]; [|discriminate].
    intros [= <-]. constructor; [now apply directory_entry_describes|].
    now apply IH.
Qed.

Lemma list_directory_listing hist path p v :
  list_directory (with_os O H) hist path = Returned p ->
  sget "entries" p = Some v ->
  exists fp items entries,
    resolve O hist path = Returned fp
    /\ path_is_dir O hist fp = Returned true
    /\ iterdir O hist fp = Returned items
    /\ v = PList entries
    /\ sget "count" p = Some (PInt (Z.of_nat (List.length entries)))
    /\ Forall2 describes (sorted_items items) entries
    /\ Sorted name_le (sorted_items items)
    /\ Permutation (sorted_items items) items.
Proof.
  unfold list_directory, except_Exception.
  cbn [os_list_directory with_os]. unfold list_directory_suite.
  destruct (resolve O hist path) as [fp|e] eqn:Hres;
    cbn [OutcomeMonad.bind];
    [|destruct (isinstance e Exception); [intros [= <-]|]; discriminate].
  destruct (path_exists O hist fp) as [[|]|e] eqn:Hex;
    cbn [OutcomeMonad.bind OutcomeMonad.ret negb];
    [ | intros [= <-]; discriminate
      | destruct (isinstance e Exception); [intros [= <-]|]; discriminate].
  destruct (path_is_dir O hist fp) as [[|]|e] eqn:Hdir;
    cbn [OutcomeMonad.bind OutcomeMonad.ret negb];
    [ | intros [= <-]; discriminate
      | destruct (isinstance e Exception); [intros [= <-]|]; discriminate].
  destruct (iterdir O hist fp) as [items|e] eqn:Hiter;
    cbn [OutcomeMonad.bind OutcomeMonad.ret];
    [|destruct (isinstance e Exception); [intros [= <-]|]; discriminate].
  destruct (directory_entries (sorted_items items)) as [entries|e] eqn:Hent;
    cbn [OutcomeMonad.bind OutcomeMonad.ret];
    [|destruct (isinstance e Exception); [intros [= <-]|]; discriminate].
  intros [= <-] [= <-]. exists fp, items, entries.
  repeat split; auto.
  - now apply directory_entries_describe.
  - apply sorted_items_sorted.
  - apply sorted_items_perm.
Qed.

End OsFiles.

(** X5. [read_file] returns a file's content only for a path that
    exists, is a regular file, has a size of at most [MAX_FILE_SIZE]
    (102400 bytes) and decodes as text; the payload then holds the
    resolved path, the text, and as ["size"] the number of characters
    of the text (not the size in bytes that was checked).  A missing
    path, a directory, a larger file or a binary file never yields a
    ["content"]. *)
Theorem read_file_content_guarded (O : os_ops) (H : host)
        (hist : list event) (path : pyval) (p : payload) (c : pyval) :
  read_file (with_os O H) hist path = Returned p ->
  sget "content" p = Some c ->
  exists fp size content,
    resolve O hist path = Returned fp
    /\ path_exists O hist fp = Returned true
    /\ path_is_file O hist fp = Returned true
    /\ st_size O hist fp = Returned size
    /\ (size <= MAX_FILE_SIZE)%Z
    /\ read_text O hist fp = Decoded content
    /\ c = PStr content
    /\ p = [("path", PStr fp); ("content", PStr content);
            ("size", PInt (py_len content))].
Proof. apply read_file_content. Qed.

(** X6. A listing returned by [list_directory] has one entry for each
    item of the directory, in ascending order of name; ["count"] is the
    number of entries; an entry is of type ["dir"] for a directory and
    ["file"] for anything else, and has a ["size"] exactly when the
    item is a regular file. *)
Theorem list_directory_sorted_listing (O : os_ops) (H : host)
        (hist : list event) (path : pyval) (p : payload) (v : pyval) :
  list_directory (with_os O H) hist path = Returned p ->
  sget "entries" p = Some v ->
  exists fp items entries,
    resolve O hist path = Returned fp
    /\ path_is_dir O hist fp = Returned true
    /\ iterdir O hist fp = Returned items
    /\ v = PList entries
    /\ sget "count" p = Some (PInt (Z.of_nat (List.length entries)))
    /\ Forall2 describes (sorted_items items) entries
    /\ Sorted name_le (sorted_items items)
    /\ Permutation (sorted_items items) items.
Proof. apply list_directory_listing. Qed.

(* ================================================================= *)
(** ** More on one turn *)

Section TurnEdges.
Variable H : host.

Lemma FUNCTION_MAP_unregistered name :
  ~ In name registered ->
  dict_get String.eqb name (FUNCTION_MAP H) = None.
Proof.
  intros Hnot. unfold FUNCTION_MAP. cbn [dict_get].
  repeat match goal with
         | |- context [String.eqb name ?k] =>
             destruct (String.eqb_spec name k) as [->|?];
             [exfalso; apply Hnot; cbv; tauto|]
         end.
  reflexivity.
Qed.

Lemma final_turn st response :
  create_chat H (trace st) (messages st) = Returned response ->
  tool_calls (aggregate response) = [] ->
  stream_agent_turn H st
  = (Returned (Some (content (aggregate response))),
     dispatching st (aggregate response)).
Proof.
  intros Hchat Hnone. rewrite stream_agent_turn_unfold, Hchat. cbv zeta.
  now rewrite Hnone.
Qed.

Lemma failed_request st e :
  create_chat H (trace st) (messages st) = Raised e ->
  stream_agent_turn H st
  = (Raised e, {| messages := messages st;
                  trace := trace st ++ [ChatRequest (messages st)] |}).
Proof. intros Hchat. now rewrite stream_agent_turn_unfold, Hchat. Qed.

Lemma agent_turn_first_round n st r st' :
  stream_agent_turn H st = (r, st') ->
  r <> Returned None ->
  agent_turn H (S n) st
  = (match r with
     | Returned (Some answer) => Returned (PStr answer)
     | Returned None => Returned PNone
     | Raised e => Raised e
     end, st').
Proof.
  intros Hturn Hr. unfold agent_turn. cbn [agent_rounds].
  unfold StateMonad.bind. rewrite Hturn.
  destruct r as [[answer|]|e]; [reflexivity | contradiction | reflexivity].
Qed.

End TurnEdges.

(** X7. A turn whose response holds no tool invocation is final: it
    returns the answer text (the empty string when there is none), it
    appends the assistant message and nothing else, that message has no
    ["tool_calls"] field, it sends one request and calls no tool; and
    [agent_turn] stops there with that answer, also when it is
    empty. *)
Theorem final_answer_turn (H : host) (st : state) (response : list chunk)
        (n : nat) :
  create_chat H (trace st) (messages st) = Returned response ->
  tool_calls (aggregate response) = [] ->
  let a := aggregate response in
  let st' := {| messages := messages st ++ [assistant_msg a];
                trace := trace st ++ [ChatRequest (messages st)] |} in
  stream_agent_turn H st = (Returned (Some (content a)), st')
  /\ sget "tool_calls" (assistant_msg a) = None
  /\ agent_turn H (S n) st = (Returned (PStr (content a)), st').
Proof.
  intros Hchat Hnone a st'.
  pose proof (final_turn H st response Hchat Hnone) as Hturn.
  split; [exact Hturn|]. split.
  - unfold assistant_msg. fold a. unfold a. rewrite Hnone.
    destruct (content (aggregate response)),
             (reasoning (aggregate response)); reflexivity.
  - now rewrite (agent_turn_first_round H n st _ _ Hturn).
Qed.

(** X8. An invocation that names no registered tool calls nothing.
    If the three lines the loop prints about it (its name, its
    arguments, the error) print, the loop body returns, leaves the
    trace as it is, and appends one tool message with the role
    ["tool"], the identifier of the invocation, and as content the
    serialised payload [{"error": "Unknown function: <name>"}]; the
    loop then goes on with the remaining invocations.  If printing
    raises (a name or an argument that holds a closing tag of the
    console markup), that exception leaves the loop body and nothing is
    appended. *)
Theorem unknown_tool_reported (H : host) (tc : tool_call) (st : state)
        (kwargs : payload) :
  let func_name := function_name (tool_function tc) in
  parse_arguments H (function_arguments (tool_function tc))
  = Returned (PDict kwargs) ->
  ~ In func_name registered ->
  let problem := ("Unknown function: " ++ func_name)%string in
  let report := PDict [("error", PStr problem)] in
  let printed :=
    OutcomeMonad.bind
      (announce H func_name kwargs)
      (fun _ => console_print H ("  [red]" ++ problem ++ "[/red]")%string) in
  let st' := {| messages :=
                  messages st
                  ++ [[ ("role", PStr "tool");
                        ("tool_call_id", opt_str (tool_id tc));
                        ("content", PStr (json_encode H report)) ]];
                trace := trace st |} in
  execute_tool_call H tc st
  = match printed with
    | Returned _ => (Returned tt, st')
    | Raised e => (Raised e, st)
    end
  /\ dispatch_event H tc = []
  /\ (printed = Returned tt ->
      forall calls idx rest,
        dict_get Z.eqb idx calls = Some tc ->
        execute_tool_calls H calls (idx :: rest) st
        = execute_tool_calls H calls rest st').
Proof.
  intros func_name Hparse Hnot problem report printed st'.
  pose proof (FUNCTION_MAP_unregistered H func_name Hnot) as Hget.
  assert (Hexec : execute_tool_call H tc st
                  = match printed with
                    | Returned _ => (Returned tt, st')
                    | Raised e => (Raised e, st)
                    end).
  { rewrite execute_tool_call_unfold. cbv zeta. fold func_name.
    rewrite Hparse, Hget. unfold printed, announce.
    destruct (print_call H func_name) as [[]|e]; cbn [OutcomeMonad.bind];
      [|reflexivity].
    destruct (print_arguments H kwargs) as [[]|e]; cbn [OutcomeMonad.bind];
      [|reflexivity].
    rewrite report_result_unfold, json_dumps_error.
    unfold print_result. cbn [sget dict_get String.eqb Ascii.eqb Bool.eqb
                              py_str].
    fold problem.
    now destruct (console_print H _) as [[]|e]. }
  split; [exact Hexec|]. split.
  - unfold dispatch_event, dict_contains. fold func_name.
    now rewrite Hparse, Hget.
  - intros Hprinted calls idx rest Hidx. cbn [execute_tool_calls].
    unfold StateMonad.bind at 1. now rewrite Hidx, Hexec, Hprinted.
Qed.

(** X9. Argument text that is valid JSON but not an object (a list, a
    number, a string, [null]) is not reported as an error result: once
    the name of the invocation is printed, the loop body raises
    [AttributeError] before any tool is looked up (or it raises what
    printing the name raised); it appends nothing, and the dispatch
    loop ends there. *)
Theorem non_mapping_arguments_raise (H : host) (tc : tool_call)
        (st : state) (v : pyval) :
  parse_arguments H (function_arguments (tool_function tc)) = Returned v ->
  (forall kwargs, v <> PDict kwargs) ->
  let e := mk_exn AttributeError
                  ("'" ++ type_name v ++ "' object has no attribute 'items'") in
  let raised : outcome unit :=
    match print_call H (function_name (tool_function tc)) with
    | Returned _ => Raised e
    | Raised e' => Raised e'
    end in
  execute_tool_call H tc st = (raised, st)
  /\ dispatch_event H tc = []
  /\ forall calls idx rest,
       dict_get Z.eqb idx calls = Some tc ->
       execute_tool_calls H calls (idx :: rest) st = (raised, st).
Proof.
  intros Hparse Hnot e raised.
  assert (Hexec : execute_tool_call H tc st = (raised, st)).
  { rewrite execute_tool_call_unfold. cbv zeta. unfold raised.
    destruct (print_call H _) as [[]|e0]; [|reflexivity].
    rewrite Hparse.
    destruct v; try reflexivity. now contradiction (Hnot d). }
  split; [exact Hexec|]. split.
  - unfold dispatch_event. rewrite Hparse.
    destruct v; try reflexivity. now contradiction (Hnot d).
  - intros calls idx rest Hidx. cbn [execute_tool_calls].
    unfold StateMonad.bind at 1. rewrite Hidx, Hexec. unfold raised.
    now destruct (print_call H _) as [[]|e0].
Qed.

(** X10. A result that [json.dumps] cannot serialise (a complex number
    out of [calculate], for one) is not turned into an error result:
    after the tool was called (its name and arguments printed) the loop
    body raises the [TypeError] of [json.dumps] and appends no tool
    message. *)
Theorem unserializable_result_raises (H : host) (tc : tool_call)
        (st : state) (kwargs : payload) (f : handler) (result : payload)
        (t : string) :
  let func_name := function_name (tool_function tc) in
  parse_arguments H (function_arguments (tool_function tc))
  = Returned (PDict kwargs) ->
  dict_get String.eqb func_name (FUNCTION_MAP H) = Some f ->
  f kwargs (trace st) = Returned result ->
  unserializable (PDict result) = Some t ->
  execute_tool_call H tc st
  = match announce H func_name kwargs with
    | Raised e => (Raised e, st)
    | Returned _ =>
        (Raised (mk_exn TypeError
                        ("Object of type " ++ t
                         ++ " is not JSON serializable")),
         {| messages := messages st;
            trace := trace st ++ [ToolCall func_name kwargs] |})
    end.
Proof.
  intros func_name Hparse Hget Hcall Hbad.
  rewrite (execute_tool_call_registered H tc st kwargs f Hparse Hget).
  cbv zeta. fold func_name. rewrite Hcall, report_result_unfold.
  unfold json_dumps. unfold unserializable in Hbad.
  destruct (refused (PDict result)) as [[t'|]|]; try discriminate.
  injection Hbad as ->. reflexivity.
Qed.

(** X24. A result that holds an integer of more than 4300 digits (the
    value [calculate] returns for [10 ** 5000], for one) is not turned
    into an error result either: after the tool was called (its name
    and arguments printed) the loop body raises the [ValueError] of
    [json.dumps], which cannot write the integer out, and appends no
    tool message. *)
Theorem long_integer_result_raises (H : host) (tc : tool_call)
        (st : state) (kwargs : payload) (f : handler) (expression : string)
        (z : Z) :
  let func_name := function_name (tool_function tc) in
  parse_arguments H (function_arguments (tool_function tc))
  = Returned (PDict kwargs) ->
  dict_get String.eqb func_name (FUNCTION_MAP H) = Some f ->
  f kwargs (trace st)
  = Returned [("expression", PStr expression); ("result", PInt z)] ->
  (4300 < decimal_digits z)%Z ->
  execute_tool_call H tc st
  = match announce H func_name kwargs with
    | Raised e => (Raised e, st)
    | Returned _ =>
        (Raised (mk_exn ValueError
                        "Exceeds the limit (4300 digits) for integer string conversion; use sys.set_int_max_str_digits() to increase the limit"),
         {| messages := messages st;
            trace := trace st ++ [ToolCall func_name kwargs] |})
    end.
Proof.
  intros func_name Hparse Hget Hcall Hlong.
  rewrite (execute_tool_call_registered H tc st kwargs f Hparse Hget).
  cbv zeta. fold func_name. rewrite Hcall, report_result_unfold.
  unfold json_dumps. cbn [refused].
  apply Z.ltb_lt in Hlong. unfold MAX_STR_DIGITS. now rewrite Hlong.
Qed.

(** X11. The remote service is not asked twice: when the request of a
    round fails, [stream_agent_turn] and [agent_turn] raise that
    failure, the transcript is as it was, and one request was sent. *)
Theorem remote_failure_not_retried (H : host) (n : nat) (st : state)
        (e : exn) :
  create_chat H (trace st) (messages st) = Raised e ->
  let st' := {| messages := messages st;
                trace := trace st ++ [ChatRequest (messages st)] |} in
  stream_agent_turn H st = (Raised e, st')
  /\ agent_turn H (S n) st = (Raised e, st')
  /\ chat_requests (trace st') = S (chat_requests (trace st)).
Proof.
  intros Hchat st'.
  pose proof (failed_request H st e Hchat) as Hturn.
  split; [exact Hturn|]. split.
  - now rewrite (agent_turn_first_round H n st _ _ Hturn).
  - unfold st', chat_requests. cbn [trace].
    rewrite filter_app, length_app. cbn. lia.
Qed.

(** X12. With [max_iterations = 0] the remote service is not contacted
    and the state is left as it is: [agent_turn] returns the content of
    the last message of the transcript ([""] when it has none), and
    raises [IndexError] when the transcript is empty. *)
Theorem agent_turn_no_iteration (H : host) (st : state) :
  agent_turn H 0 st
  = match messages st with
    | [] => (Raised (mk_exn IndexError "list index out of range"), st)
    | _ :: _ => (Returned (last_content st), st)
    end.
Proof.
  unfold agent_turn. cbn [agent_rounds].
  unfold StateMonad.bind, StateMonad.ret, StateMonad.get, StateMonad.raise.
  destruct (messages st) as [|m l] eqn:Hm; [reflexivity|].
  destruct (rev (m :: l)) as [|x l'] eqn:Hrev.
  - apply (f_equal (@List.length _)) in Hrev.
    rewrite length_rev in Hrev. discriminate.
  - unfold last_content. rewrite Hm.
    now rewrite (rev_head_last _ _ _ Hrev).
Qed.

(* ================================================================= *)
(** ** More on the streaming loop *)

Section Arrival.

Lemma dict_contains_keys {V} (d : list (Z * V)) k :
  dict_contains Z.eqb k d = existsb (Z.eqb k) (dict_keys d).
Proof.
  unfold dict_contains, dict_keys.
  induction d as [|[k' v] d IH]; [reflexivity|].
  cbn [dict_get map fst existsb].
  destruct (Z.eqb k k'); [reflexivity | exact IH].
Qed.

Lemma fold_accumulate_keys tcs : forall calls,
  dict_keys (fold_left accumulate_tool_call tcs calls)
  = fold_left see (map tc_index tcs) (dict_keys calls).
Proof.
  induction tcs as [|tc tcs IH]; intros calls; [reflexivity|].
  cbn [fold_left map]. rewrite IH, accumulate_tool_call_keys.
  now rewrite dict_contains_keys.
Qed.

Lemma process_chunk_keys a c :
  dict_keys (tool_calls (process_chunk a c))
  = fold_left see (map tc_index (chunk_tool_deltas c))
              (dict_keys (tool_calls a)).
Proof.
  unfold process_chunk, chunk_tool_deltas, chunk_delta.
  destruct (choices c) as [|ch chs]; [reflexivity|].
  destruct (choice_delta ch) as [d|]; [|reflexivity]. cbn [tool_calls].
  destruct (d_tool_calls d) as [tcs|]; [|reflexivity].
  apply fold_accumulate_keys.
Qed.

Lemma fold_process_chunk_keys response : forall a,
  dict_keys (tool_calls (fold_left process_chunk response a))
  = fold_left see (map tc_index (tool_deltas response))
              (dict_keys (tool_calls a)).
Proof.
  induction response as [|c response IH]; intros a; [reflexivity|].
  cbn [fold_left tool_deltas flat_map].
  rewrite IH, process_chunk_keys, map_app, fold_left_app. reflexivity.
Qed.

Lemma dict_values_lookup {V} (d : list (Z * V)) :
  NoDup (dict_keys d) ->
  map (fun k => dict_get Z.eqb k d) (dict_keys d)
  = map Some (dict_values d).
Proof.
  unfold dict_keys, dict_values.
  induction d as [|[k v] d IH]; intros Hnd; [reflexivity|].
  cbn [map fst snd] in *. inversion Hnd as [|? ? Hnin Hnd']; subst.
  cbn [dict_get]. rewrite Z.eqb_refl. f_equal.
  rewrite <- (IH Hnd'). apply map_ext_in. intros k' Hin.
  cbn [dict_get].
  destruct (Z.eqb_spec k' k) as [->|]; [contradiction | reflexivity].
Qed.

Lemma truthy_nonempty o : truthy o = nonempty (or_empty o).
Proof. now destruct o. Qed.

Lemma process_chunk_silent a c :
  silent c = true -> process_chunk a c = a.
Proof.
  unfold silent, reasoning_slice, answer_slice, chunk_tool_deltas,
    chunk_delta, process_chunk.
  destruct (choices c) as [|ch chs]; [reflexivity|].
  destruct (choice_delta ch) as [d|]; [|reflexivity].
  rewrite !truthy_nonempty.
  destruct (nonempty (or_empty (d_reasoning_content d))); [discriminate|].
  destruct (nonempty (or_empty (d_content d))); [discriminate|].
  cbn [negb andb].
  destruct (d_tool_calls d) as [[|tc tcs]|]; try discriminate;
    intros _; now destruct a.
Qed.

Lemma fold_process_chunk_silent response : forall a,
  fold_left process_chunk (filter (fun c => negb (silent c)) response) a
  = fold_left process_chunk response a.
Proof.
  induction response as [|c response IH]; intros a; [reflexivity|].
  cbn [filter fold_left]. destruct (silent c) eqn:Hs; cbn [negb].
  - now rewrite (process_chunk_silent a c Hs).
  - cbn [fold_left]. apply IH.
Qed.

End Arrival.

(** X13. The invocations are held, and placed on the assistant message,
    in the order in which their indices first arrive: the keys of the
    aggregated [tool_calls] are the distinct indices of the deltas in
    order of first occurrence, each key holds the invocation assembled
    from its deltas, and the list on the assistant message is the list
    of these invocations in that order. *)
Theorem tool_calls_in_arrival_order (response : list chunk) :
  let a := aggregate response in
  dict_keys (tool_calls a) = first_seen (map tc_index (tool_deltas response))
  /\ map Some (dict_values (tool_calls a))
     = map (fun idx => assembled idx (tool_deltas response))
           (dict_keys (tool_calls a))
  /\ (tool_calls a <> [] ->
      sget "tool_calls" (assistant_msg a)
      = Some (PList (map tool_call_record (dict_values (tool_calls a))))).
Proof.
  intros a. split; [|split].
  - unfold a, aggregate. now rewrite fold_process_chunk_keys.
  - rewrite <- dict_values_lookup by apply aggregate_NoDup.
    apply map_ext. intros idx. unfold a, aggregate.
    destruct (fold_process_chunk response
                {| reasoning := ""; content := ""; tool_calls := [] |} [])
      as (_ & _ & Hasm); [intros k; reflexivity|].
    apply Hasm.
  - intros Hne. unfold assistant_msg.
    destruct (tool_calls a) as [|p calls]; [contradiction|].
    destruct (content a), (reasoning a); reflexivity.
Qed.

(** X14. Fragments that carry nothing (no choice, no delta, or a delta
    whose texts are absent or empty and that has no tool-call delta) do
    not change what is aggregated: dropping them from a response gives
    the same aggregated state. *)
Theorem silent_chunks_ignored (response : list chunk) :
  aggregate (filter (fun c => negb (silent c)) response)
  = aggregate response.
Proof. unfold aggregate. apply fold_process_chunk_silent. Qed.

(** X15. The fields of the assistant message: ["role"] is always
    ["assistant"]; ["reasoning_content"] is present exactly when there
    is reasoning text; ["tool_calls"] exactly when there is an
    invocation; ["content"] holds the answer text when there is one, is
    [None] when there is none but an invocation, and is missing when
    there is neither. *)
Theorem assistant_msg_fields (a : aggregation) :
  let m := assistant_msg a in
  sget "role" m = Some (PStr "assistant")
  /\ sget "reasoning_content" m
     = (if nonempty (reasoning a) then Some (PStr (reasoning a)) else None)
  /\ sget "tool_calls" m
     = match tool_calls a with
       | [] => None
       | _ :: _ =>
           Some (PList (map tool_call_record (dict_values (tool_calls a))))
       end
  /\ sget "content" m
     = (if nonempty (content a) then Some (PStr (content a))
        else match tool_calls a with
             | [] => None
             | _ :: _ => Some PNone
             end).
Proof.
  unfold assistant_msg.
  destruct (content a), (reasoning a), (tool_calls a); repeat split.
Qed.

(* ================================================================= *)
(** ** REPL and CLI *)

Section CallerFacts.
Variable SYSTEM_PROMPT : string.
Variable get_client : outcome host.
Variable print_error : exn -> string -> outcome unit.
Hypothesis print_error_returns :
  forall e context, print_error e context = Returned tt.

Lemma agent_rounds_trace (H : host) n : forall st,
  exists evs, trace (snd (agent_rounds H n st)) = trace st ++ evs.
Proof.
  induction n as [|n IH]; intros st; cbn [agent_rounds].
  - exists []. now rewrite app_nil_r.
  - unfold StateMonad.bind.
    destruct (stream_agent_turn H st) as [r st1] eqn:Hturn.
    apply stream_agent_turn_effect in Hturn as (_ & evs & _ & Ht & _).
    destruct r as [[answer|]|e]; cbn [snd StateMonad.ret].
    + eexists. exact Ht.
    + destruct (IH st1) as (evs' & Ht'). rewrite Ht', Ht.
      rewrite <- app_assoc. eexists. reflexivity.
    + eexists. exact Ht.
Qed.

(** [agent_turn] with at least one round starts by sending the
    transcript it was given. *)
Lemma agent_turn_first_request (H : host) n st :
  exists evs,
    trace (snd (agent_turn H (S n) st))
    = trace st ++ ChatRequest (messages st) :: evs.
Proof.
  rewrite agent_turn_state. cbn [agent_rounds]. unfold StateMonad.bind.
  destruct (stream_agent_turn H st) as [r st1] eqn:Hturn.
  apply stream_agent_turn_effect in Hturn as (_ & evs & _ & Ht & _).
  destruct r as [[answer|]|e]; cbn [snd StateMonad.ret].
  - eexists. exact Ht.
  - destruct (agent_rounds_trace H n st1) as (evs' & Ht').
    rewrite Ht', Ht, <- app_assoc. cbn [app]. eexists. reflexivity.
  - eexists. exact Ht.
Qed.

Lemma agent_turn_appends (H : host) n st :
  exists msgs, messages (snd (agent_turn H n st)) = messages st ++ msgs.
Proof. rewrite agent_turn_state. apply agent_rounds_effect. Qed.

Lemma agent_turn_trace (H : host) n st :
  exists evs, trace (snd (agent_turn H n st)) = trace st ++ evs.
Proof. rewrite agent_turn_state. apply agent_rounds_trace. Qed.

Lemma reporting_state {A} context (body : M A) s :
  snd (reporting print_error context body s) = snd (body s).
Proof.
  unfold reporting. destruct (body s) as [[a|e] s']; [reflexivity|].
  now destruct (isinstance e Exception).
Qed.

Lemma reporting_outcome {A} context (body : M A) s e :
  fst (reporting print_error context body s) = Raised e ->
  isinstance e Exception = false.
Proof.
  unfold reporting. destruct (body s) as [[a|e'] s']; [discriminate|].
  destruct (isinstance e' Exception) eqn:He'; cbn [fst].
  - now rewrite print_error_returns.
  - now intros [= <-].
Qed.

Lemma with_client_outcome (body : host -> M unit) s e :
  (forall client s0 e0,
     fst (body client s0) = Raised e0 -> isinstance e0 Exception = false) ->
  fst (with_client get_client print_error body s) = Raised e ->
  isinstance e Exception = false.
Proof.
  intros Hbody. unfold with_client.
  destruct get_client as [client|e']; [apply Hbody|].
  destruct (isinstance e' Exception) eqn:He'; cbn [fst].
  - now rewrite print_error_returns.
  - now intros [= <-].
Qed.

Lemma single_query_with_client client query s :
  get_client = Returned client ->
  single_query SYSTEM_PROMPT get_client print_error query s
  = let asked := {| messages := [system_message SYSTEM_PROMPT;
                                 user_message query];
                    trace := trace s |} in
    match print_query client query with
    | Raised e => (Raised e, asked)
    | Returned _ =>
        reporting print_error "Agent error"
                  (agent_turn client default_max_iterations) asked
    end.
Proof.
  intros Hclient. unfold single_query, with_client. rewrite Hclient.
  unfold StateMonad.bind, reset_messages, StateMonad.lift.
  now destruct (print_query client query) as [[]|e].
Qed.

Lemma single_query_without_client query s e :
  get_client = Raised e -> isinstance e Exception = true ->
  single_query SYSTEM_PROMPT get_client print_error query s
  = (Returned tt, s).
Proof.
  intros Hclient He. unfold single_query, with_client.
  now rewrite Hclient, He, print_error_returns.
Qed.

Lemma single_query_facts query s :
  (forall e,
     get_client = Raised e -> isinstance e Exception = true ->
     single_query SYSTEM_PROMPT get_client print_error query s
     = (Returned tt, s))
  /\ (forall client,
        get_client = Returned client ->
        (forall e,
           print_query client query = Raised e ->
           single_query SYSTEM_PROMPT get_client print_error query s
           = (Raised e,
              {| messages := [system_message SYSTEM_PROMPT;
                              user_message query];
                 trace := trace s |}))
        /\ (print_query client query = Returned tt ->
            (forall e,
               fst (single_query SYSTEM_PROMPT get_client print_error
                                 query s) = Raised e ->
               isinstance e Exception = false)
            /\ exists evs,
                 trace (snd (single_query SYSTEM_PROMPT get_client
                                          print_error query s))
                 = trace s
                   ++ ChatRequest [system_message SYSTEM_PROMPT;
                                   user_message query] :: evs))
  /\ (forall e,
        fst (single_query SYSTEM_PROMPT get_client print_error query s)
        = Raised e ->
        isinstance e Exception = true ->
        exists client,
          get_client = Returned client
          /\ print_query client query = Raised e).
Proof.
  split; [|split].
  - intros e. apply single_query_without_client.
  - intros client Hclient.
    rewrite (single_query_with_client client query s Hclient). cbv zeta.
    split.
    + now intros e ->.
    + intros ->. split.
      * intros e. apply reporting_outcome.
      * rewrite reporting_state. unfold default_max_iterations.
        destruct (agent_turn_first_request client 9
                    {| messages := [system_message SYSTEM_PROMPT;
                                    user_message query];
                       trace := trace s |}) as (evs & Ht).
        exists evs. exact Ht.
  - intros e Hraise He.
    pose proof (fun client => single_query_with_client client query s)
      as Hwith.
    destruct get_client as [client|e'].
    + exists client. split; [reflexivity|].
      rewrite (Hwith client eq_refl) in Hraise.
      cbv zeta in Hraise.
      destruct (print_query client query) as [[]|e0].
      * apply reporting_outcome in Hraise. congruence.
      * cbn [fst] in Hraise. congruence.
    + exfalso. unfold single_query, with_client in Hraise.
      destruct (isinstance e' Exception) eqn:He'; cbn [fst] in Hraise.
      * now rewrite print_error_returns in Hraise.
      * injection Hraise as ->. congruence.
Qed.

Lemma demo_loop_outcome client queries : forall i s e,
  fst (demo_loop SYSTEM_PROMPT print_error client i queries s) = Raised e ->
  isinstance e Exception = false.
Proof.
  induction queries as [|q queries IH]; intros i s e; cbn [demo_loop].
  - discriminate.
  - unfold StateMonad.bind, reset_messages.
    destruct (reporting print_error _ _ _) as [[[]|e'] s'] eqn:Hrep.
    + apply IH.
    + cbn [fst]. intros [= <-].
      apply (f_equal fst) in Hrep. cbn [fst] in Hrep.
      now apply reporting_outcome in Hrep.
Qed.

Lemma demo_loop_trace client queries : forall i s,
  exists evs,
    trace (snd (demo_loop SYSTEM_PROMPT print_error client i queries s))
    = trace s ++ evs.
Proof.
  induction queries as [|q queries IH]; intros i s; cbn [demo_loop].
  - exists []. now rewrite app_nil_r.
  - unfold StateMonad.bind, reset_messages.
    destruct (reporting print_error _ _ _) as [[[]|e'] s'] eqn:Hrep.
    + destruct (IH (S i) s') as (evs & ->).
      apply (f_equal snd) in Hrep. rewrite reporting_state in Hrep.
      cbn [snd] in Hrep. rewrite <- Hrep.
      destruct (agent_turn_trace client default_max_iterations
                  {| messages := [system_message SYSTEM_PROMPT;
                                  user_message q];
                     trace := trace s |}) as (evs' & ->).
      cbn [trace]. rewrite <- app_assoc. eexists. reflexivity.
    + apply (f_equal snd) in Hrep. rewrite reporting_state in Hrep.
      cbn [snd] in *. rewrite <- Hrep.
      apply (agent_turn_trace client default_max_iterations
               {| messages := [system_message SYSTEM_PROMPT; user_message q];
                  trace := trace s |}).
Qed.

Lemma demo_loop_requests client queries : forall i s,
  fst (demo_loop SYSTEM_PROMPT print_error client i queries s)
  = Returned tt ->
  forall q, In q queries ->
  In (ChatRequest [system_message SYSTEM_PROMPT; user_message q])
     (trace (snd (demo_loop SYSTEM_PROMPT print_error client i queries s))).
Proof.
  induction queries as [|q0 queries IH]; intros i s Hret q Hin;
    [contradiction|].
  cbn [demo_loop] in *. unfold StateMonad.bind, reset_messages in *.
  destruct (reporting print_error _ _ _) as [[[]|e'] s'] eqn:Hrep;
    [|discriminate].
  assert (Hfirst : In (ChatRequest [system_message SYSTEM_PROMPT;
                                    user_message q0]) (trace s')).
  { apply (f_equal snd) in Hrep. rewrite reporting_state in Hrep.
    cbn [snd] in Hrep. rewrite <- Hrep. unfold default_max_iterations.
    destruct (agent_turn_first_request client 9
                {| messages := [system_message SYSTEM_PROMPT;
                                user_message q0];
                   trace := trace s |}) as (evs & ->).
    cbn [messages trace]. apply in_or_app. right. now left. }
  destruct Hin as [<-|Hin].
  - destruct (demo_loop_trace client queries (S i) s') as (evs & ->).
    apply in_or_app. now left.
  - now apply IH.
Qed.

End CallerFacts.

(** X16. [single_query] contains the failures of [get_client] and of
    the agent (given that [print_error] returns), but not those of the
    line that shows the query, which is printed outside the [try]
    blocks.  A failure of [get_client] is reported and nothing is sent.
    With a client, when printing the query raises (a query that holds a
    closing tag of the console markup), that exception leaves
    [single_query] and nothing is sent; when the query prints, no
    [Exception] leaves [single_query], the first request carries the
    transcript made of the system message and the query, and a failure
    of the agent is reported.  So the only [Exception] that can leave
    [single_query] is one raised by printing the query. *)
Theorem single_query_contained (SYSTEM_PROMPT : string)
        (get_client : outcome host)
        (print_error : exn -> string -> outcome unit)
        (query : string) (s : state) :
  (forall e context, print_error e context = Returned tt) ->
  (forall e,
     get_client = Raised e -> isinstance e Exception = true ->
     single_query SYSTEM_PROMPT get_client print_error query s
     = (Returned tt, s))
  /\ (forall client,
        get_client = Returned client ->
        (forall e,
           print_query client query = Raised e ->
           single_query SYSTEM_PROMPT get_client print_error query s
           = (Raised e,
              {| messages := [system_message SYSTEM_PROMPT;
                              user_message query];
                 trace := trace s |}))
        /\ (print_query client query = Returned tt ->
            (forall e,
               fst (single_query SYSTEM_PROMPT get_client print_error
                                 query s) = Raised e ->
               isinstance e Exception = false)
            /\ exists evs,
                 trace (snd (single_query SYSTEM_PROMPT get_client
                                          print_error query s))
                 = trace s
                   ++ ChatRequest [system_message SYSTEM_PROMPT;
                                   user_message query] :: evs))
  /\ (forall e,
        fst (single_query SYSTEM_PROMPT get_client print_error query s)
        = Raised e ->
        isinstance e Exception = true ->
        exists client,
          get_client = Returned client
          /\ print_query client query = Raised e).
Proof. intros Hpe. now apply single_query_facts. Qed.

(** X17. [demo] lets no [Exception] out (given that [print_error]
    returns).  A failure of [get_client] is reported and nothing is
    sent.  With a client, the failure of one query does not stop the
    next: when [demo] returns, each of the three queries was sent to
    the remote service on a transcript of its own, made of the system
    message and that query. *)
Theorem demo_runs_every_query (SYSTEM_PROMPT : string)
        (get_client : outcome host)
        (print_error : exn -> string -> outcome unit) (s : state) :
  (forall e context, print_error e context = Returned tt) ->
  (forall e,
     fst (demo SYSTEM_PROMPT get_client print_error s) = Raised e ->
     isinstance e Exception = false)
  /\ (forall e,
        get_client = Raised e -> isinstance e Exception = true ->
        demo SYSTEM_PROMPT get_client print_error s = (Returned tt, s))
  /\ (forall client,
        get_client = Returned client ->
        fst (demo SYSTEM_PROMPT get_client print_error s) = Returned tt ->
        forall q, In q demo_queries ->
        In (ChatRequest [system_message SYSTEM_PROMPT; user_message q])
           (trace (snd (demo SYSTEM_PROMPT get_client print_error s)))).
Proof.
  intros Hpe. split; [|split].
  - intros e. unfold demo. apply with_client_outcome; [exact Hpe|].
    intros client s0 e0. now apply demo_loop_outcome.
  - intros e Hclient He. unfold demo, with_client.
    now rewrite Hclient, He, Hpe.
  - intros client Hclient. unfold demo, with_client. rewrite Hclient.
    intros Hret q Hin. now apply demo_loop_requests.
Qed.

Section ReplFacts.
Variable SYSTEM_PROMPT : string.
Variable get_client : outcome host.
Variable print_error : exn -> string -> outcome unit.

Lemma lower_nonempty u v :
  (lower u =? v) = true -> nonempty v = true -> nonempty u = true.
Proof.
  intros Heq Hv. apply String.eqb_eq in Heq. subst v.
  now destruct u.
Qed.

Lemma is_quit_nonempty u : is_quit u = true -> nonempty u = true.
Proof.
  unfold is_quit. intros Hq. apply orb_true_iff in Hq as [Hq|Hq];
    now apply (lower_nonempty u _ Hq).
Qed.

Lemma is_clear_nonempty u : is_clear u = true -> nonempty u = true.
Proof. unfold is_clear. intros Hc. now apply (lower_nonempty u _ Hc). Qed.

Lemma is_clear_not_quit u : is_clear u = true -> is_quit u = false.
Proof.
  unfold is_clear, is_quit. intros Hc. apply String.eqb_eq in Hc.
  now rewrite Hc.
Qed.

Lemma bind_bind {A B C} (m : M A) (f : A -> M B) (g : B -> M C) s :
  StateMonad.bind (StateMonad.bind m f) g s
  = StateMonad.bind m (fun x => StateMonad.bind (f x) g) s.
Proof.
  unfold StateMonad.bind. now destruct (m s) as [[a|e] s'].
Qed.

Lemma bind_ext_state {A B} (m : M A) (f g : A -> M B) s :
  (forall a s', f a s' = g a s') ->
  StateMonad.bind m f s = StateMonad.bind m g s.
Proof.
  intros Hfg. unfold StateMonad.bind.
  destruct (m s) as [[a|e] s']; [apply Hfg | reflexivity].
Qed.

Lemma repl_turn_messages client s :
  exists msgs,
    messages (snd (repl_turn print_error client s)) = messages s ++ msgs.
Proof.
  unfold repl_turn.
  destruct (agent_turn_appends client default_max_iterations s)
    as (msgs & Hm).
  destruct (agent_turn client default_max_iterations s) as [[v|e] s'];
    cbn [snd] in *; [now exists msgs|].
  destruct (isinstance e KeyboardInterrupt); [now exists msgs|].
  destruct (isinstance e Exception); now exists msgs.
Qed.

Lemma repl_loop_quit client before line after : forall s,
  is_quit (strip line) = true ->
  repl_loop SYSTEM_PROMPT print_error client (before ++ line :: after) s
  = repl_loop SYSTEM_PROMPT print_error client before s.
Proof.
  intros s Hquit. revert s.
  induction before as [|l before IH]; intros s; cbn [app repl_loop].
  - now rewrite (is_quit_nonempty _ Hquit), Hquit.
  - destruct (nonempty (strip l)); cbn [negb]; [|apply IH].
    destruct (is_quit (strip l)); [reflexivity|].
    destruct (is_clear (strip l)); unfold StateMonad.bind.
    + destruct (reset_messages _ s) as [[[]|e] s1]; [apply IH | reflexivity].
    + destruct (StateMonad.append _ s) as [[[]|e] s1]; [|reflexivity].
      destruct (repl_turn print_error client s1) as [[[]|e] s2];
        [apply IH | reflexivity].
Qed.

Lemma repl_loop_blank client before line after : forall s,
  strip line = "" ->
  repl_loop SYSTEM_PROMPT print_error client (before ++ line :: after) s
  = repl_loop SYSTEM_PROMPT print_error client (before ++ after) s.
Proof.
  intros s Hblank. revert s.
  induction before as [|l before IH]; intros s; cbn [app repl_loop].
  - now rewrite Hblank.
  - destruct (nonempty (strip l)); cbn [negb]; [|apply IH].
    destruct (is_quit (strip l)); [reflexivity|].
    destruct (is_clear (strip l)); unfold StateMonad.bind.
    + destruct (reset_messages _ s) as [[[]|e] s1]; [apply IH | reflexivity].
    + destruct (StateMonad.append _ s) as [[[]|e] s1]; [|reflexivity].
      destruct (repl_turn print_error client s1) as [[[]|e] s2];
        [apply IH | reflexivity].
Qed.

Lemma repl_loop_clear client before line after : forall s,
  Forall (fun l => is_quit (strip l) = false) before ->
  is_clear (strip line) = true ->
  repl_loop SYSTEM_PROMPT print_error client (before ++ line :: after) s
  = StateMonad.bind
      (repl_loop SYSTEM_PROMPT print_error client before)
      (fun _ =>
         StateMonad.bind (reset_messages [system_message SYSTEM_PROMPT])
           (fun _ => repl_loop SYSTEM_PROMPT print_error client after)) s.
Proof.
  intros s Hnoquit Hclear. revert s.
  induction Hnoquit as [|l before Hl _ IH]; intros s; cbn [app repl_loop].
  - rewrite (is_clear_nonempty _ Hclear), (is_clear_not_quit _ Hclear),
      Hclear.
    reflexivity.
  - rewrite Hl. destruct (nonempty (strip l)); cbn [negb]; [|apply IH].
    destruct (is_clear (strip l)).
    + rewrite bind_bind. apply bind_ext_state. intros _ s1. apply IH.
    + rewrite bind_bind. apply bind_ext_state. intros _ s1.
      rewrite bind_bind. apply bind_ext_state. intros _ s2. apply IH.
Qed.

Lemma repl_loop_head client lines : forall s tail,
  messages s = system_message SYSTEM_PROMPT :: tail ->
  exists tail',
    messages (snd (repl_loop SYSTEM_PROMPT print_error client lines s))
    = system_message SYSTEM_PROMPT :: tail'.
Proof.
  induction lines as [|l lines IH]; intros s tail Hs; cbn [repl_loop].
  - now exists tail.
  - destruct (nonempty (strip l)); cbn [negb]; [|now apply IH with tail].
    destruct (is_quit (strip l)); [now exists tail|].
    destruct (is_clear (strip l)); unfold StateMonad.bind.
    + cbn [reset_messages]. now apply IH with [].
    + unfold StateMonad.append.
      destruct (repl_turn_messages client
                  {| messages := messages s ++ [user_message (strip l)];
                     trace := trace s |}) as (msgs & Hm).
      cbn [messages] in Hm.
      destruct (repl_turn print_error client _) as [[[]|e] s2];
        cbn [snd] in *.
      * apply IH with ((tail ++ [user_message (strip l)]) ++ msgs).
        now rewrite Hm, Hs.
      * rewrite Hm, Hs. eexists. reflexivity.
Qed.

Hypothesis print_error_returns :
  forall e context, print_error e context = Returned tt.

Lemma repl_turn_outcome client s e :
  fst (repl_turn print_error client s) = Raised e ->
  isinstance e Exception = false /\ isinstance e KeyboardInterrupt = false.
Proof.
  unfold repl_turn.
  destruct (agent_turn client default_max_iterations s) as [[v|e'] s'];
    [discriminate|].
  destruct (isinstance e' KeyboardInterrupt) eqn:Hk; [discriminate|].
  destruct (isinstance e' Exception) eqn:He; cbn [fst].
  - now rewrite print_error_returns.
  - intros [= <-]. auto.
Qed.

Lemma repl_loop_outcome client lines : forall s e,
  fst (repl_loop SYSTEM_PROMPT print_error client lines s) = Raised e ->
  isinstance e Exception = false /\ isinstance e KeyboardInterrupt = false.
Proof.
  induction lines as [|l lines IH]; intros s e; cbn [repl_loop].
  - discriminate.
  - destruct (nonempty (strip l)); cbn [negb]; [|apply IH].
    destruct (is_quit (strip l)); [discriminate|].
    destruct (is_clear (strip l)); unfold StateMonad.bind.
    + cbn [reset_messages]. apply IH.
    + unfold StateMonad.append.
      destruct (repl_turn print_error client _) as [[[]|e'] s2] eqn:Hturn.
      * apply IH.
      * cbn [fst]. intros [= <-].
        apply (f_equal fst) in Hturn. cbn [fst] in Hturn.
        now apply repl_turn_outcome in Hturn.
Qed.

End ReplFacts.

(** X18. [repl] contains the failures of the agent (given that
    [print_error] returns): no [Exception] leaves it, and once the
    client is there no [KeyboardInterrupt] raised during a turn leaves
    it either; and whatever was typed, the transcript it works on
    starts with the system message. *)
Theorem repl_contained (SYSTEM_PROMPT : string) (get_client : outcome host)
        (print_error : exn -> string -> outcome unit)
        (lines : list string) (s : state) :
  (forall e context, print_error e context = Returned tt) ->
  (forall e,
     fst (repl SYSTEM_PROMPT get_client print_error lines s) = Raised e ->
     isinstance e Exception = false)
  /\ (forall client,
        get_client = Returned client ->
        (forall e,
           fst (repl SYSTEM_PROMPT get_client print_error lines s)
           = Raised e ->
           isinstance e KeyboardInterrupt = false)
        /\ exists tail,
             messages (snd (repl SYSTEM_PROMPT get_client print_error
                                 lines s))
             = system_message SYSTEM_PROMPT :: tail).
Proof.
  intros Hpe. split.
  - intros e. unfold repl. apply with_client_outcome; [exact Hpe|].
    intros client s0 e0. unfold StateMonad.bind. cbn [reset_messages].
    intros Hr. now apply (repl_loop_outcome _ _ Hpe) in Hr.
  - intros client Hclient. unfold repl, with_client. rewrite Hclient.
    unfold StateMonad.bind. cbn [reset_messages]. split.
    + intros e Hr. now apply (repl_loop_outcome _ _ Hpe) in Hr.
    + now apply repl_loop_head with [].
Qed.

(** X19. In [repl], a line that reads [quit] or [exit] (in any case,
    with blanks around) ends the session, so what is typed after it has
    no effect; and a blank line has no effect at all. *)
Theorem repl_quit_and_blank (SYSTEM_PROMPT : string)
        (get_client : outcome host)
        (print_error : exn -> string -> outcome unit)
        (before : list string) (line : string) (after : list string)
        (s : state) :
  (is_quit (strip line) = true ->
   repl SYSTEM_PROMPT get_client print_error (before ++ line :: after) s
   = repl SYSTEM_PROMPT get_client print_error before s)
  /\ (strip line = "" ->
      repl SYSTEM_PROMPT get_client print_error (before ++ line :: after) s
      = repl SYSTEM_PROMPT get_client print_error (before ++ after) s).
Proof.
  unfold repl, with_client.
  split; intros Hline; (destruct get_client as [client|e]; [|reflexivity]);
    unfold StateMonad.bind; cbn [reset_messages].
  - now apply repl_loop_quit.
  - now apply repl_loop_blank.
Qed.

(** X20. In [repl], [clear] starts over: when no line before it ends
    the session, a session in which [clear] is typed behaves as the
    session up to that line followed by a new session with the lines
    typed after it. *)
Theorem repl_clear_restarts (SYSTEM_PROMPT : string)
        (get_client : outcome host)
        (print_error : exn -> string -> outcome unit)
        (before : list string) (line : string) (after : list string)
        (s : state) :
  Forall (fun l => is_quit (strip l) = false) before ->
  is_clear (strip line) = true ->
  repl SYSTEM_PROMPT get_client print_error (before ++ line :: after) s
  = StateMonad.bind
      (repl SYSTEM_PROMPT get_client print_error before)
      (fun _ => repl SYSTEM_PROMPT get_client print_error after) s.
Proof.
  intros Hnoquit Hclear. unfold repl, with_client.
  destruct get_client as [client|e].
  - change (StateMonad.bind
              (reset_messages [system_message SYSTEM_PROMPT])
              (fun _ => repl_loop SYSTEM_PROMPT print_error client
                                  (before ++ line :: after)) s
            = StateMonad.bind
                (StateMonad.bind
                   (reset_messages [system_message SYSTEM_PROMPT])
                   (fun _ => repl_loop SYSTEM_PROMPT print_error client
                                       before))
                (fun _ =>
                   StateMonad.bind
                     (reset_messages [system_message SYSTEM_PROMPT])
                     (fun _ => repl_loop SYSTEM_PROMPT print_error client
                                         after)) s).
    rewrite bind_bind. apply bind_ext_state. intros _ s1.
    now apply repl_loop_clear.
  - unfold StateMonad.bind.
    destruct (isinstance e Exception); [|reflexivity].
    now destruct (print_error e "Failed to initialize client") as [[]|e'].
Qed.

(* ================================================================= *)
(** ** More runs on concrete inputs *)

Section MoreRuns.
Import Scripted Examples MoreExamples.

Lemma safe_eval_node_permitted_witness :
  permitted (scripted_host []) sqrt_expression = true.
Proof.
  apply (safe_eval_node_permitted (scripted_host []) sqrt_expression
                                  fourteen).
  vm_compute. reflexivity.
Defined.

Lemma calculate_result_or_error_witness :
  (exists tree v,
     ast_parse (scripted_host []) (PStr "1/0") = Returned tree
     /\ safe_eval_node (scripted_host []) tree = Returned v
     /\ permitted (scripted_host []) tree = true
     /\ [("error", PStr "Division by zero")]
        = [("expression", PStr "1/0"); ("result", v)]
     /\ sget "error" [("error", PStr "Division by zero")] = None)
  \/ (exists msg,
        [("error", PStr "Division by zero")] = [("error", PStr msg)]
        /\ sget "result" [("error", PStr "Division by zero")] = None).
Proof.
  apply (calculate_result_or_error (scripted_host []) (PStr "1/0")).
  vm_compute. reflexivity.
Defined.

Lemma result_within_recursion_limit_witness :
  frames_needed (scripted_host []) (Expression sqrt_expression) <= 990
  /\ exists msg,
       [("error", PStr "maximum recursion depth exceeded")]
       = [("error", PStr msg)].
Proof.
  split.
  - destruct (result_within_recursion_limit
                (scripted_host []) (PStr "sqrt(16) + 5 * 2")
                (Expression sqrt_expression)
                [("expression", PStr "sqrt(16) + 5 * 2");
                 ("result", fourteen)])
      as (Hfits & _); [reflexivity | reflexivity|].
    apply (Hfits fourteen). reflexivity.
  - destruct (result_within_recursion_limit
                shallow_host (PStr "sqrt(16) + 5 * 2")
                (Expression sqrt_expression)
                [("error", PStr "maximum recursion depth exceeded")])
      as (_ & Hdeep); [reflexivity | reflexivity|].
    apply Hdeep. cbn. lia.
Defined.

Lemma schema_matches_signature_witness :
  exists msg,
    option_map (fun f : handler => f [("file", PStr "x")] [])
               (dict_get String.eqb "read_file"
                         (FUNCTION_MAP (scripted_host [])))
    = Some (Raised (mk_exn TypeError msg)).
Proof.
  destruct (schema_matches_signature (scripted_host []) (nth 0 TOOLS PNone)
              [("file", PStr "x")] [])
    as (_ & name & f & Hname & Hf & Hno & _).
  - left. reflexivity.
  - injection Hname as <-. rewrite Hf. cbn [option_map].
    destruct Hno as (msg & ->); [reflexivity|]. now exists msg.
Defined.

Lemma run_command_output_bounded_witness :
  (py_len (many (Z.to_nat 10240) "a"%char) <= MAX_OUTPUT_SIZE)%Z
  /\ (sget "truncated" yes_payload = Some (PBool true) <->
      (MAX_OUTPUT_SIZE < py_len long_output
       \/ MAX_OUTPUT_SIZE < py_len "")%Z).
Proof.
  destruct (run_command_output_bounded disk (scripted_host []) []
                                       (PStr "yes") yes_payload)
    as (Hout & _ & Hrun).
  - vm_compute. reflexivity.
  - split.
    + apply Hout. reflexivity.
    + apply (Hrun {| cp_returncode := 0; cp_stdout := Some long_output;
                     cp_stderr := Some "" |}).
      reflexivity.
Defined.

Lemma read_file_content_guarded_witness :
  exists fp size content,
    resolve disk [] (PStr "/tmp/notes.txt") = Returned fp
    /\ path_exists disk [] fp = Returned true
    /\ path_is_file disk [] fp = Returned true
    /\ st_size disk [] fp = Returned size
    /\ (size <= MAX_FILE_SIZE)%Z
    /\ read_text disk [] fp = Decoded content
    /\ PStr "hello" = PStr content
    /\ notes_payload
       = [("path", PStr fp); ("content", PStr content);
          ("size", PInt (py_len content))].
Proof.
  apply (read_file_content_guarded disk (scripted_host []) []
                                   (PStr "/tmp/notes.txt")).
  - vm_compute. reflexivity.
  - reflexivity.
Defined.

Lemma list_directory_sorted_listing_witness :
  exists fp items entries,
    resolve disk [] (PStr "/tmp") = Returned fp
    /\ path_is_dir disk [] fp = Returned true
    /\ iterdir disk [] fp = Returned items
    /\ PList tmp_entries = PList entries
    /\ sget "count" tmp_payload
       = Some (PInt (Z.of_nat (List.length entries)))
    /\ Forall2 describes (sorted_items items) entries
    /\ Sorted name_le (sorted_items items)
    /\ Permutation (sorted_items items) items.
Proof.
  apply (list_directory_sorted_listing disk (scripted_host []) []
                                       (PStr "/tmp")).
  - vm_compute. reflexivity.
  - reflexivity.
Defined.

Lemma final_answer_turn_witness :
  stream_agent_turn (scripted_host [final_answer]) start
  = (Returned (Some "Done."),
     {| messages := messages start ++ [assistant_msg (aggregate final_answer)];
        trace := trace start ++ [ChatRequest (messages start)] |})
  /\ sget "tool_calls" (assistant_msg (aggregate final_answer)) = None
  /\ agent_turn (scripted_host [final_answer]) default_max_iterations start
     = (Returned (PStr "Done."),
        {| messages :=
             messages start ++ [assistant_msg (aggregate final_answer)];
           trace := trace start ++ [ChatRequest (messages start)] |}).
Proof.
  apply (final_answer_turn (scripted_host [final_answer]) start
                           final_answer 9); reflexivity.
Defined.

Lemma unknown_tool_reported_witness :
  (execute_tool_call (scripted_host []) unknown_call start
   = (Returned tt,
      {| messages :=
           messages start
           ++ [[ ("role", PStr "tool");
                 ("tool_call_id", PStr "call_a");
                 ("content",
                  PStr (encode (PDict [("error",
                                        PStr "Unknown function: delete_file")])))
               ]];
         trace := trace start |})
   /\ dispatch_event (scripted_host []) unknown_call = [])
  /\ execute_tool_call (scripted_host []) closing_tag_call start
     = (Raised closing_tag_error, start).
Proof.
  split.
  - destruct (unknown_tool_reported (scripted_host []) unknown_call start [])
      as (Hexec & Hnone & _).
    + reflexivity.
    + cbv. intuition discriminate.
    + split; [exact Hexec | exact Hnone].
  - destruct (unknown_tool_reported (scripted_host []) closing_tag_call
                                    start [])
      as (Hexec & _).
    + reflexivity.
    + cbv. intuition discriminate.
    + exact Hexec.
Defined.

Lemma non_mapping_arguments_raise_witness :
  execute_tool_call (scripted_host []) list_arguments start
  = (Raised (mk_exn AttributeError
                    "'list' object has no attribute 'items'"), start)
  /\ dispatch_event (scripted_host []) list_arguments = [].
Proof.
  destruct (non_mapping_arguments_raise (scripted_host []) list_arguments
                                        start (PList [PInt 1; PInt 2]))
    as (Hexec & Hnone & _).
  - reflexivity.
  - discriminate.
  - split; [exact Hexec | exact Hnone].
Defined.

Lemma unserializable_result_raises_witness :
  execute_tool_call complex_host complex_call start
  = (Raised (mk_exn TypeError
                    ("Object of type " ++ "complex"
                     ++ " is not JSON serializable")),
     {| messages := messages start;
        trace := trace start
                 ++ [ToolCall (function_name (tool_function complex_call))
                              [("expression", PStr "(-1) ** 0.5")]] |}).
Proof.
  refine (unserializable_result_raises complex_host complex_call start
            [("expression", PStr "(-1) ** 0.5")]
            (call1 "calculate" "expression" None
                   (fun _ => calculate complex_host))
            complex_result "complex" _ _ _ _);
    [ reflexivity | reflexivity | vm_compute; reflexivity | reflexivity ].
Defined.

Lemma long_integer_result_raises_witness :
  execute_tool_call power_host power_call start
  = (Raised too_long,
     {| messages := messages start;
        trace := trace start
                 ++ [ToolCall "calculate"
                              [("expression", PStr "10 ** 4300")]] |}).
Proof.
  refine (long_integer_result_raises power_host power_call start
            [("expression", PStr "10 ** 4300")]
            (call1 "calculate" "expression" None
                   (fun _ => calculate power_host))
            "10 ** 4300" (10 ^ 4300) _ _ _ _);
    [ reflexivity | reflexivity | reflexivity | vm_compute; reflexivity ].
Defined.

Lemma remote_failure_not_retried_witness :
  stream_agent_turn offline_host start
  = (Raised unreachable,
     {| messages := messages start;
        trace := trace start ++ [ChatRequest (messages start)] |})
  /\ agent_turn offline_host default_max_iterations start
     = (Raised unreachable,
        {| messages := messages start;
           trace := trace start ++ [ChatRequest (messages start)] |})
  /\ chat_requests (trace start ++ [ChatRequest (messages start)])
     = S (chat_requests (trace start)).
Proof.
  apply (remote_failure_not_retried offline_host 9 start unreachable).
  reflexivity.
Defined.

Lemma tool_calls_in_arrival_order_witness :
  sget "tool_calls" (assistant_msg (aggregate out_of_order))
  = Some (PList (map tool_call_record
                     (dict_values (tool_calls (aggregate out_of_order))))).
Proof.
  destruct (tool_calls_in_arrival_order out_of_order) as (_ & _ & Hlist).
  apply Hlist. vm_compute. discriminate.
Defined.

Lemma single_query_contained_witness :
  single_query prompt (Raised no_key) quiet "hi" start = (Returned tt, start)
  /\ (exists evs,
        trace (snd (single_query prompt
                                 (Returned (scripted_host [missing_path]))
                                 quiet "hi" start))
        = trace start
          ++ ChatRequest [system_message prompt; user_message "hi"] :: evs)
  /\ single_query prompt (Returned (scripted_host [missing_path])) quiet
                  "[/etc]" start
     = (Raised closing_tag_in_query,
        {| messages := [system_message prompt; user_message "[/etc]"];
           trace := trace start |}).
Proof.
  split; [|split].
  - destruct (single_query_contained prompt (Raised no_key) quiet "hi" start)
      as (Hfail & _); [reflexivity|].
    apply (Hfail no_key); reflexivity.
  - destruct (single_query_contained
                prompt (Returned (scripted_host [missing_path])) quiet
                "hi" start) as (_ & Hclient & _); [reflexivity|].
    destruct (Hclient (scripted_host [missing_path]) eq_refl)
      as (_ & Hprinted).
    now apply Hprinted.
  - destruct (single_query_contained
                prompt (Returned (scripted_host [missing_path])) quiet
                "[/etc]" start) as (_ & Hclient & _); [reflexivity|].
    destruct (Hclient (scripted_host [missing_path]) eq_refl)
      as (Hraised & _).
    now apply Hraised.
Defined.

Lemma demo_runs_every_query_witness :
  In (ChatRequest [system_message prompt;
                   user_message (nth 2 demo_queries "")])
     (trace (snd (demo prompt (Returned (scripted_host [missing_path]))
                       quiet start)))
  /\ demo prompt (Raised no_key) quiet start = (Returned tt, start).
Proof.
  split.
  - destruct (demo_runs_every_query
                prompt (Returned (scripted_host [missing_path])) quiet start)
      as (_ & _ & Hall); [reflexivity|].
    apply (Hall (scripted_host [missing_path]));
      [reflexivity | vm_compute; reflexivity|].
    right. right. left. reflexivity.
  - destruct (demo_runs_every_query prompt (Raised no_key) quiet start)
      as (_ & Hfail & _); [reflexivity|].
    apply (Hfail no_key); reflexivity.
Defined.

Lemma repl_contained_witness :
  exists tail,
    messages (snd (repl prompt (Returned (scripted_host [missing_path]))
                        quiet ["read it"; "quit"] start))
    = system_message prompt :: tail.
Proof.
  destruct (repl_contained prompt (Returned (scripted_host [missing_path]))
                           quiet ["read it"; "quit"] start)
    as (_ & Hloop); [reflexivity|].
  destruct (Hloop (scripted_host [missing_path]) eq_refl) as (_ & Hhead).
  exact Hhead.
Defined.

Lemma repl_quit_and_blank_witness :
  repl prompt (Returned (scripted_host [final_answer])) quiet
       (["hello"] ++ " QUIT " :: ["more"]) start
  = repl prompt (Returned (scripted_host [final_answer])) quiet
         ["hello"] start.
Proof.
  apply (repl_quit_and_blank prompt (Returned (scripted_host [final_answer]))
                             quiet ["hello"] " QUIT " ["more"] start).
  reflexivity.
Defined.

Lemma repl_clear_restarts_witness :
  repl prompt (Returned (scripted_host [final_answer])) quiet
       (["hello"] ++ "Clear" :: ["again"]) start
  = StateMonad.bind
      (repl prompt (Returned (scripted_host [final_answer])) quiet ["hello"])
      (fun _ => repl prompt (Returned (scripted_host [final_answer])) quiet
                     ["again"]) start.
Proof.
  apply (repl_clear_restarts prompt (Returned (scripted_host [final_answer]))
                             quiet ["hello"] "Clear" ["again"] start).
  - repeat constructor.
  - reflexivity.
Defined.

End MoreRuns.
